(** * The AI-agent edge function: stream relay, tool executor, orchestrator

    A shallow embedding of [supabase/functions/ai-agent/index.ts] and the
    properties of its streaming and tool-calling loop.

    The model:
    - [JS]: the fragment of JavaScript values and built-ins the function
      relies on (property access, truthiness, string coercion, [split],
      [trim], ...);
    - [Json]: a reference [JSON.parse] and [JSON.stringify], used to run the
      model on concrete texts (the general statements hold for any
      [JSON.parse]);
    - [Async]: async function bodies as trees of awaited backend calls, their
      traces, their runs against a backend, and [Promise.all];
    - [Agent]: the functions of [index.ts]: the tool registry, the eight tool
      handlers, [executeSingleTool], [executeToolsParallel], the read loop of
      the streamed reply, [buildAgentContext], [getSystemPrompt] and the
      request handler;
    - [Store]: an in-memory reference behaviour of the tables.

    Then the notions used to state the properties, and the properties: the
    read loop on lines and chunks, the executions of async bodies,
    [Promise.all], the tool executor, the conversation store and the streamed
    reply, and the drafts of the citizenship application; then further
    properties of the same functions: the lines the loop ignores, the context
    and the system prompt, the footprint of the tools and the behaviour of
    each handler on its edge cases, the shape of the two replies, and the
    course of a request through the handler.

    The handler is modelled from the validated request on: CORS, the health
    check and the validation of the body are code of [_shared], outside
    [index.ts].  Console output and the headers of [fetch] are left out.
    The output stream is seen through its controller, which takes events
    while the stream is readable and throws once it is closed or errored (as
    it is for a consumer that has gone away). *)

From Stdlib Require Import List String Ascii ZArith Bool Lia Arith.
From Stdlib Require Import DecimalString.
Import ListNotations.
Local Open Scope list_scope.
Local Open Scope string_scope.

Set Implicit Arguments.
Set Warnings "-register-all".

(* ===================================================================== *)
(** ** JavaScript values *)
(* ===================================================================== *)

Module JS.

(** Exceptions.  Every thrown object of the program is an [Error] instance;
    what the code reads of it is its [message].  The text of the messages
    raised by the engine itself is engine-defined; the model fixes one. *)
Inductive exn : Type :=
| TypeError (m : string)
| SyntaxError (m : string)
| Error (m : string).

Definition message (e : exn) : string :=
  match e with TypeError m | SyntaxError m | Error m => m end.

(** A computation that either throws or yields a value. *)
Definition result (A : Type) : Type := (exn + A)%type.

Definition ok {A} (a : A) : result A := inr a.
Definition throw {A} (e : exn) : result A := inl e.

Definition rbind {A B} (r : result A) (f : A -> result B) : result B :=
  match r with inl e => inl e | inr a => f a end.

Declare Scope js_scope.
Delimit Scope js_scope with js.
Notation "x <~ r ;; k" := (rbind r (fun x => k))
  (at level 61, r at next level, right associativity) : js_scope.

(** Values: what [JSON.parse] can produce, plus [undefined].  Numbers are
    the integers (no claim depends on fractional numbers).  A string holds
    the UTF-8 encoding of its text, as the string literals of this file do;
    lengths and positions are counted in UTF-16 code units, as JavaScript
    counts them (see [units] and [take]).  An object lists its own
    properties in enumeration order. *)
Inductive value : Type :=
| VUndefined
| VNull
| VBool (b : bool)
| VNum (n : Z)
| VStr (s : string)
| VArr (xs : list value)
| VObj (props : list (string * value)).

Definition nullish (v : value) : bool :=
  match v with VUndefined | VNull => true | _ => false end.

(** [if (v)], [!v], [v || w], [v && w]. *)
Definition truthy (v : value) : bool :=
  match v with
  | VUndefined | VNull => false
  | VBool b => b
  | VNum n => negb (n =? 0)%Z
  | VStr s => negb (s =? "")
  | VArr _ | VObj _ => true
  end.

Definition or_else (v w : value) : value := if truthy v then v else w.

Fixpoint lookup (k : string) (props : list (string * value)) : value :=
  match props with
  | [] => VUndefined
  | (k', v) :: rest => if k' =? k then v else lookup k rest
  end.

Definition has_own (k : string) (props : list (string * value)) : bool :=
  existsb (fun kv => fst kv =? k) props.

(** *** Code units

    JavaScript counts a string in UTF-16 code units: a code point that UTF-8
    encodes on one, two or three bytes is one unit; a code point encoded on
    four bytes is two units, a surrogate pair. *)
Definition byte (c : ascii) : nat := nat_of_ascii c.

(** The bytes [10xxxxxx], which continue a code point. *)
Definition is_continuation (c : ascii) : bool :=
  ((128 <=? byte c) && (byte c <? 192))%nat.

(** The bytes [11110xxx], which open a code point encoded on four bytes. *)
Definition is_astral (c : ascii) : bool := (240 <=? byte c)%nat.

(** [s.length] *)
Fixpoint units (s : string) : nat :=
  match s with
  | EmptyString => 0
  | String c r =>
      ((if is_continuation c then 0 else if is_astral c then 2 else 1) + units r)%nat
  end.

Definition str_length (s : string) : Z := Z.of_nat (units s).

(** The first half of the surrogate pair of the code point encoded by
    [b0 b1 b2 _], on three bytes: what a string cut inside the pair ends
    with. *)
Definition high_surrogate (b0 b1 b2 : ascii) : string :=
  let h := ((byte b0 mod 8) * 256 + (byte b1 mod 64) * 4 + (byte b2 mod 64) / 16 - 64)%nat in
  String (ascii_of_nat 237)
    (String (ascii_of_nat (160 + h / 64)) (String (ascii_of_nat (128 + h mod 64)) "")).

(** [s.substring(0, n)]: the first [n] code units. *)
Fixpoint take (n : nat) (s : string) : string :=
  match s with
  | EmptyString => EmptyString
  | String c r =>
      if is_continuation c then String c (take n r)
      else
        match n with
        | O => EmptyString
        | S O =>
            if is_astral c
            then match r with
                 | String b1 (String b2 _) => high_surrogate c b1 b2
                 | _ => EmptyString
                 end
            else String c (take 0 r)
        | S (S n' as m) => String c (take (if is_astral c then n' else m) r)
        end
  end.

(** The code points of a string, each as a string. *)
Fixpoint code_points (s : string) : list string :=
  match s with
  | EmptyString => []
  | String c r =>
      match code_points r with
      | p :: ps =>
          if match r with String d _ => is_continuation d | EmptyString => false end
          then String c p :: ps
          else String c "" :: p :: ps
      | [] => [String c ""]
      end
  end.

(** [v.k] for the property names the program uses: none of them is an array
    index or the name of a prototype method, so a property is either an own
    property of an object, the [length] of an array or string, or absent. *)
Definition get (v : value) (k : string) : result value :=
  match v with
  | VUndefined =>
      throw (TypeError ("Cannot read properties of undefined (reading '" ++ k ++ "')"))
  | VNull =>
      throw (TypeError ("Cannot read properties of null (reading '" ++ k ++ "')"))
  | VObj props => ok (lookup k props)
  | VArr xs => ok (if k =? "length" then VNum (Z.of_nat (List.length xs)) else VUndefined)
  | VStr s => ok (if k =? "length" then VNum (str_length s) else VUndefined)
  | VBool _ | VNum _ => ok VUndefined
  end.

(** [v?.k] *)
Definition get_opt (v : value) (k : string) : value :=
  match get v k with inr w => w | inl _ => VUndefined end.

Definition nat_to_string (n : nat) : string :=
  NilZero.string_of_uint (Nat.to_uint n).

Definition Z_to_string (n : Z) : string :=
  NilZero.string_of_int (Z.to_int n).

(** [v[0]] on a non-nullish value. *)
Definition get_index0 (v : value) : result value :=
  match v with
  | VUndefined => throw (TypeError "Cannot read properties of undefined (reading '0')")
  | VNull => throw (TypeError "Cannot read properties of null (reading '0')")
  | VArr xs => ok (nth 0 xs VUndefined)
  | VStr s => ok (match s with String _ _ => VStr (take 1 s) | EmptyString => VUndefined end)
  | VObj props => ok (lookup "0" props)
  | VBool _ | VNum _ => ok VUndefined
  end.

(** [v?.[0]] *)
Definition get_index0_opt (v : value) : value :=
  match get_index0 v with inr w => w | inl _ => VUndefined end.

Definition cannot_convert : exn := TypeError "Cannot convert object to primitive value".

(** [String(v)], as performed by template literals, by [+] with a string
    and by [JSON.parse] on its argument.  An object read from JSON has no
    callable [toString] of its own: when it has an own property of that name
    the conversion throws, otherwise [Object.prototype.toString] applies.
    Arrays convert through [join(",")]. *)
Fixpoint ToString (v : value) : result string :=
  match v with
  | VUndefined => ok "undefined"
  | VNull => ok "null"
  | VBool true => ok "true"
  | VBool false => ok "false"
  | VNum n => ok (Z_to_string n)
  | VStr s => ok s
  | VArr xs =>
      (fix join (first : bool) (ys : list value) : result string :=
         match ys with
         | [] => ok ""
         | y :: ys' =>
             match (if nullish y then ok "" else ToString y) with
             | inl e => inl e
             | inr s =>
                 match join false ys' with
                 | inl e => inl e
                 | inr t => ok ((if first then "" else ",") ++ s ++ t)
                 end
             end
         end) true xs
  | VObj props =>
      if has_own "toString" props then throw cannot_convert
      else ok "[object Object]"
  end.

Definition elem_to_string (v : value) : result string :=
  if nullish v then ok "" else ToString v.

(** [xs.join(sep)] on an array. *)
Fixpoint join_with (sep : string) (xs : list value) : result string :=
  match xs with
  | [] => ok ""
  | [x] => elem_to_string x
  | x :: rest =>
      match elem_to_string x with
      | inl e => inl e
      | inr s =>
          match join_with sep rest with
          | inl e => inl e
          | inr t => ok (s ++ sep ++ t)
          end
      end
  end.

Definition not_a_function (what : string) : exn := TypeError (what ++ " is not a function").

(** [v.join(sep)]: only arrays have the method. *)
Definition call_join (v : value) (what sep : string) : result string :=
  match v with
  | VUndefined | VNull =>
      match get v "join" with inl e => inl e | inr _ => throw (not_a_function what) end
  | VArr xs => join_with sep xs
  | _ => throw (not_a_function what)
  end.

Definition is_upper (c : ascii) : bool := ((65 <=? byte c) && (byte c <=? 90))%nat.

(** The second byte of a capital letter of Latin-1 (U+00C0 to U+00DE but
    the multiplication sign), after the byte [C3]. *)
Definition is_upper_latin1 (c d : ascii) : bool :=
  ((byte c =? 195) && (128 <=? byte d) && (byte d <=? 158) && negb (byte d =? 151))%nat.

(** [s.toLowerCase()] on the letters of ASCII and Latin-1; the case of
    other letters is not modelled (the strategies the program lowers are
    ASCII words). *)
Fixpoint lower_string (s : string) : string :=
  match s with
  | EmptyString => EmptyString
  | String c r =>
      if is_upper c then String (ascii_of_nat (byte c + 32)) (lower_string r)
      else
        match r with
        | String d r' =>
            if is_upper_latin1 c d
            then String c (String (ascii_of_nat (byte d + 32)) (lower_string r'))
            else String c (lower_string r)
        | EmptyString => String c EmptyString
        end
  end.

(** [v.toLowerCase()]: only strings have the method. *)
Definition call_toLowerCase (v : value) (what : string) : result string :=
  match v with
  | VUndefined | VNull =>
      match get v "toLowerCase" with inl e => inl e | inr _ => throw (not_a_function what) end
  | VStr s => ok (lower_string s)
  | _ => throw (not_a_function what)
  end.

Fixpoint indices (i n : nat) : list string :=
  match n with
  | O => []
  | S n' => nat_to_string i :: indices (S i) n'
  end.

(** [Object.keys(v)] *)
Definition Object_keys (v : value) : result (list string) :=
  match v with
  | VUndefined | VNull => throw (TypeError "Cannot convert undefined or null to object")
  | VObj props => ok (map fst props)
  | VArr xs => ok (indices 0 (List.length xs))
  | VStr s => ok (indices 0 (units s))
  | VBool _ | VNum _ => ok []
  end.

Definition chars_of (s : string) : list value := map VStr (code_points s).

(** [...v] in an argument list: arrays and strings are iterable (a string
    by code points). *)
Definition spread (v : value) : result (list value) :=
  match v with
  | VArr xs => ok xs
  | VStr s => ok (chars_of s)
  | VUndefined => throw (TypeError "undefined is not iterable")
  | VNull => throw (TypeError "null is not iterable")
  | VBool _ | VNum _ | VObj _ => throw (TypeError "value is not iterable")
  end.

(** *** Strings *)

Definition newline : ascii := ascii_of_nat 10.

(** White space and line terminators.  Those of ASCII: tab to carriage
    return, and the space. *)
Definition is_space (c : ascii) : bool :=
  (((9 <=? byte c) && (byte c <=? 13)) || (byte c =? 32))%nat.

(** The no-break space U+00A0 ([C2 A0]). *)
Definition is_nbsp (c d : ascii) : bool := ((byte c =? 194) && (byte d =? 160))%nat.

(** Those encoded on three bytes: U+1680, U+2000 to U+200A, U+2028, U+2029,
    U+202F, U+205F, U+3000 and U+FEFF. *)
Definition is_wide_space (c d e : ascii) : bool :=
  (((byte c =? 225) && (byte d =? 154) && (byte e =? 128))
   || ((byte c =? 226) && (byte d =? 128)
       && (((128 <=? byte e) && (byte e <=? 138))
           || (byte e =? 168) || (byte e =? 169) || (byte e =? 175)))
   || ((byte c =? 226) && (byte d =? 129) && (byte e =? 159))
   || ((byte c =? 227) && (byte d =? 128) && (byte e =? 128))
   || ((byte c =? 239) && (byte d =? 187) && (byte e =? 191)))%nat.

Fixpoint trim_start (s : string) : string :=
  match s with
  | EmptyString => EmptyString
  | String c r =>
      if is_space c then trim_start r
      else
        match r with
        | String d r1 =>
            if is_nbsp c d then trim_start r1
            else
              match r1 with
              | String e r2 => if is_wide_space c d e then trim_start r2 else s
              | EmptyString => s
              end
        | EmptyString => s
        end
  end.

(** A string of white space only. *)
Definition blank (s : string) : bool := trim_start s =? "".

Fixpoint trim_end (s : string) : string :=
  match s with
  | EmptyString => EmptyString
  | String c r => if blank s then EmptyString else String c (trim_end r)
  end.

(** [s.trim()] *)
Definition trim (s : string) : string := trim_end (trim_start s).

(** [s.startsWith(p)] *)
Definition startsWith (p s : string) : bool := String.prefix p s.

(** [s.slice(n)] for [n >= 0], on a string whose first [n] code units are
    ASCII (the program calls it after [startsWith]). *)
Fixpoint slice (n : nat) (s : string) : string :=
  match n, s with
  | O, _ => s
  | S n', String _ r => slice n' r
  | S _, EmptyString => EmptyString
  end.

(** [s.split('\n')]: never empty; the last element is what follows the last
    newline. *)
Fixpoint split_nl (s : string) : list string :=
  match s with
  | EmptyString => [EmptyString]
  | String c r =>
      if Ascii.eqb c newline then EmptyString :: split_nl r
      else match split_nl r with
           | h :: t => String c h :: t
           | [] => [String c EmptyString]
           end
  end.

(** [names.includes(s)] on an array of string literals. *)
Definition includes (names : list string) (s : string) : bool :=
  existsb (String.eqb s) names.

End JS.

(* ===================================================================== *)
(** ** A reference JSON reader *)
(* ===================================================================== *)

(** [JSON.parse] is a built-in of the runtime.  The development takes it as
    a parameter; this module provides the instance used to run the model on
    concrete texts.  It reads JSON whose numbers are integer literals and
    whose [\u] escapes stay below U+0080 (other characters are written as
    they are, in UTF-8); other texts are outside the fragment and are never
    used as inputs. *)
Module Json.
Import JS.

Definition dquote : ascii := ascii_of_nat 34.
Definition backslash : ascii := ascii_of_nat 92.

(** Writes a text with single quotes standing for double quotes. *)
Fixpoint js (s : string) : string :=
  match s with
  | EmptyString => EmptyString
  | String c r => String (if Ascii.eqb c "'"%char then dquote else c) (js r)
  end.

Definition is_ws (c : ascii) : bool :=
  let n := nat_of_ascii c in
  ((n =? 32) || (n =? 9) || (n =? 10) || (n =? 13))%nat.

Fixpoint skip_ws (s : string) : string :=
  match s with
  | String c r => if is_ws c then skip_ws r else s
  | EmptyString => EmptyString
  end.

Definition digit_val (c : ascii) : option Z :=
  let n := nat_of_ascii c in
  if ((48 <=? n) && (n <=? 57))%nat then Some (Z.of_nat (n - 48)) else None.

Definition hex_val (c : ascii) : option nat :=
  let n := nat_of_ascii c in
  if ((48 <=? n) && (n <=? 57))%nat then Some (n - 48)%nat
  else if ((65 <=? n) && (n <=? 70))%nat then Some (n - 55)%nat
  else if ((97 <=? n) && (n <=? 102))%nat then Some (n - 87)%nat
  else None.

Fixpoint read_digits (s : string) (acc : Z) : Z * string :=
  match s with
  | String c r =>
      match digit_val c with
      | Some d => read_digits r (10 * acc + d)%Z
      | None => (acc, s)
      end
  | EmptyString => (acc, s)
  end.

Definition starts_fraction (s : string) : bool :=
  match s with
  | String c _ => Ascii.eqb c "."%char || Ascii.eqb c "e"%char || Ascii.eqb c "E"%char
  | EmptyString => false
  end.

(** An integer literal: no leading zero, no fraction, no exponent. *)
Definition read_int (s : string) : option (Z * string) :=
  match s with
  | String c r =>
      match digit_val c with
      | Some 0%Z =>
          match r with
          | String c' _ =>
              match digit_val c' with
              | Some _ => None
              | None => if starts_fraction r then None else Some (0%Z, r)
              end
          | EmptyString => Some (0%Z, r)
          end
      | Some d =>
          let '(n, rest) := read_digits r d in
          if starts_fraction rest then None else Some (n, rest)
      | None => None
      end
  | EmptyString => None
  end.

Definition simple_escape (c : ascii) : option ascii :=
  if Ascii.eqb c dquote then Some dquote
  else if Ascii.eqb c backslash then Some backslash
  else if Ascii.eqb c "/"%char then Some "/"%char
  else if Ascii.eqb c "b"%char then Some (ascii_of_nat 8)
  else if Ascii.eqb c "f"%char then Some (ascii_of_nat 12)
  else if Ascii.eqb c "n"%char then Some (ascii_of_nat 10)
  else if Ascii.eqb c "r"%char then Some (ascii_of_nat 13)
  else if Ascii.eqb c "t"%char then Some (ascii_of_nat 9)
  else None.

Definition hex4 (a b c d : ascii) : option ascii :=
  match hex_val a, hex_val b, hex_val c, hex_val d with
  | Some 0%nat, Some 0%nat, Some h, Some l =>
      if (h <? 8)%nat then Some (ascii_of_nat (16 * h + l)) else None
  | _, _, _, _ => None
  end.

(** The characters of a string literal, after its opening quote. *)
Fixpoint read_chars (s : string) : option (string * string) :=
  match s with
  | EmptyString => None
  | String c r =>
      if Ascii.eqb c dquote then Some (EmptyString, r)
      else if Ascii.eqb c backslash then
        match r with
        | String e r' =>
            if Ascii.eqb e "u"%char then
              match r' with
              | String h1 (String h2 (String h3 (String h4 r''))) =>
                  match hex4 h1 h2 h3 h4, read_chars r'' with
                  | Some ch, Some (t, rest) => Some (String ch t, rest)
                  | _, _ => None
                  end
              | _ => None
              end
            else
              match simple_escape e, read_chars r' with
              | Some ch, Some (t, rest) => Some (String ch t, rest)
              | _, _ => None
              end
        | EmptyString => None
        end
      else if (nat_of_ascii c <? 32)%nat then None
      else
        match read_chars r with
        | Some (t, rest) => Some (String c t, rest)
        | None => None
        end
  end.

(** A repeated key keeps its first position and takes the last value. *)
Fixpoint set_prop (k : string) (v : value) (props : list (string * value))
  : list (string * value) :=
  match props with
  | [] => [(k, v)]
  | (k', v') :: rest =>
      if k' =? k then (k', v) :: rest else (k', v') :: set_prop k v rest
  end.

Fixpoint read_value (fuel : nat) (s : string) : option (value * string) :=
  match fuel with
  | O => None
  | S fuel' =>
      match skip_ws s with
      | EmptyString => None
      | String c r =>
          if Ascii.eqb c "{"%char then
            match skip_ws r with
            | String "}"%char r' => Some (VObj [], r')
            | _ =>
                (fix members (n : nat) (s : string) (acc : list (string * value))
                   : option (value * string) :=
                   match n with
                   | O => None
                   | S n' =>
                       match skip_ws s with
                       | String q s1 =>
                           if Ascii.eqb q dquote then
                             match read_chars s1 with
                             | Some (k, s2) =>
                                 match skip_ws s2 with
                                 | String ":"%char s3 =>
                                     match read_value fuel' s3 with
                                     | Some (v, s4) =>
                                         let acc' := set_prop k v acc in
                                         match skip_ws s4 with
                                         | String ","%char s5 => members n' s5 acc'
                                         | String "}"%char s5 => Some (VObj acc', s5)
                                         | _ => None
                                         end
                                     | None => None
                                     end
                                 | _ => None
                                 end
                             | None => None
                             end
                           else None
                       | EmptyString => None
                       end
                   end) fuel' r []
            end
          else if Ascii.eqb c "["%char then
            match skip_ws r with
            | String "]"%char r' => Some (VArr [], r')
            | _ =>
                (fix elements (n : nat) (s : string) (acc : list value)
                   : option (value * string) :=
                   match n with
                   | O => None
                   | S n' =>
                       match read_value fuel' s with
                       | Some (v, s1) =>
                           match skip_ws s1 with
                           | String ","%char s2 => elements n' s2 (acc ++ [v])%list
                           | String "]"%char s2 => Some (VArr (acc ++ [v])%list, s2)
                           | _ => None
                           end
                       | None => None
                       end
                   end) fuel' r []
            end
          else if Ascii.eqb c dquote then
            match read_chars r with
            | Some (t, rest) => Some (VStr t, rest)
            | None => None
            end
          else if Ascii.eqb c "-"%char then
            match read_int r with
            | Some (n, rest) => Some (VNum (- n), rest)
            | None => None
            end
          else if String.prefix "true" (String c r) then Some (VBool true, slice 4 (String c r))
          else if String.prefix "false" (String c r) then Some (VBool false, slice 5 (String c r))
          else if String.prefix "null" (String c r) then Some (VNull, slice 4 (String c r))
          else
            match read_int (String c r) with
            | Some (n, rest) => Some (VNum n, rest)
            | None => None
            end
      end
  end.

Definition hex_digit (n : nat) : ascii :=
  nth n (list_ascii_of_string "0123456789abcdef") "0"%char.

Definition escaped (c : ascii) : string :=
  let n := nat_of_ascii c in
  if Ascii.eqb c dquote then String backslash (String dquote "")
  else if Ascii.eqb c backslash then String backslash (String backslash "")
  else if (n =? 8)%nat then String backslash "b"
  else if (n =? 12)%nat then String backslash "f"
  else if (n =? 10)%nat then String backslash "n"
  else if (n =? 13)%nat then String backslash "r"
  else if (n =? 9)%nat then String backslash "t"
  else if (n <? 32)%nat
       then String backslash
              ("u00" ++ String (hex_digit (n / 16)) (String (hex_digit (n mod 16)) ""))
  else String c "".

Fixpoint escaped_chars (s : string) : string :=
  match s with
  | EmptyString => EmptyString
  | String c r => escaped c ++ escaped_chars r
  end.

Definition quoted (s : string) : string :=
  String dquote (escaped_chars s ++ String dquote "").

Fixpoint spaces (n : nat) : string :=
  match n with
  | O => EmptyString
  | S n' => String " " (spaces n')
  end.

Fixpoint lines_with_commas (items : list string) : string :=
  match items with
  | [] => EmptyString
  | [x] => x
  | x :: rest => x ++ String "," (String newline (lines_with_commas rest))
  end.

(** [JSON.stringify(v, null, 2)] at nesting depth [depth], for a value
    that is not [undefined]. *)
Fixpoint stringify_at (depth : nat) (v : value) : string :=
  match v with
  | VUndefined | VNull => "null"
  | VBool true => "true"
  | VBool false => "false"
  | VNum n => Z_to_string n
  | VStr s => quoted s
  | VArr xs =>
      match xs with
      | [] => "[]"
      | _ =>
          "[" ++ String newline
            (lines_with_commas
               ((fix items (ys : list value) : list string :=
                   match ys with
                   | [] => []
                   | y :: ys' =>
                       (spaces (2 * S depth) ++ stringify_at (S depth) y) :: items ys'
                   end) xs)
             ++ String newline (spaces (2 * depth) ++ "]"))
      end
  | VObj props =>
      match (fix fields (ps : list (string * value)) : list string :=
               match ps with
               | [] => []
               | (k, x) :: ps' =>
                   match x with
                   | VUndefined => fields ps'
                   | _ => (spaces (2 * S depth) ++ quoted k ++ ": " ++ stringify_at (S depth) x)
                            :: fields ps'
                   end
               end) props with
      | [] => "{}"
      | shown =>
          "{" ++ String newline
            (lines_with_commas shown ++ String newline (spaces (2 * depth) ++ "}"))
      end
  end.

Definition stringify_pretty (v : value) : string := stringify_at 0 v.

Definition parse (s : string) : result value :=
  match read_value (S (String.length s)) s with
  | Some (v, rest) =>
      match skip_ws rest with
      | EmptyString => ok v
      | _ => throw (SyntaxError "Unexpected non-whitespace character after JSON")
      end
  | None => throw (SyntaxError "Unexpected token in JSON")
  end.

End Json.

(* ===================================================================== *)
(** ** Programs that await the backend *)
(* ===================================================================== *)

Module Async.
Import JS.

(** What a Supabase call resolves to: [{ data, error }]. *)
Record pg_response : Type := { data : value; error : option exn }.

(** The calls made on the Supabase client: [functions.invoke(fn, body)];
    on [from(table)], [insert(rows)], [insert(row).select().single()],
    [update(patch).eq(col, v)], [select(cols).eq(col, v).single()], the same
    with [maybeSingle()], and
    [select(cols).eq(col, v).order(order, { ascending: true }).limit(limit)]. *)
Inductive supabase_op : Type :=
| FunctionsInvoke (fn : string) (body : value)
| Insert (table : string) (rows : value)
| InsertSelectSingle (table : string) (row : value)
| UpdateEq (table : string) (patch : value) (col : string) (v : value)
| SelectEqSingle (table cols col : string) (v : value)
| SelectEqMaybeSingle (table cols col : string) (v : value)
| SelectEqOrderLimit (table cols col : string) (v : value) (order : string) (limit : Z).

(** The body of the model's reply read as a stream: the decoded chunks in
    arrival order, and whether reading ends normally or with an error. *)
Record upstream : Type := { chunks : list string; failure : option exn }.

(** The reply of [fetch]: [ok], [status], what [await response.json()]
    gives, and the body as a stream. *)
Record http_response : Type :=
  { resp_ok : bool; status : Z; json : result value; body : upstream }.

(** An async function body: it returns, throws, or awaits a backend call
    and continues with what the call settles to ([inl]: the awaited promise
    rejected). *)
Inductive prog (A : Type) : Type :=
| Ret (a : A)
| Throw (e : exn)
| Supabase (op : supabase_op) (k : result pg_response -> prog A)
| Fetch (url : string) (init : value) (k : result http_response -> prog A).

Arguments Ret {A} a.
Arguments Throw {A} e.
Arguments Supabase {A} op k.
Arguments Fetch {A} url init k.

Fixpoint bind {A B} (p : prog A) (f : A -> prog B) : prog B :=
  match p with
  | Ret a => f a
  | Throw e => Throw e
  | Supabase op k => Supabase op (fun r => bind (k r) f)
  | Fetch url init k => Fetch url init (fun r => bind (k r) f)
  end.

(** [try { p } catch (e) { h e }] *)
Fixpoint try_catch {A} (p : prog A) (h : exn -> prog A) : prog A :=
  match p with
  | Ret a => Ret a
  | Throw e => h e
  | Supabase op k => Supabase op (fun r => try_catch (k r) h)
  | Fetch url init k => Fetch url init (fun r => try_catch (k r) h)
  end.

(** A synchronous computation inside an async body. *)
Definition lift {A} (r : result A) : prog A :=
  match r with inl e => Throw e | inr a => Ret a end.

(** [await supabase....] *)
Definition await (op : supabase_op) : prog pg_response :=
  Supabase op (fun r => lift r).

(** [await fetch(url, init)] *)
Definition await_fetch (url : string) (init : value) : prog http_response :=
  Fetch url init (fun r => lift r).

Declare Scope prog_scope.
Delimit Scope prog_scope with prog.
Notation "x <- p ;; k" := (bind p (fun x => k))
  (at level 61, p at next level, right associativity) : prog_scope.
Notation "p ;; k" := (bind p (fun _ => k))
  (at level 61, right associativity) : prog_scope.

(** *** Traces *)

(** One settled backend call. *)
Inductive obs : Type :=
| ObsSupabase (op : supabase_op) (r : result pg_response)
| ObsFetch (url : string) (init : value) (r : result http_response).

Definition rejected (o : obs) : bool :=
  match o with
  | ObsSupabase _ (inl _) | ObsFetch _ _ (inl _) => true
  | _ => false
  end.

(** [exec p t r]: answered with the calls of [t], in that order, [p] settles
    to [r]. *)
Fixpoint exec {A} (p : prog A) (t : list obs) (r : result A) : Prop :=
  match p with
  | Ret a => t = [] /\ r = inr a
  | Throw e => t = [] /\ r = inl e
  | Supabase op k =>
      exists x t', t = ObsSupabase op x :: t' /\ exec (k x) t' r
  | Fetch url init k =>
      exists x t', t = ObsFetch url init x :: t' /\ exec (k x) t' r
  end.

(** A backend: a state and the way each call is answered in it. *)
Record world (S : Type) : Type :=
  { on_supabase : supabase_op -> S -> result pg_response * S;
    on_fetch : string -> value -> S -> result http_response * S }.

(** Runs a program to completion against a backend. *)
Fixpoint run {S A} (w : world S) (p : prog A) (s : S) : result A * S * list obs :=
  match p with
  | Ret a => (inr a, s, [])
  | Throw e => (inl e, s, [])
  | Supabase op k =>
      let '(x, s1) := on_supabase w op s in
      let '(r, s2, t) := run w (k x) s1 in
      (r, s2, ObsSupabase op x :: t)
  | Fetch url init k =>
      let '(x, s1) := on_fetch w url init s in
      let '(r, s2, t) := run w (k x) s1 in
      (r, s2, ObsFetch url init x :: t)
  end.

(** *** [Promise.all] *)

Fixpoint replace_nth {A} (i : nat) (a : A) (l : list A) : list A :=
  match l, i with
  | [], _ => []
  | _ :: l', O => a :: l'
  | b :: l', S i' => b :: replace_nth i' a l'
  end.

(** Runs what is left of each body, one after the other. *)
Fixpoint settle_all {A} (pool : list (prog A)) : prog (list (result A)) :=
  match pool with
  | [] => Ret []
  | p :: pool' =>
      (r <- try_catch (a <- p ;; Ret (inr a)) (fun e => Ret (inl e)) ;;
       rs <- settle_all pool' ;;
       Ret (r :: rs))%prog
  end.

(** The bodies of a pool advance one awaited call at a time, in the order
    the event loop resumes them: [sched] names the body that moves next
    (a settled body or an index out of range lets the turn pass).  Every
    interleaving of the bodies' calls is the run of some schedule; when the
    schedule is exhausted the remaining calls are run in turn. *)
Fixpoint interleave {A} (sched : list nat) (pool : list (prog A))
  : prog (list (result A)) :=
  match sched with
  | [] => settle_all pool
  | i :: sched' =>
      match nth_error pool i with
      | Some (Supabase op k) =>
          Supabase op (fun r => interleave sched' (replace_nth i (k r) pool))
      | Some (Fetch url init k) =>
          Fetch url init (fun r => interleave sched' (replace_nth i (k r) pool))
      | _ => interleave sched' pool
      end
  end.

Fixpoint collect {A} (rs : list (result A)) : result (list A) :=
  match rs with
  | [] => ok []
  | inl e :: _ => throw e
  | inr a :: rs' =>
      match collect rs' with
      | inl e => inl e
      | inr l => ok (a :: l)
      end
  end.

(** [await Promise.all(pool)]: the values in the order of the pool, or the
    rejection of a body that rejected (the first in the order of the pool;
    the bodies of this program reject, if at all, before their first await,
    so that this is also the first in time). *)
Definition Promise_all {A} (sched : list nat) (pool : list (prog A)) : prog (list A) :=
  (rs <- interleave sched pool ;; lift (collect rs))%prog.

End Async.

(* ===================================================================== *)
(** ** The agent: [index.ts] *)
(* ===================================================================== *)

Module Agent.
Import JS Async.
Local Open Scope prog_scope.

(** *** The tool registry ([AGENT_TOOLS]) *)

Definition strs (l : list string) : value := VArr (map VStr l).

Definition ty (t : string) : value := VObj [("type", VStr t)].

Definition ty_desc (t d : string) : value :=
  VObj [("type", VStr t); ("description", VStr d)].

Definition enum_desc (vals : list string) (d : string) : value :=
  VObj [("type", VStr "string"); ("enum", strs vals); ("description", VStr d)].

Definition enum_of (vals : list string) : value :=
  VObj [("type", VStr "string"); ("enum", strs vals)].

Definition strings_desc (d : string) : value :=
  VObj [("type", VStr "array"); ("items", ty "string"); ("description", VStr d)].

Definition tool (name description : string) (properties : list (string * value))
  (required : list string) : value :=
  VObj [("type", VStr "function");
        ("function",
         VObj [("name", VStr name);
               ("description", VStr description);
               ("parameters",
                VObj [("type", VStr "object");
                      ("properties", VObj properties);
                      ("required", strs required)])])].

Definition AGENT_TOOLS : list value :=
  [ tool "generate_poa_pdf"
      "Generate a POA (Power of Attorney) PDF for a client. Use when client data is complete."
      [("caseId", ty_desc "string" "Case UUID");
       ("poaType", enum_desc ["adult"; "minor"; "spouses"] "Type of POA to generate");
       ("reason", ty_desc "string" "Why this POA is needed")]
      ["caseId"; "poaType"];
    tool "create_task"
      "Create a task for HAC, client, or partner to complete"
      [("caseId", ty "string"); ("title", ty "string"); ("description", ty "string");
       ("priority", enum_of ["low"; "medium"; "high"]);
       ("category", ty "string");
       ("dueDate", ty_desc "string" "ISO date string")]
      ["caseId"; "title"; "priority"];
    tool "trigger_ocr"
      "Trigger OCR processing on a document to extract text and data"
      [("documentId", ty "string"); ("expectedType", ty "string")]
      ["documentId"];
    tool "update_master_data"
      "Update fields in master_table for a case"
      [("caseId", ty "string"); ("fields", ty "object"); ("reason", ty "string")]
      ["caseId"; "fields"];
    tool "generate_archive_request"
      "Generate a Polish archive request letter for missing documents"
      [("caseId", ty "string");
       ("personType",
        enum_desc ["AP"; "F"; "M"; "PGF"; "PGM"; "MGF"; "MGM"]
          "Person whose documents are needed");
       ("documentTypes", strings_desc "Types of documents needed (birth, marriage, etc.)");
       ("archiveLocation", ty_desc "string" "Polish archive to contact")]
      ["caseId"; "personType"; "documentTypes"];
    tool "create_oby_draft"
      "Create or update OBY citizenship application draft with auto-populated fields"
      [("caseId", ty "string");
       ("autoPopulatedFields", strings_desc "List of field names that were auto-populated")]
      ["caseId"];
    tool "draft_wsc_response"
      "Draft a response strategy for WSC (Voivoda) letter"
      [("caseId", ty "string");
       ("wscLetterId", ty_desc "string" "UUID of WSC letter");
       ("strategy", enum_desc ["PUSH"; "NUDGE"; "SITDOWN"] "Response strategy type");
       ("keyPoints", strings_desc "Main arguments to include")]
      ["caseId"; "strategy"];
    tool "generate_civil_acts_request"
      "Generate Polish civil acts (birth/marriage certificate) application"
      [("caseId", ty "string");
       ("actType", enum_desc ["birth"; "marriage"] "Type of civil act to request");
       ("personType", ty_desc "string" "Person for whom to request (AP, F, M, etc.)")]
      ["caseId"; "actType"] ].

(** The names the registry advertises. *)
Definition registered_names : list string :=
  flat_map (fun t => match get_opt (get_opt t "function") "name" with
                     | VStr s => [s]
                     | _ => []
                     end) AGENT_TOOLS.

(** *** Tool results *)

(** What a handler leaves in [result]: [{ success, message, ...payload }]. *)
Record handler_result : Type :=
  { success : bool; message : string; payload : list (string * value) }.

(** [{ tool_call_id, name, result }] *)
Record ToolResult : Type :=
  { tool_call_id : value; name : value; result : handler_result }.

Definition succeeded (m : string) : handler_result :=
  {| success := true; message := m; payload := [] |}.

(** [{ success: false, message: `Failed: ${error.message}` }] *)
Definition failed (e : exn) : handler_result :=
  {| success := false; message := "Failed: " ++ JS.message e; payload := [] |}.

(** [{ success: false, message: 'Unknown tool' }] *)
Definition unknown_tool : handler_result :=
  {| success := false; message := "Unknown tool"; payload := [] |}.

(** The check mark that opens the success messages (U+2705, as UTF-8). *)
Definition check_mark : string := "✅".

(** The texts of [getSystemPrompt] (lines 744-969). *)
Definition basePrompt : string :=
  "You are an AI agent for Polish citizenship applications. You help manage cases efficiently.

When tools are available, use them proactively:
- Generate POA PDFs when data is complete
- Create tasks for follow-ups
- Trigger OCR for documents
- Update master data when extracting info

Always explain what you're doing with tools.".
Definition actionPrompts : list (string * string) :=
  [ ("researcher", basePrompt ++ "

RESEARCHER AGENT

Conduct thorough research on Polish citizenship laws, historical records, and genealogical data. Provide detailed reports with supporting evidence.");
    ("translator", basePrompt ++ "

TRANSLATOR AGENT

Translate documents and communications between Polish and other languages. Ensure accuracy and cultural relevance.");
    ("writer", basePrompt ++ "

WRITER AGENT

Compose letters, reports, and other documents related to Polish citizenship applications. Maintain a professional and persuasive tone.");
    ("designer", basePrompt ++ "

DESIGN AGENT

Create visually appealing presentations and infographics to communicate complex information about Polish citizenship.");
    ("document_check", basePrompt ++ "

DOCUMENT CHECK AGENT

Review client-provided documents for completeness, accuracy, and relevance to Polish citizenship requirements. Identify missing or problematic items.");
    ("task_suggest", basePrompt ++ "

TASK SUGGESTION AGENT

Suggest tasks for case managers, clients, or partners to advance Polish citizenship applications. Prioritize tasks based on urgency and impact.");
    ("wsc_strategy", basePrompt ++ "

WSC STRATEGY AGENT

Develop strategies for obtaining confirmation of Polish citizenship from the WSC (Voivodeship Office). Consider legal precedents and individual case factors.");
    ("form_populate", basePrompt ++ "

FORM POPULATION AGENT

Automatically populate Polish citizenship application forms with client data. Ensure accuracy and compliance with form instructions.

AVAILABLE TOOLS:
- create_oby_draft: Create citizenship application draft
- update_master_data: Update case data fields
- generate_poa_pdf: Generate Power of Attorney documents

WORKFLOW:
1. Review intake and master data
2. Identify missing fields
3. Auto-populate forms using create_oby_draft tool
4. Flag gaps for HAC review
5. Generate supporting documents (POAs)");
    ("comprehensive", basePrompt ++ "

COMPREHENSIVE AGENT

Provide end-to-end support for Polish citizenship applications. Integrate research, translation, writing, design, document review, task suggestion, and WSC strategy.");
    ("security_audit", "You are a security auditor for a Polish citizenship application platform.

OBJECTIVE:
Identify potential security vulnerabilities and risks in the system.

SCOPE:
- Review access controls and permissions
- Analyze data handling and storage practices
- Evaluate the security of edge functions and APIs
- Assess the risk of unauthorized access or data breaches

REPORT FORMAT:
- Summary of findings
- List of vulnerabilities with severity ratings (High, Medium, Low)
- Recommendations for remediation

CONTEXT:
- Tables with RLS enabled: [tables_with_rls]
- Sensitive tables: [sensitive_tables]
- Edge functions: [edge_functions]

Focus on RLS policies, data encryption, and input validation.");
    ("civil_acts_management", basePrompt ++ "

CIVIL ACTS MANAGEMENT AGENT

Manage and process civil acts (birth, marriage, death certificates) required for Polish citizenship applications.

AVAILABLE TOOLS:
- generate_civil_acts_request: Create civil acts application
- create_task: Create follow-up tasks

WORKFLOW:
1. Identify required civil acts
2. Generate Polish civil registry applications
3. Track submission status
4. Monitor response times");
    ("wsc_response_drafting", basePrompt ++ "

WSC RESPONSE DRAFTING AGENT

Draft strategic responses to WSC (Voivoda) letters based on case specifics and legal requirements.

AVAILABLE TOOLS:
- draft_wsc_response: Create response strategy (PUSH/NUDGE/SITDOWN)
- update_master_data: Update case notes
- create_task: Create follow-up actions

STRATEGIES:
- PUSH: Aggressive legal arguments, cite precedents
- NUDGE: Diplomatic inquiry, request clarification
- SITDOWN: Schedule in-person meeting

WORKFLOW:
1. Analyze WSC letter requirements
2. Select appropriate strategy
3. Draft key arguments
4. Create follow-up tasks");
    ("archive_request_management", basePrompt ++ "

ARCHIVE REQUEST MANAGEMENT AGENT

Generate and manage Polish archive document requests for missing birth/marriage/death certificates.

AVAILABLE TOOLS:
- generate_archive_request: Create archive search request
- create_task: Create follow-up tasks

WORKFLOW:
1. Identify missing documents
2. Determine appropriate Polish archive
3. Generate formal request letter in Polish
4. Track response times
5. Create follow-up tasks");
    ("translation_workflow", basePrompt ++ "

TRANSLATION WORKFLOW AGENT

Streamline the translation process for Polish citizenship documents. Coordinate with translators, review translations for accuracy, and manage translation costs.");
    ("analytics_report", basePrompt ++ "

ANALYTICS REPORT AGENT

Generate reports on key metrics related to Polish citizenship applications. Track application progress, identify bottlenecks, and measure team performance.");
    ("document_intelligence", basePrompt ++ "

DOCUMENT INTELLIGENCE AGENT

Analyze uploaded documents:
1. Document type identification
2. Completeness check
3. Quality assessment
4. Translation requirements
5. OCR accuracy validation
6. Next steps

Output Format:
📄 DOCUMENT TYPE: [type]
✅ COMPLETENESS: [%]
🔍 QUALITY: [excellent/good/poor]
🌐 LANGUAGE: [lang] - Translation: [yes/no]
📊 OCR CONFIDENCE: [%]
⚠️ ISSUES: [list]
🎯 NEXT STEPS:
  1. [action]
  2. [action]

Use tools to create tasks or trigger OCR.");
    ("auto_populate_forms", basePrompt ++ "

FORM AUTO-POPULATION AGENT

Intelligently populate forms using:
1. Master table data
2. OCR extracted data
3. Logical inference
4. Polish legal requirements

Output Format:
📋 FORM: [name]
📊 COMPLETION: [%]
✅ POPULATED: [count] fields
⚠️ MISSING: [list with reasons]
🔍 CONFIDENCE: [%]

💡 RECOMMENDATIONS:
- HAC review needed: [list]
- Missing docs: [list]
- Data concerns: [list]

Use update_master_data tool and create_task for HAC review.");
    ("eligibility_analysis", basePrompt ++ "

Analyze Polish citizenship eligibility by descent.
- Check ancestry line
- Verify critical dates
- Identify missing data
- Assess success likelihood
- Estimate timeline
- List required documents") ].

(** The validated request ([validation.data], line 187; the schema itself
    is declared outside this file): [caseId] and [conversationId] may be
    absent, [stream] has its default applied. *)
Module Request.
Record t : Type :=
  { caseId : option string;
    prompt : string;
    action : string;
    conversationId : option string;
    stream : bool }.
End Request.

Section WithRuntime.

(** [JSON.parse] on a string. *)
Variable JSON_parse : string -> JS.result value.

(** [JSON.parse(v)]: the argument is first converted to a string. *)
Definition JSON_parse_value (v : value) : JS.result value :=
  match ToString v with
  | inl e => inl e
  | inr s => JSON_parse s
  end.

(** *** The handlers of [executeSingleTool], one per [case] *)

Definition generate_poa_pdf (args : value) (userId : string) : prog handler_result :=
  try_catch
    (caseId <- lift (get args "caseId") ;;
     poaType <- lift (get args "poaType") ;;
     r <- await (FunctionsInvoke "generate-poa"
                   (VObj [("body", VObj [("caseId", caseId); ("poaType", poaType)])])) ;;
     match error r with
     | Some pdfError => Throw pdfError
     | None =>
         shown <- lift (ToString poaType) ;;
         let result :=
           {| success := true;
              message := check_mark ++ " POA (" ++ shown ++ ") generated";
              payload := [("pdfUrl", get_opt (data r) "pdfUrl")] |} in
         reason <- lift (get args "reason") ;;
         why <- lift (ToString (or_else reason (VStr ""))) ;;
         _ <- await (Insert "hac_logs"
                       (VObj [("case_id", caseId);
                              ("action_type", VStr "poa_generated");
                              ("action_details",
                               VStr ("AI auto-generated " ++ shown ++ " POA: " ++ why));
                              ("performed_by", VStr userId)])) ;;
         Ret result
     end)
    (fun e => Ret (failed e)).

Definition create_task (args : value) : prog handler_result :=
  try_catch
    (caseId <- lift (get args "caseId") ;;
     title <- lift (get args "title") ;;
     description <- lift (get args "description") ;;
     priority <- lift (get args "priority") ;;
     category <- lift (get args "category") ;;
     dueDate <- lift (get args "dueDate") ;;
     _ <- await (Insert "tasks"
                   (VObj [("case_id", caseId);
                          ("title", title);
                          ("description", or_else description (VStr ""));
                          ("priority", priority);
                          ("category", or_else category (VStr "general"));
                          ("due_date", or_else dueDate VNull);
                          ("status", VStr "pending")])) ;;
     shown <- lift (ToString title) ;;
     Ret (succeeded (check_mark ++ " Task created: " ++ shown)))
    (fun e => Ret (failed e)).

Definition trigger_ocr (args : value) : prog handler_result :=
  try_catch
    (documentId <- lift (get args "documentId") ;;
     expectedType <- lift (get args "expectedType") ;;
     _ <- await (FunctionsInvoke "ocr-document"
                   (VObj [("body", VObj [("documentId", documentId);
                                         ("expectedType", expectedType)])])) ;;
     Ret (succeeded (check_mark ++ " OCR triggered")))
    (fun e => Ret (failed e)).

Definition update_master_data (args : value) (userId : string) : prog handler_result :=
  try_catch
    (fields <- lift (get args "fields") ;;
     caseId <- lift (get args "caseId") ;;
     _ <- await (UpdateEq "master_table" fields "case_id" caseId) ;;
     keys <- lift (Object_keys fields) ;;
     let result :=
       succeeded (check_mark ++ " Updated " ++ nat_to_string (List.length keys) ++ " fields") in
     joined <- lift (join_with ", " (map VStr keys)) ;;
     reason <- lift (get args "reason") ;;
     why <- lift (ToString (or_else reason (VStr ""))) ;;
     _ <- await (Insert "hac_logs"
                   (VObj [("case_id", caseId);
                          ("action_type", VStr "master_data_updated");
                          ("action_details", VStr ("AI updated: " ++ joined ++ ". " ++ why));
                          ("performed_by", VStr userId);
                          ("metadata", VObj [("updated_fields", fields)])])) ;;
     Ret result)
    (fun e => Ret (failed e)).

Definition generate_archive_request (args : value) (userId : string)
  : prog handler_result :=
  try_catch
    (caseId <- lift (get args "caseId") ;;
     personType <- lift (get args "personType") ;;
     documentTypes <- lift (get args "documentTypes") ;;
     archiveLocation <- lift (get args "archiveLocation") ;;
     _ <- await (Insert "archive_searches"
                   (VObj [("case_id", caseId);
                          ("person_type", personType);
                          ("document_types", documentTypes);
                          ("archive_name", or_else archiveLocation (VStr "To be determined"));
                          ("search_type", VStr "international");
                          ("status", VStr "pending");
                          ("priority", VStr "medium")])) ;;
     person <- lift (ToString personType) ;;
     docs <- lift (call_join documentTypes "args.documentTypes.join" ", ") ;;
     let result :=
       succeeded (check_mark ++ " Archive request created for " ++ person ++ ": " ++ docs) in
     _ <- await (Insert "hac_logs"
                   (VObj [("case_id", caseId);
                          ("action_type", VStr "archive_request_created");
                          ("action_details",
                           VStr ("AI created archive request for " ++ person ++ " documents"));
                          ("performed_by", VStr userId)])) ;;
     Ret result)
    (fun e => Ret (failed e)).

Definition create_oby_draft (args : value) (userId : string) : prog handler_result :=
  try_catch
    (caseId <- lift (get args "caseId") ;;
     master <- await (SelectEqSingle "master_table" "*" "case_id" caseId) ;;
     let masterData := data master in
     if negb (truthy masterData) then Throw (Error "Master data not found")
     else
       existing <- await (SelectEqMaybeSingle "oby_forms" "*" "case_id" caseId) ;;
       let existingOby := data existing in
       autoPopulatedFields <- lift (get args "autoPopulatedFields") ;;
       let obyData :=
         VObj [("case_id", caseId);
               ("status", VStr "draft");
               ("form_data", masterData);
               ("auto_populated_fields", or_else autoPopulatedFields (VArr []));
               ("hac_approved", VBool false)] in
       _ <- (if truthy existingOby
             then id <- lift (get existingOby "id") ;;
                  await (UpdateEq "oby_forms" obyData "id" id)
             else await (Insert "oby_forms" obyData)) ;;
       let verb := if truthy existingOby then "updated" else "created" in
       count <- lift (ToString (or_else (get_opt autoPopulatedFields "length") (VNum 0))) ;;
       let result :=
         succeeded (check_mark ++ " OBY draft " ++ verb ++ " with " ++ count
                    ++ " auto-populated fields") in
       _ <- await (Insert "hac_logs"
                     (VObj [("case_id", caseId);
                            ("action_type", VStr "oby_draft_created");
                            ("action_details", VStr ("AI " ++ verb ++ " OBY draft skeleton"));
                            ("performed_by", VStr userId)])) ;;
       Ret result)
    (fun e => Ret (failed e)).

Definition draft_wsc_response (args : value) (userId : string) : prog handler_result :=
  try_catch
    (keyPoints <- lift (get args "keyPoints") ;;
     joined <- lift (if nullish keyPoints then ok VUndefined
                     else match call_join keyPoints "args.keyPoints.join" "; " with
                          | inl e => inl e
                          | inr s => ok (VStr s)
                          end) ;;
     strategyDetails <- lift (ToString (or_else joined (VStr "Strategy drafted by AI"))) ;;
     caseId <- lift (get args "caseId") ;;
     strategy <- lift (get args "strategy") ;;
     lowered <- lift (call_toLowerCase strategy "args.strategy.toLowerCase") ;;
     shown <- lift (ToString strategy) ;;
     wscLetterId <- lift (get args "wscLetterId") ;;
     _ <- await (Insert "hac_logs"
                   (VObj [("case_id", caseId);
                          ("action_type", VStr ("wsc_response_" ++ lowered));
                          ("action_details",
                           VStr ("AI drafted " ++ shown ++ " strategy: " ++ strategyDetails));
                          ("performed_by", VStr userId);
                          ("related_wsc_id", or_else wscLetterId VNull);
                          ("metadata", VObj [("strategy", strategy);
                                             ("key_points", keyPoints)])])) ;;
     _ <- (if truthy wscLetterId
           then _ <- await (UpdateEq "master_table"
                              (VObj [("family_notes",
                                      VStr ("WSC Strategy (" ++ shown ++ "): "
                                            ++ strategyDetails))])
                              "case_id" caseId) ;;
                Ret tt
           else Ret tt) ;;
     Ret (succeeded (check_mark ++ " WSC " ++ shown ++ " response strategy drafted")))
    (fun e => Ret (failed e)).

Definition generate_civil_acts_request (args : value) (userId : string)
  : prog handler_result :=
  try_catch
    (caseId <- lift (get args "caseId") ;;
     actType <- lift (get args "actType") ;;
     act <- lift (ToString actType) ;;
     personType <- lift (get args "personType") ;;
     person <- lift (ToString (or_else personType (VStr "applicant"))) ;;
     _ <- await (Insert "tasks"
                   (VObj [("case_id", caseId);
                          ("title", VStr ("Submit Polish " ++ act ++ " certificate application"));
                          ("description",
                           VStr ("AI-generated task: Apply for Polish civil " ++ act
                                 ++ " certificate for " ++ person));
                          ("priority", VStr "high");
                          ("category", VStr "civil_acts");
                          ("status", VStr "pending")])) ;;
     let result := succeeded (check_mark ++ " Civil acts " ++ act ++ " request created") in
     _ <- await (Insert "hac_logs"
                   (VObj [("case_id", caseId);
                          ("action_type", VStr "civil_acts_request");
                          ("action_details",
                           VStr ("AI created " ++ act ++ " certificate application task"));
                          ("performed_by", VStr userId)])) ;;
     Ret result)
    (fun e => Ret (failed e)).

(** The [switch (toolCall.function.name)], with [result] initialised to
    the unknown-tool answer. *)
Definition dispatch (toolName : value) (args : value) (userId : string)
  : prog handler_result :=
  match toolName with
  | VStr s =>
      if s =? "generate_poa_pdf" then generate_poa_pdf args userId
      else if s =? "create_task" then create_task args
      else if s =? "trigger_ocr" then trigger_ocr args
      else if s =? "update_master_data" then update_master_data args userId
      else if s =? "generate_archive_request" then generate_archive_request args userId
      else if s =? "create_oby_draft" then create_oby_draft args userId
      else if s =? "draft_wsc_response" then draft_wsc_response args userId
      else if s =? "generate_civil_acts_request" then generate_civil_acts_request args userId
      else Ret unknown_tool
  | _ => Ret unknown_tool
  end.

(** [toolCall.function.k] *)
Definition function_field (toolCall : value) (k : string) : JS.result value :=
  match get toolCall "function" with
  | inl e => inl e
  | inr f => get f k
  end.

(** [executeSingleTool(toolCall, caseId, supabase, userId)].  The handlers
    read the case from the parsed arguments; the [caseId] parameter is not
    used by the body. *)
Definition executeSingleTool (toolCall : value) (caseId : value) (userId : string)
  : prog ToolResult :=
  try_catch
    (arguments <- lift (function_field toolCall "arguments") ;;
     args <- lift (JSON_parse_value arguments) ;;
     toolName <- lift (function_field toolCall "name") ;;
     result <- dispatch toolName args userId ;;
     id <- lift (get toolCall "id") ;;
     name <- lift (function_field toolCall "name") ;;
     Ret {| tool_call_id := id; name := name; result := result |})
    (fun error =>
       id <- lift (get toolCall "id") ;;
       name <- lift (function_field toolCall "name") ;;
       Ret {| tool_call_id := id;
              name := name;
              result := {| success := false; message := JS.message error; payload := [] |} |}).

(** [executeToolsParallel(toolCalls, caseId, supabase, userId)]: the bodies
    of the calls run concurrently; [sched] is the order in which the event
    loop resumes them. *)
Definition executeToolsParallel (sched : list nat) (toolCalls : list value)
  (caseId : value) (userId : string) : prog (list ToolResult) :=
  Promise_all sched (map (fun toolCall => executeSingleTool toolCall caseId userId) toolCalls).

(** *** The stream relay (the [start] callback of the streamed reply) *)

(** What is enqueued on the output stream.  On the wire an event is the
    text [data: ] followed by [JSON.stringify] of [{ conversationId }],
    [{ delta }] or [{ toolResults }] (or by the literal [[DONE]]) and two
    newlines. *)
Inductive sse_event : Type :=
| EvConversationId (id : value)
| EvDelta (content : value)
| EvToolResults (rs : list ToolResult)
| EvDone.

Inductive stream_status : Type :=
| Readable
| Closed
| Errored (e : exn).

(** The output stream as seen through its controller: the events enqueued
    so far, in order, and whether the stream was closed or errored.  A
    stream that its consumer has cancelled is closed. *)
Record controller : Type := { enqueued : list sse_event; status : stream_status }.

(** The controller takes events while its stream is readable. *)
Definition writable (c : controller) : bool :=
  match status c with Readable => true | _ => false end.

Definition not_writable : exn :=
  TypeError "The stream controller cannot close or enqueue".

(** [controller.enqueue(ev)]: throws once the stream is closed or errored. *)
Definition enqueue (ev : sse_event) (c : controller) : JS.result controller :=
  if writable c
  then ok {| enqueued := (enqueued c ++ [ev])%list; status := status c |}
  else throw not_writable.

(** [controller.close()]: throws once the stream is closed or errored. *)
Definition close (c : controller) : JS.result controller :=
  if writable c
  then ok {| enqueued := enqueued c; status := Closed |}
  else throw not_writable.

(** [controller.error(e)]: does nothing once the stream is closed or
    errored. *)
Definition error_stream (e : exn) (c : controller) : controller :=
  if writable c
  then {| enqueued := enqueued c; status := Errored e |}
  else c.

(** The variables of the read loop: [buffer], [fullContent], [toolCalls],
    and the controller. *)
Record relay_state : Type :=
  { buffer : string;
    fullContent : string;
    toolCalls : list value;
    output : controller }.

Definition with_buffer (b : string) (st : relay_state) : relay_state :=
  {| buffer := b; fullContent := fullContent st; toolCalls := toolCalls st;
     output := output st |}.

(** [fullContent += content; controller.enqueue({ delta: content })]: the
    state these two statements leave.  The text is appended first; the event
    is enqueued when the stream takes it. *)
Definition forward (content : value) (text : string) (st : relay_state) : relay_state :=
  {| buffer := buffer st;
     fullContent := fullContent st ++ text;
     toolCalls := toolCalls st;
     output := match enqueue (EvDelta content) (output st) with
               | inr c => c
               | inl _ => output st
               end |}.

(** The body of [if (delta?.content)]: [inr] with the state reached when
    the two statements complete, [inl] with the state reached when one of
    them throws (the conversion of the content to a string, before anything
    is assigned, or [enqueue], after the text was appended). *)
Definition forward_content (content : value) (st : relay_state)
  : relay_state + relay_state :=
  match ToString content with
  | inl _ => inl st
  | inr text =>
      if writable (output st)
      then inr (forward content text st)
      else inl (forward content text st)
  end.

(** [toolCalls.push(...fragments)] *)
Definition push_tool_calls (fragments : list value) (st : relay_state) : relay_state :=
  {| buffer := buffer st;
     fullContent := fullContent st;
     toolCalls := (toolCalls st ++ fragments)%list;
     output := output st |}.

(** [JSON.parse(data).choices?.[0]?.delta] *)
Definition extract_delta (data : string) : JS.result value :=
  match JSON_parse data with
  | inl e => inl e
  | inr parsed =>
      match get parsed "choices" with
      | inl e => inl e
      | inr choices => ok (get_opt (get_index0_opt choices) "delta")
      end
  end.

(** The body of the [for (const line of lines)] loop.  Whatever is thrown
    inside the [try] is swallowed by the empty [catch], and the rest of the
    [try] is skipped; what was assigned before the throw stays assigned. *)
Definition processLine (line : string) (st : relay_state) : relay_state :=
  if negb (truthy (VStr (trim line))) || startsWith ":" line then st
  else if negb (startsWith "data: " line) then st
  else
    let data := trim (slice 6 line) in
    if data =? "[DONE]" then st
    else
      match extract_delta data with
      | inl _ => st
      | inr delta =>
          let content := get_opt delta "content" in
          match (if truthy content then forward_content content st else inr st) with
          | inl st1 => st1
          | inr st1 =>
              let fragments := get_opt delta "tool_calls" in
              if truthy fragments
              then match spread fragments with
                   | inl _ => st1
                   | inr xs => push_tool_calls xs st1
                   end
              else st1
          end
      end.

Definition processLines (lines : list string) (st : relay_state) : relay_state :=
  fold_left (fun s line => processLine line s) lines st.

(** One turn of the [while (true)] loop on a chunk that was read:
    [buffer += chunk; lines = buffer.split('\n'); buffer = lines.pop() || ''],
    then the loop over [lines]. *)
Definition processChunk (chunk : string) (st : relay_state) : relay_state :=
  let lines := split_nl (buffer st ++ chunk) in
  processLines (removelast lines) (with_buffer (last lines "") st).

(** The read loop on the chunks the reader delivers before [done]. *)
Definition readLoop (chunks : list string) (st : relay_state) : relay_state :=
  fold_left (fun s chunk => processChunk chunk s) chunks st.

(** The state when the loop is entered. *)
Definition relay_start (c : controller) : relay_state :=
  {| buffer := ""; fullContent := ""; toolCalls := []; output := c |}.

(** The rows written to [ai_conversation_messages]. *)
Definition message_rows (conversation : value) (prompt : string)
  (content : value) (tool_calls : value) : value :=
  VArr [VObj [("conversation_id", conversation);
              ("role", VStr "user");
              ("content", VStr prompt)];
        VObj [("conversation_id", conversation);
              ("role", VStr "assistant");
              ("content", content);
              ("tool_calls", tool_calls)]].

(** The controller of a stream that was just created. *)
Definition new_controller : controller := {| enqueued := []; status := Readable |}.


(** [start(controller)] of the streamed reply (lines 282-350), on the
    body of the model's reply and the controller [c0] it is handed: the
    handler hands it [new_controller].  (Nothing touches the controller of a
    conversation that is not new before the first chunk is read: for it, a
    consumer that goes away while the first chunk is awaited is [start] run
    on [cancelled].)  An [enqueue] outside the [try] that throws makes
    [start] reject, which errors the stream.  Whatever throws after the read
    loop (the insert of the messages, the execution of the tools, an [enqueue]
    on a stream that is no longer readable) does so before anything is
    enqueued after the loop, so [controller.error] finds the controller with
    exactly the events of the loop in it. *)
Definition streamStart (sched : list nat) (isNewConversation : bool)
  (activeConversationId caseId : value) (prompt userId : string)
  (reply : upstream) (c0 : controller) : prog controller :=
  match (if isNewConversation && truthy activeConversationId
         then enqueue (EvConversationId activeConversationId) c0
         else ok c0) with
  | inl e => Ret (error_stream e c0)
  | inr c1 =>
      let st := readLoop (chunks reply) (relay_start c1) in
      match failure reply with
      | Some e => Ret (error_stream e (output st))
      | None =>
          try_catch
            (_ <- (if truthy activeConversationId
                   then _ <- await (Insert "ai_conversation_messages"
                                      (message_rows activeConversationId prompt
                                         (VStr (fullContent st))
                                         (if (0 <? List.length (toolCalls st))%nat
                                          then VArr (toolCalls st) else VNull))) ;;
                        Ret tt
                   else Ret tt) ;;
             c2 <- (if (0 <? List.length (toolCalls st))%nat && truthy caseId
                    then toolResults <- executeToolsParallel sched (toolCalls st) caseId
                                          userId ;;
                         lift (enqueue (EvToolResults toolResults) (output st))
                    else Ret (output st)) ;;
             c3 <- lift (enqueue EvDone c2) ;;
             lift (close c3))
            (fun e => Ret (error_stream e (output st)))
      end
  end.

(** *** The request handler (the callback of [serve]) *)

(** [JSON.stringify(context, null, 2)] *)
Variable JSON_stringify_pretty : value -> string.

Fixpoint prompt_for (action : string) (table : list (string * string)) : option string :=
  match table with
  | [] => None
  | (k, p) :: rest => if k =? action then Some p else prompt_for action rest
  end.

(** [actionPrompts[action] || basePrompt] *)
Definition getSystemPrompt (action : string) : string :=
  match prompt_for action actionPrompts with
  | Some p => if p =? "" then basePrompt else p
  | None => basePrompt
  end.

(** [{ k1: d.k1, k2: d.k2, ... }] *)
Fixpoint pick (d : value) (keys : list string) : JS.result (list (string * value)) :=
  match keys with
  | [] => ok []
  | k :: keys' =>
      match get d k with
      | inl e => inl e
      | inr v =>
          match pick d keys' with
          | inl e => inl e
          | inr rest => ok ((k, v) :: rest)
          end
      end
  end.

Fixpoint map_values (f : value -> JS.result value) (xs : list value)
  : JS.result (list value) :=
  match xs with
  | [] => ok []
  | x :: xs' =>
      match f x with
      | inl e => inl e
      | inr y =>
          match map_values f xs' with
          | inl e => inl e
          | inr ys => ok (y :: ys)
          end
      end
  end.

(** [v.map(f)]: only arrays have the method. *)
Definition call_map (v : value) (what : string) (f : value -> JS.result value)
  : JS.result (list value) :=
  match v with
  | VUndefined | VNull =>
      match get v "map" with inl e => inl e | inr _ => throw (not_a_function what) end
  | VArr xs => map_values f xs
  | _ => throw (not_a_function what)
  end.

(** [caseData.k?.map(d => pick d keys) || []] *)
Definition summaries (caseData : value) (k : string) (keys : list string)
  : JS.result value :=
  match get caseData k with
  | inl e => inl e
  | inr rows =>
      if nullish rows then ok (VArr [])
      else
        match call_map rows ("caseData." ++ k ++ ".map")
                (fun d => match pick d keys with
                          | inl e => inl e
                          | inr props => ok (VObj props)
                          end) with
        | inl e => inl e
        | inr ys => ok (or_else (VArr ys) (VArr []))
        end
  end.

(** [caseData.k?.[0] || null] *)
Definition first_or_null (caseData : value) (k : string) : JS.result value :=
  match get caseData k with
  | inl e => inl e
  | inr rows => ok (or_else (get_index0_opt rows) VNull)
  end.

Definition when (b : bool) (r : JS.result (list (string * value)))
  : JS.result (list (string * value)) :=
  if b then r else ok [].

Definition buildAgentContext (caseData : value) (action : string) : JS.result value :=
  if action =? "security_audit" then
    ok (VObj [("system_audit", VBool true);
              ("tables_with_rls",
               strs ["cases"; "intake_data"; "master_table"; "documents"; "tasks"]);
              ("sensitive_tables", strs ["master_table"; "intake_data"; "poa"; "documents"]);
              ("edge_functions", strs ["ai-agent"; "generate-poa"; "fill-pdf"; "ocr-passport"])])
  else if negb (truthy caseData) then throw (Error "Case data required")
  else
    (base <~ pick caseData ["client_name"; "client_code"; "status"; "current_stage";
                            "processing_mode"; "country"] ;;
     profile <~ when (includes ["eligibility_analysis"; "comprehensive"; "auto_populate_forms"]
                        action)
                  (intake <~ first_or_null caseData "intake_data" ;;
                   master <~ first_or_null caseData "master_table" ;;
                   ok [("intake", intake); ("master_data", master)]) ;;
     documents <~ when (includes ["document_check"; "comprehensive"; "document_intelligence"]
                          action)
                    (docs <~ summaries caseData "documents"
                               ["id"; "name"; "type"; "category"; "person_type";
                                "is_verified"; "needs_translation"; "ocr_data"] ;;
                     ok [("documents", docs)]) ;;
     tasks <~ when (includes ["task_suggest"; "comprehensive"] action)
                (ts <~ summaries caseData "tasks" ["title"; "status"; "priority"; "due_date"] ;;
                 ok [("tasks", ts)]) ;;
     letters <~ when (includes ["wsc_strategy"; "comprehensive"] action)
                  (ws <~ summaries caseData "wsc_letters"
                           ["letter_date"; "deadline"; "reference_number"; "strategy"] ;;
                   ok [("wsc_letters", ws)]) ;;
     tasks_total <~ get caseData "kpi_tasks_total" ;;
     tasks_completed <~ get caseData "kpi_tasks_completed" ;;
     docs_percentage <~ get caseData "kpi_docs_percentage" ;;
     poa_approved <~ get caseData "poa_approved" ;;
     ok (VObj (base ++ profile ++ documents ++ tasks ++ letters
               ++ [("kpi", VObj [("tasks_total", tasks_total);
                                 ("tasks_completed", tasks_completed);
                                 ("docs_percentage", docs_percentage);
                                 ("poa_approved", poa_approved)])])%list))%js.

Definition optional (o : option string) : value :=
  match o with Some s => VStr s | None => VUndefined end.

(** What the handler answers. *)
Inductive http_reply : Type :=
| JsonReply (response conversationId : value) (toolResults : list ToolResult)
| ErrorReply (msg : string) (status : Z)
| StreamReply (c : controller).

(** [m => ({ role: m.role, content: m.content,
              ...(m.tool_calls && { tool_calls: m.tool_calls }) })] *)
Definition replay (m : value) : JS.result value :=
  (role <~ get m "role" ;;
   content <~ get m "content" ;;
   tool_calls <~ get m "tool_calls" ;;
   ok (VObj ([("role", role); ("content", content)]
             ++ (if truthy tool_calls then [("tool_calls", tool_calls)] else []))%list))%js.

Definition conversationHistory (action : string) (conversationMessages context : value)
  (prompt : string) : JS.result (list value) :=
  match call_map conversationMessages "conversationMessages.map" replay with
  | inl e => inl e
  | inr replayed =>
      ok ([VObj [("role", VStr "system"); ("content", VStr (getSystemPrompt action))]]
          ++ replayed
          ++ [VObj [("role", VStr "user");
                    ("content",
                     VStr ("Case Context:" ++ String newline (JSON_stringify_pretty context)
                           ++ String newline (String newline "User Request: ") ++ prompt))]])%list
  end.

Definition toolEnabledActions : list string :=
  ["researcher"; "comprehensive"; "document_intelligence"; "auto_populate_forms";
   "task_suggest"].

Definition aiRequestBody (action : string) (history : list value) (stream : bool) : value :=
  VObj ([("model", VStr "google/gemini-2.5-flash");
         ("messages", VArr history);
         ("stream", VBool stream)]
        ++ (if includes toolEnabledActions action
            then [("tools", VArr AGENT_TOOLS); ("tool_choice", VStr "auto")]
            else []))%list.

Definition gateway : string := "https://ai.gateway.lovable.dev/v1/chat/completions".

Definition cases_select : string :=
  "*, intake_data(*), master_table(*), documents(*), tasks(*), poa(*), oby_forms(*), wsc_letters(*)".

(** [Number(s)] for a string, on integer literals. *)
Definition string_to_number (s : string) : option Z :=
  match trim s with
  | EmptyString => Some 0%Z
  | String c r =>
      let digits (d : string) : option Z :=
        match d with
        | EmptyString => None
        | _ => match Json.read_digits d 0 with
               | (n, EmptyString) => Some n
               | _ => None
               end
        end in
      if Ascii.eqb c "-"%char then option_map Z.opp (digits r)
      else if Ascii.eqb c "+"%char then digits r
      else digits (String c r)
  end.

(** [v > 0] *)
Definition gt_zero (v : value) : JS.result bool :=
  match v with
  | VUndefined => ok false
  | VNull => ok false
  | VBool b => ok b
  | VNum n => ok (0 <? n)%Z
  | _ =>
      match ToString v with
      | inl e => inl e
      | inr s => ok (match string_to_number s with
                     | Some n => (0 <? n)%Z
                     | None => false
                     end)
      end
  end.

(** [v.substring(0, n)]: only strings have the method. *)
Definition call_substring (v : value) (what : string) (n : nat) : JS.result string :=
  match v with
  | VUndefined | VNull =>
      match get v "substring" with inl e => inl e | inr _ => throw (not_a_function what) end
  | VStr s => ok (take n s)
  | _ => throw (not_a_function what)
  end.

(** The audit entry of the request (lines 402-412). *)
Definition request_log (caseId : value) (action prompt userId preview : string)
  (conversation tools_used : value) : value :=
  VObj [("case_id", caseId);
        ("action_type", VStr ("ai_agent_" ++ action));
        ("action_details", VStr prompt);
        ("performed_by", VStr userId);
        ("metadata", VObj [("response_preview", VStr preview);
                           ("conversation_id", conversation);
                           ("tools_used", tools_used)])].

(** [data.choices[0].message] *)
Definition completion_message (completion : value) : JS.result value :=
  (choices <~ get completion "choices" ;;
   choice <~ get_index0 choices ;;
   get choice "message")%js.

(** The non-streaming reply, from the completion object on (lines 377-419). *)
Definition respond (sched : list nat) (activeConversationId caseId : value)
  (action prompt userId : string) (completion : value) : prog http_reply :=
  message <- lift (completion_message completion) ;;
  responseContent <- lift (get message "content") ;;
  toolCalls <- lift (get message "tool_calls") ;;
  _ <- (if truthy activeConversationId
        then _ <- await (Insert "ai_conversation_messages"
                           (message_rows activeConversationId prompt responseContent
                              (or_else toolCalls VNull))) ;;
             Ret tt
        else Ret tt) ;;
  wanted <- lift (if truthy toolCalls
                  then (len <~ get toolCalls "length" ;;
                        positive <~ gt_zero len ;;
                        ok (positive && truthy caseId))%js
                  else ok false) ;;
  toolResults <- (if wanted : bool
                  then match toolCalls with
                       | VArr calls => executeToolsParallel sched calls caseId userId
                       | _ => Throw (not_a_function "toolCalls.map")
                       end
                  else Ret []) ;;
  _ <- (if truthy caseId
        then preview <- lift (call_substring responseContent "responseContent.substring" 500) ;;
             _ <- await (Insert "hac_logs"
                           (request_log caseId action prompt userId preview
                              activeConversationId
                              (or_else (get_opt toolCalls "length") (VNum 0)))) ;;
             Ret tt
        else Ret tt) ;;
  Ret (JsonReply responseContent activeConversationId toolResults).

(** The handler, from the validated request on (lines 187-424). *)
Definition handle (sched : list nat) (req : Request.t) (userId : string) : prog http_reply :=
  let caseId := optional (Request.caseId req) in
  let prompt := Request.prompt req in
  let action := Request.action req in
  let conversationId := optional (Request.conversationId req) in
  let stream := Request.stream req in
  try_catch
    (conversation <-
       (if negb (truthy conversationId) && truthy caseId
        then created <- await (InsertSelectSingle "ai_conversations"
                                 (VObj [("case_id", caseId); ("agent_type", VStr action)])) ;;
             Ret (get_opt (data created) "id", true)
        else Ret (conversationId, false)) ;;
     let activeConversationId := fst conversation in
     let isNewConversation := snd conversation in
     conversationMessages <-
       (if truthy activeConversationId
        then found <- await (SelectEqOrderLimit "ai_conversation_messages"
                               "role, content, tool_calls"
                               "conversation_id" activeConversationId "created_at" 20) ;;
             Ret (or_else (data found) (VArr []))
        else Ret (VArr [])) ;;
     context <-
       (if action =? "security_audit" then lift (buildAgentContext VNull action)
        else if truthy caseId
        then found <- await (SelectEqSingle "cases" cases_select "id" caseId) ;;
             match error found with
             | Some caseError =>
                 Throw (Error ("Failed to fetch case: " ++ JS.message caseError))
             | None => lift (buildAgentContext (data found) action)
             end
        else Ret (VObj [])) ;;
     history <- lift (conversationHistory action conversationMessages context prompt) ;;
     let request := aiRequestBody action history stream in
     if stream
     then aiResponse <- await_fetch gateway request ;;
          if negb (resp_ok aiResponse)
          then Throw (Error ("AI Gateway error: " ++ Z_to_string (Async.status aiResponse)))
          else c <- streamStart sched isNewConversation activeConversationId caseId prompt
                      userId (body aiResponse) new_controller ;;
               Ret (StreamReply c)
     else aiResponse <- await_fetch gateway request ;;
          if negb (resp_ok aiResponse)
          then Throw (Error ("AI Gateway error: " ++ Z_to_string (Async.status aiResponse)))
          else completion <- lift (json aiResponse) ;;
               respond sched activeConversationId caseId action prompt userId completion)
    (fun e =>
       Ret (ErrorReply (if JS.message e =? "" then "Unknown error" else JS.message e) 500)).

End WithRuntime.

End Agent.

(* ===================================================================== *)
(** ** A reference backend *)
(* ===================================================================== *)

(** The database, the edge functions and the model gateway are external to
    the repository.  This module gives them a reference behaviour, used to
    run the agent on concrete requests and to state what the tools leave in
    the tables: a table is the list of its rows in insertion order; [insert]
    appends, giving a fresh [id] to a row that has none; [update ... eq]
    patches the matching rows; [single] and [maybeSingle] answer as PostgREST
    does (one row or an error, resp. one row, none, or an error). *)
Module Store.
Import JS Async.

Fixpoint value_eqb (a b : value) : bool :=
  match a, b with
  | VUndefined, VUndefined => true
  | VNull, VNull => true
  | VBool x, VBool y => Bool.eqb x y
  | VNum x, VNum y => (x =? y)%Z
  | VStr x, VStr y => (x =? y)
  | VArr xs, VArr ys =>
      (fix all2 (l1 l2 : list value) : bool :=
         match l1, l2 with
         | [], [] => true
         | x :: l1', y :: l2' => value_eqb x y && all2 l1' l2'
         | _, _ => false
         end) xs ys
  | VObj ps, VObj qs =>
      (fix all2 (l1 l2 : list (string * value)) : bool :=
         match l1, l2 with
         | [], [] => true
         | (k, x) :: l1', (k', y) :: l2' => (k =? k') && value_eqb x y && all2 l1' l2'
         | _, _ => false
         end) ps qs
  | _, _ => false
  end.

Record db : Type := { tables : list (string * list value); next_id : Z }.

Fixpoint rows_in (table : string) (ts : list (string * list value)) : list value :=
  match ts with
  | [] => []
  | (t, rows) :: ts' => if t =? table then rows else rows_in table ts'
  end.

Definition rows (table : string) (d : db) : list value := rows_in table (tables d).

Fixpoint set_rows_in (table : string) (new : list value) (ts : list (string * list value))
  : list (string * list value) :=
  match ts with
  | [] => [(table, new)]
  | (t, old) :: ts' =>
      if t =? table then (t, new) :: ts' else (t, old) :: set_rows_in table new ts'
  end.

Definition set_rows (table : string) (new : list value) (d : db) : db :=
  {| tables := set_rows_in table new (tables d); next_id := next_id d |}.

(** [.eq(col, v)] *)
Definition matches (col : string) (v : value) (row : value) : bool :=
  value_eqb (get_opt row col) v.

(** An absent property is not sent. *)
Definition sent (props : list (string * value)) : list (string * value) :=
  filter (fun kv => match snd kv with VUndefined => false | _ => true end) props.

Definition stored (id : Z) (row : value) : value :=
  match row with
  | VObj props =>
      if has_own "id" (sent props) then VObj (sent props)
      else VObj (("id", VNum id) :: sent props)
  | _ => row
  end.

Definition insert_row (table : string) (row : value) (d : db) : db :=
  {| tables := set_rows_in table (rows table d ++ [stored (next_id d) row])%list (tables d);
     next_id := next_id d + 1 |}.

Definition insert_rows (table : string) (v : value) (d : db) : db :=
  match v with
  | VArr rs => fold_left (fun d' r => insert_row table r d') rs d
  | _ => insert_row table v d
  end.

Definition patched (patch : value) (row : value) : value :=
  match patch, row with
  | VObj ps, VObj props =>
      VObj (fold_left (fun acc kv => Json.set_prop (fst kv) (snd kv) acc) (sent ps) props)
  | _, _ => row
  end.

Definition update_rows (table : string) (patch : value) (col : string) (v : value) (d : db)
  : db :=
  set_rows table
    (map (fun row => if matches col v row then patched patch row else row) (rows table d)) d.

Definition no_single_row : exn :=
  Error "JSON object requested, multiple (or no) rows returned".

Definition answer (v : value) : JS.result pg_response := ok {| data := v; error := None |}.

Definition refuse (e : exn) : JS.result pg_response :=
  ok {| data := VNull; error := Some e |}.

Definition on_op (functions : string -> value -> JS.result pg_response)
  (op : supabase_op) (d : db) : JS.result pg_response * db :=
  match op with
  | FunctionsInvoke fn body => (functions fn body, d)
  | Insert table v => (answer VNull, insert_rows table v d)
  | InsertSelectSingle table row =>
      (answer (stored (next_id d) row), insert_row table row d)
  | UpdateEq table patch col v => (answer VNull, update_rows table patch col v d)
  | SelectEqSingle table _ col v =>
      (match filter (matches col v) (rows table d) with
       | [row] => answer row
       | _ => refuse no_single_row
       end, d)
  | SelectEqMaybeSingle table _ col v =>
      (match filter (matches col v) (rows table d) with
       | [] => answer VNull
       | [row] => answer row
       | _ => refuse no_single_row
       end, d)
  | SelectEqOrderLimit table _ col v _ limit =>
      (answer (VArr (firstn (Z.to_nat limit) (filter (matches col v) (rows table d)))), d)
  end.

(** The backend in which the edge functions answer by [functions] and the
    model gateway by [reply]. *)
Definition backend (functions : string -> value -> JS.result pg_response)
  (reply : JS.result http_response) : world db :=
  {| on_supabase := on_op functions;
     on_fetch := fun _ _ d => (reply, d) |}.


Definition empty : db := {| tables := []; next_id := 1 |}.

End Store.


(* ===================================================================== *)
(** ** Notions used to state the properties *)
(* ===================================================================== *)

Import JS Async Agent.

(** *** Texts, lines and chunks *)

(** A line: a text without a newline. *)
Fixpoint is_line (s : string) : bool :=
  match s with
  | EmptyString => true
  | String c r => negb (Ascii.eqb c newline) && is_line r
  end.

(** The text of a sequence of lines, each ended by a newline. *)
Fixpoint unlines (lines : list string) : string :=
  match lines with
  | [] => ""
  | l :: rest => l ++ String newline (unlines rest)
  end.

(** The in-order concatenation of a list of strings. *)
Definition concatenation (l : list string) : string := fold_right String.append "" l.

(** The whole text delivered by a sequence of chunks. *)
Definition stream_text (chunks : list string) : string := concatenation chunks.

(** The same text delivered a complete line at a time; what follows the
    last newline comes as a last chunk. *)
Definition whole_lines (text : string) : list string :=
  (map (fun l => (l ++ String newline "")%string) (removelast (split_nl text))
   ++ [last (split_nl text) ""])%list.

(** What the relay has done once the text [buffer ++ text] has gone by:
    every line ended by a newline was processed, in order, and what follows
    the last newline waits in the buffer. *)
Definition relay_after (JSON_parse : string -> JS.result value) (text : string)
  (st : relay_state) : relay_state :=
  let lines := split_nl (buffer st ++ text) in
  processLines JSON_parse (removelast lines) (with_buffer (last lines "") st).


(** *** Executions *)

(** [sat p P]: however the backend answers, [p] settles, and the answers it
    received together with what it settles to satisfy [P]. *)
Fixpoint sat {A} (p : prog A) (P : list obs -> JS.result A -> Prop) : Prop :=
  match p with
  | Ret a => P [] (inr a)
  | Throw e => P [] (inl e)
  | Supabase op k => forall x, sat (k x) (fun t r => P (ObsSupabase op x :: t) r)
  | Fetch url init k => forall x, sat (k x) (fun t r => P (ObsFetch url init x :: t) r)
  end.

(** [shuffle ts t]: the trace [t] is an interleaving of the traces [ts]. *)
Inductive shuffle : list (list obs) -> list obs -> Prop :=
| shuffle_done (ts : list (list obs)) :
    Forall (fun ti => ti = []) ts -> shuffle ts []
| shuffle_step (i : nat) (o : obs) (ti : list obs) (ts : list (list obs)) (t : list obs) :
    nth_error ts i = Some (o :: ti) ->
    shuffle (replace_nth i ti ts) t ->
    shuffle ts (o :: t).

Arguments shuffle_done : clear implicits.
Arguments shuffle_step : clear implicits.

(** The error of the first call of the trace that was rejected. *)
Fixpoint rejection (t : list obs) : option exn :=
  match t with
  | [] => None
  | ObsSupabase _ (inl e) :: _ | ObsFetch _ _ (inl e) :: _ => Some e
  | _ :: t' => rejection t'
  end.

(** A body awaits strictly when a rejected call makes it throw the error
    of the rejection. *)
Definition strict {A} (p : prog A) : Prop :=
  sat p (fun t r => forall e, rejection t = Some e -> r = inl e).

(** *** Tool calls *)

(** A tool call carries a [function] member.  (Of a value without one,
    [executeSingleTool] cannot even name the tool.) *)
Definition callable (toolCall : value) : bool :=
  negb (nullish (get_opt toolCall "function")).

Definition call_id (toolCall : value) : value := get_opt toolCall "id".

Definition call_name (toolCall : value) : value :=
  get_opt (get_opt toolCall "function") "name".

Definition call_arguments (toolCall : value) : value :=
  get_opt (get_opt toolCall "function") "arguments".

(** The result is labelled with the identifier and the name of the call. *)
Definition labelled (toolCall : value) (r : ToolResult) : Prop :=
  tool_call_id r = call_id toolCall /\ name r = call_name toolCall.

(** What the outer [catch] of [executeSingleTool] leaves in [result]:
    [{ success: false, message: error.message }]. *)
Definition not_run (e : exn) : handler_result :=
  {| success := false; message := JS.message e; payload := [] |}.

(** The answers a body received and what it settled to. *)
Definition executed {A} (p : prog A) (o : list obs * JS.result A) : Prop :=
  exec p (fst o) (snd o).

(** What a pool settles to: to each body the answers it received and its
    outcome; the trace of the pool is an interleaving of those of the
    bodies. *)
Definition pool_outcome {A} (pool : list (prog A)) (t : list obs)
  (r : JS.result (list (JS.result A))) : Prop :=
  exists outs : list (list obs * JS.result A),
    r = inr (map snd outs)
    /\ shuffle (map fst outs) t
    /\ Forall2 executed pool outs.


Section ToolNotions.

Variable JSON_parse : string -> JS.result value.

(** [r] is what [toolCall] alone produces when its backend calls are
    answered as in [ti].  When [JSON.parse] throws [e] on the arguments, no
    backend call is made and the result is the failure with the message of
    [e]; when a backend call is rejected with [e], the result is the failure
    with the message [Failed: ] followed by the message of [e]. *)
Definition isolated_result (caseId : value) (userId : string)
  (toolCall : value) (ti : list obs) (r : ToolResult) : Prop :=
  exec (executeSingleTool JSON_parse toolCall caseId userId) ti (inr r)
  /\ (forall e, JSON_parse_value JSON_parse (call_arguments toolCall) = inl e ->
                ti = [] /\ result r = not_run e)
  /\ (forall e, rejection ti = Some e -> result r = failed e).

End ToolNotions.

(** The name is one of those the registry advertises. *)
Definition registered (toolName : value) : bool :=
  match toolName with
  | VStr s => includes registered_names s
  | _ => false
  end.

(** *** The streamed reply and the conversation store *)

(** The content deltas enqueued on the output stream, in order. *)
Definition forwarded (c : controller) : list value :=
  flat_map (fun ev => match ev with EvDelta content => [content] | _ => [] end)
    (enqueued c).

(** The text of a delta: the string itself, or what [+=] makes of a value
    that is not a string. *)
Definition text_of (v : value) : string :=
  match ToString v with inr s => s | inl _ => "" end.

(** [parsed.choices?.[0]?.delta] of a parsed record. *)
Definition delta_of (parsed : value) : value :=
  get_opt (get_index0_opt (get_opt parsed "choices")) "delta".

(** The lines of a text that are ended by a newline. *)
Definition complete_lines (text : string) : list string := removelast (split_nl text).

(** The inserts made into a table, in order. *)
Definition inserts_into (table : string) (t : list obs) : list value :=
  flat_map (fun o => match o with
                     | ObsSupabase (Insert table' rows) _ =>
                         if table' =? table then [rows] else []
                     | _ => []
                     end) t.

(** What was written to the conversation store. *)
Definition saved_messages (t : list obs) : list value :=
  inserts_into "ai_conversation_messages" t.

(** A call that does not write to the conversation store. *)
Definition off_store (o : obs) : bool :=
  match o with
  | ObsSupabase (Insert table _) _ => negb (table =? "ai_conversation_messages")
  | _ => true
  end.

(** The audit entry of a request: a row of [hac_logs] whose action type
    begins with [ai_agent_]. *)
Definition is_request_log (row : value) : bool :=
  match get_opt row "action_type" with
  | VStr s => String.prefix "ai_agent_" s
  | _ => false
  end.

(** The audit entries of requests written, in order. *)
Definition request_logs (t : list obs) : list value :=
  filter is_request_log (inserts_into "hac_logs" t).

(** A call that does not write the audit entry of a request. *)
Definition off_log (o : obs) : bool :=
  match o with
  | ObsSupabase (Insert table row) _ => negb ((table =? "hac_logs") && is_request_log row)
  | _ => true
  end.

(** A body all of whose backend calls satisfy [ok]. *)
Definition calm {A} (ok : obs -> bool) (p : prog A) : Prop :=
  sat p (fun t _ => forallb ok t = true).

Section StreamNotions.

Variable JSON_parse : string -> JS.result value.

(** The content fragment of a line of the upstream, read off the format of
    the records and not off the loop: a [data: ] line that is not the
    sentinel and whose payload is the JSON of a record carries the
    [choices[0].delta.content] of that record, when there is one (a truthy
    value that has a text); no other line carries a fragment. *)
Definition fragment_of (line : string) : list value :=
  if startsWith "data: " line && negb (trim (slice 6 line) =? "[DONE]")
  then match JSON_parse (trim (slice 6 line)) with
       | inl _ => []
       | inr parsed =>
           let content := get_opt (delta_of parsed) "content" in
           if negb (nullish parsed) && truthy content
           then match ToString content with
                | inl _ => []
                | inr _ => [content]
                end
           else []
       end
  else [].

(** The content fragments of the upstream, in arrival order. *)
Definition extracted (chunks : list string) : list value :=
  flat_map fragment_of (complete_lines (stream_text chunks)).

(** The stream when the read loop is entered. *)
Definition opened (isNewConversation : bool) (activeConversationId : value) : controller :=
  {| enqueued := if isNewConversation && truthy activeConversationId
                 then [EvConversationId activeConversationId] else [];
     status := Readable |}.

(** The variables of the read loop when the upstream has been read to its
    end. *)
Definition stream_end (isNewConversation : bool) (activeConversationId : value)
  (reply : upstream) : relay_state :=
  readLoop JSON_parse (chunks reply)
    (relay_start (opened isNewConversation activeConversationId)).

(** The two rows the streamed reply writes: the prompt, and the content and
    the tool calls accumulated by the loop. *)
Definition streamed_rows (isNewConversation : bool) (activeConversationId : value)
  (prompt : string) (reply : upstream) : value :=
  let st := stream_end isNewConversation activeConversationId reply in
  message_rows activeConversationId prompt (VStr (fullContent st))
    (if (0 <? List.length (toolCalls st))%nat then VArr (toolCalls st) else VNull).

End StreamNotions.

(** At most one insert into the conversation store, and then of the two
    rows of an exchange that begins with [prompt]. *)
Definition one_exchange (prompt : string) (saved : list value) : Prop :=
  saved = []
  \/ exists conversation content tool_calls,
       saved = [message_rows conversation prompt content tool_calls].

(** The two rows the non-streaming reply writes. *)
Definition replied_rows (activeConversationId : value) (prompt : string) (message : value)
  : value :=
  message_rows activeConversationId prompt (get_opt message "content")
    (or_else (get_opt message "tool_calls") VNull).

(** *** Concrete inputs *)

(** A tool call as the model emits it. *)
Definition tool_call (id name arguments : string) : value :=
  VObj [("id", VStr id);
        ("type", VStr "function");
        ("function", VObj [("name", VStr name); ("arguments", VStr arguments)])].

(** Edge functions that answer with an artifact reference. *)
Definition functions_ok (fn : string) (body : value) : JS.result pg_response :=
  Store.answer (VObj [("pdfUrl", VStr "https://files.example/poa.pdf")]).

(** A batch of three calls: a well-formed one, one whose arguments were cut
    short, one that names no registered tool. *)
Definition example_batch : list value :=
  [ tool_call "call_1" "create_task"
      (Json.js "{'caseId':'C1','title':'Collect passport','priority':'high'}");
    tool_call "call_2" "create_task" (Json.js "{'caseId':'C1','title':'Coll");
    tool_call "call_3" "archive_case" "{}" ].

(** An upstream line that carries a content delta. *)
Definition delta_line (text : string) : string :=
  Json.js ("data: {'choices':[{'delta':{'content':'" ++ text ++ "'}}]}").

(** The sentinel line. *)
Definition done_line : string := "data: [DONE]".

(** A line that is cut short. *)
Definition broken_line : string := Json.js "data: {'choices':[{'delta':{'cont".

(** The gateway answers with a stream of chunks. *)
Definition streamed (chunks : list string) : JS.result http_response :=
  inr {| resp_ok := true; Async.status := 200;
         json := inl (SyntaxError "Unexpected token 'd', is not valid JSON");
         body := {| chunks := chunks; failure := None |} |}.

(** The gateway answers with a completion object. *)
Definition completed (completion : value) : JS.result http_response :=
  inr {| resp_ok := true; Async.status := 200;
         json := inr completion;
         body := {| chunks := []; failure := None |} |}.

Definition completion_of (content : string) : value :=
  VObj [("choices",
         VArr [VObj [("message", VObj [("role", VStr "assistant");
                                       ("content", VStr content)])]])].

(** A database with one case. *)
Definition case_store : Store.db :=
  {| Store.tables :=
       [("cases", [VObj [("id", VStr "C1");
                         ("client_name", VStr "Jan Kowalski");
                         ("status", VStr "active")]])];
     Store.next_id := 1 |}.

(** A request about that case. *)
Definition case_request (stream : bool) : Request.t :=
  {| Request.caseId := Some "C1";
     Request.prompt := "Is the client eligible?";
     Request.action := "eligibility_analysis";
     Request.conversationId := None;
     Request.stream := stream |}.

(** A request without a case. *)
Definition audit_request : Request.t :=
  {| Request.caseId := None;
     Request.prompt := "List the risks";
     Request.action := "security_audit";
     Request.conversationId := None;
     Request.stream := false |}.

(** A gateway that is down. *)
Definition no_model : JS.result http_response := inl (Error "fetch failed").

(** *** Drafts in the reference store *)







(** [obyData] *)
Definition draft_row (cid masterData autoPopulatedFields : value) : value :=
  VObj [("case_id", cid);
        ("status", VStr "draft");
        ("form_data", masterData);
        ("auto_populated_fields", or_else autoPopulatedFields (VArr []));
        ("hac_approved", VBool false)].


(** The writes made to a table, in order. *)
Definition writes_to (table : string) (t : list obs) : list supabase_op :=
  flat_map (fun o => match o with
                     | ObsSupabase (Insert table' rows) _ =>
                         if table' =? table then [Insert table' rows] else []
                     | ObsSupabase (InsertSelectSingle table' row) _ =>
                         if table' =? table then [InsertSelectSingle table' row] else []
                     | ObsSupabase (UpdateEq table' patch col v) _ =>
                         if table' =? table then [UpdateEq table' patch col v] else []
                     | _ => []
                     end) t.


Section DraftNotions.

Variable JSON_parse : string -> JS.result value.



End DraftNotions.

(** The state in which a run ends, and what the program settles to. *)
Definition final {S A} (w : world S) (p : prog A) (s : S) : S := snd (fst (run w p s)).

Definition outcome {S A} (w : world S) (p : prog A) (s : S) : JS.result A :=
  fst (fst (run w p s)).

(** The calls made in a run, as they were answered. *)
Definition trace {S A} (w : world S) (p : prog A) (s : S) : list obs := snd (run w p s).

(** A database in which case C1 has its master record and no draft. *)
Definition master_store : Store.db :=
  {| Store.tables :=
       [("master_table", [VObj [("id", VNum 1);
                                ("case_id", VStr "C1");
                                ("applicant_first_name", VStr "Jan")]])];
     Store.next_id := 2 |}.

Definition draft_call_1 : value :=
  tool_call "call_1" "create_oby_draft"
    (Json.js "{'caseId':'C1','autoPopulatedFields':['applicant_first_name']}").

Definition draft_call_2 : value :=
  tool_call "call_2" "create_oby_draft" (Json.js "{'caseId':'C1'}").

(* ===================================================================== *)
(** ** Notions used to state further properties of [index.ts] *)
(* ===================================================================== *)

(** *** The read loop *)

(** [st'] continues [st]: content deltas were enqueued and nothing else was
    done to the stream; their text was appended to [fullContent]; tool-call
    fragments were appended to [toolCalls]. *)
Definition continues (st st' : relay_state) : Prop :=
  exists (ds fs : list value),
    enqueued (output st') = (enqueued (output st) ++ map EvDelta ds)%list
    /\ Agent.status (output st') = Agent.status (output st)
    /\ fullContent st' = fullContent st ++ concatenation (map text_of ds)
    /\ toolCalls st' = (toolCalls st ++ fs)%list.

(** *** The context and the history sent to the model *)

(** The keys of the context object of a case, in the order they are set. *)
Definition context_keys (action : string) : list string :=
  (["client_name"; "client_code"; "status"; "current_stage"; "processing_mode"; "country"]
   ++ (if includes ["eligibility_analysis"; "comprehensive"; "auto_populate_forms"] action
       then ["intake"; "master_data"] else [])
   ++ (if includes ["document_check"; "comprehensive"; "document_intelligence"] action
       then ["documents"] else [])
   ++ (if includes ["task_suggest"; "comprehensive"] action then ["tasks"] else [])
   ++ (if includes ["wsc_strategy"; "comprehensive"] action then ["wsc_letters"] else [])
   ++ ["kpi"])%list.

(** An embedded relation as the query returns it: absent, or an array of
    rows. *)
Definition is_relation (v : value) : bool :=
  match v with
  | VUndefined | VNull => true
  | VArr rows => forallb (fun d => negb (nullish d)) rows
  | _ => false
  end.

Definition relation_size (v : value) : nat :=
  match v with VArr rows => List.length rows | _ => 0 end.

(** An object with exactly the properties [keys], in that order. *)
Definition has_keys (keys : list string) (v : value) : Prop :=
  exists props, v = VObj props /\ map fst props = keys.

(** The relations summarised in the context, with the columns kept of each
    row and the actions that ask for them. *)
Definition summarised : list (string * (list string * list string)) :=
  [ ("documents",
     (["id"; "name"; "type"; "category"; "person_type"; "is_verified"; "needs_translation";
       "ocr_data"],
      ["document_check"; "comprehensive"; "document_intelligence"]));
    ("tasks",
     (["title"; "status"; "priority"; "due_date"], ["task_suggest"; "comprehensive"]));
    ("wsc_letters",
     (["letter_date"; "deadline"; "reference_number"; "strategy"],
      ["wsc_strategy"; "comprehensive"])) ].

(** A stored message as it is replayed to the model. *)
Definition replayed (m : value) : value :=
  VObj ([("role", get_opt m "role"); ("content", get_opt m "content")]
        ++ (if truthy (get_opt m "tool_calls")
            then [("tool_calls", get_opt m "tool_calls")] else []))%list.

(** The names every object inherits ([actionPrompts[action]] finds them
    although [actionPrompts] does not list them). *)
Definition inherited_names : list string :=
  ["constructor"; "toString"; "toLocaleString"; "valueOf"; "hasOwnProperty";
   "isPrototypeOf"; "propertyIsEnumerable"; "__proto__"; "__defineGetter__";
   "__defineSetter__"; "__lookupGetter__"; "__lookupSetter__"].

(** The relations the action asks for are well formed in [caseData]. *)
Definition relations_ok (action : string) (caseData : value) : bool :=
  forallb (fun entry => negb (includes (snd (snd entry)) action)
                        || is_relation (get_opt caseData (fst entry)))
    summarised.

(** *** The tools *)

(** [settles Q p]: however the backend answers, what [p] settles to
    satisfies [Q]. *)
Definition settles {A} (Q : JS.result A -> Prop) (p : prog A) : Prop :=
  sat p (fun _ r => Q r).

(** What the handler of a registered tool leaves in [result]: a success
    announced by the check mark, or a failure that begins with [Failed: ]. *)
Definition handled (h : handler_result) : Prop :=
  (success h = true /\ String.prefix check_mark (message h) = true)
  \/ (success h = false /\ String.prefix "Failed: " (message h) = true).

(** The backend calls each tool makes (lines 441-659): the edge function it
    invokes, the tables it reads and writes and the column it selects on. *)
Definition footprint (toolName : string) (op : supabase_op) : bool :=
  if toolName =? "generate_poa_pdf" then
    match op with
    | FunctionsInvoke fn _ => fn =? "generate-poa"
    | Insert table _ => table =? "hac_logs"
    | _ => false
    end
  else if toolName =? "create_task" then
    match op with
    | Insert table _ => table =? "tasks"
    | _ => false
    end
  else if toolName =? "trigger_ocr" then
    match op with
    | FunctionsInvoke fn _ => fn =? "ocr-document"
    | _ => false
    end
  else if toolName =? "update_master_data" then
    match op with
    | UpdateEq table _ col _ => (table =? "master_table") && (col =? "case_id")
    | Insert table _ => table =? "hac_logs"
    | _ => false
    end
  else if toolName =? "generate_archive_request" then
    match op with
    | Insert table _ => (table =? "archive_searches") || (table =? "hac_logs")
    | _ => false
    end
  else if toolName =? "create_oby_draft" then
    match op with
    | SelectEqSingle table _ col _ => (table =? "master_table") && (col =? "case_id")
    | SelectEqMaybeSingle table _ col _ => (table =? "oby_forms") && (col =? "case_id")
    | UpdateEq table _ col _ => (table =? "oby_forms") && (col =? "id")
    | Insert table _ => (table =? "oby_forms") || (table =? "hac_logs")
    | _ => false
    end
  else if toolName =? "draft_wsc_response" then
    match op with
    | Insert table _ => table =? "hac_logs"
    | UpdateEq table _ col _ => (table =? "master_table") && (col =? "case_id")
    | _ => false
    end
  else if toolName =? "generate_civil_acts_request" then
    match op with
    | Insert table _ => (table =? "tasks") || (table =? "hac_logs")
    | _ => false
    end
  else false.

(** A call to the Supabase client that is in the footprint of the tool
    named. *)
Definition within (toolName : value) (o : obs) : bool :=
  match toolName, o with
  | VStr s, ObsSupabase op _ => footprint s op
  | _, _ => false
  end.

(** A call made for the case [cid] on behalf of [userId]: a row inserted
    carries [case_id: cid], and [performed_by: userId] when it goes to
    [hac_logs]; [master_table] is read and updated where [case_id] is [cid];
    the draft is looked up by [case_id: cid]; [generate-poa] is invoked for
    [cid]. *)
Definition scoped (cid : value) (userId : string) (o : obs) : bool :=
  match o with
  | ObsSupabase (Insert table row) _ =>
      Store.value_eqb (get_opt row "case_id") cid
      && (negb (table =? "hac_logs")
          || Store.value_eqb (get_opt row "performed_by") (VStr userId))
  | ObsSupabase (UpdateEq table _ col v) _ =>
      negb (table =? "master_table") || ((col =? "case_id") && Store.value_eqb v cid)
  | ObsSupabase (SelectEqSingle _ _ col v) _
  | ObsSupabase (SelectEqMaybeSingle _ _ col v) _ =>
      (col =? "case_id") && Store.value_eqb v cid
  | ObsSupabase (FunctionsInvoke fn body) _ =>
      negb (fn =? "generate-poa")
      || Store.value_eqb (get_opt (get_opt body "body") "caseId") cid
  | _ => true
  end.

Definition is_array (v : value) : bool :=
  match v with VArr _ => true | _ => false end.

Definition is_string (v : value) : bool :=
  match v with VStr _ => true | _ => false end.

(** *** The replies and the handler *)

(** The insert of the two messages of an exchange. *)
Definition is_save (o : obs) : bool :=
  match o with
  | ObsSupabase (Insert table _) _ => table =? "ai_conversation_messages"
  | _ => false
  end.

(** A call to the model gateway. *)
Definition is_model_call (o : obs) : bool :=
  match o with
  | ObsFetch url _ _ => url =? gateway
  | _ => false
  end.

(** What the handler does before it calls the model: it creates the
    conversation, reads the history and reads the case. *)
Definition is_preparation (o : obs) : bool :=
  match o with
  | ObsSupabase (InsertSelectSingle table _) _ => table =? "ai_conversations"
  | ObsSupabase (SelectEqOrderLimit table _ _ _ _ _) _ => table =? "ai_conversation_messages"
  | ObsSupabase (SelectEqSingle table _ _ _) _ => table =? "cases"
  | _ => false
  end.

Definition creates_conversation (o : obs) : bool :=
  match o with
  | ObsSupabase (InsertSelectSingle table _) _ => table =? "ai_conversations"
  | _ => false
  end.

Definition reads_case (o : obs) : bool :=
  match o with
  | ObsSupabase (SelectEqSingle table _ _ _) _ => table =? "cases"
  | _ => false
  end.

(** [error.message || 'Unknown error'] *)
Definition error_text (e : exn) : string :=
  if JS.message e =? "" then "Unknown error" else JS.message e.


Definition is_fetch (o : obs) : bool :=
  match o with
  | ObsFetch _ _ _ => true
  | _ => false
  end.

(** What follows the call of the model: neither a call of the model nor a
    step of the preparation. *)
Definition is_follow_up (o : obs) : bool :=
  negb (is_fetch o) && negb (is_preparation o).

(** The first and the last message sent to the model (lines 242 and 248). *)
Definition system_turn (action : string) : value :=
  VObj [("role", VStr "system"); ("content", VStr (getSystemPrompt action))].

Definition user_turn (JSON_stringify_pretty : value -> string) (context : value)
  (prompt : string) : value :=
  VObj [("role", VStr "user");
        ("content",
         VStr ("Case Context:" ++ String newline (JSON_stringify_pretty context)
               ++ String newline (String newline "User Request: ") ++ prompt))].

(** The history sent to the model opens with the system prompt of the
    action and closes with the request of the user. *)
Definition is_history (JSON_stringify_pretty : value -> string) (action prompt : string)
  (history : list value) : Prop :=
  exists middle context,
    history = (system_turn action :: middle
               ++ [user_turn JSON_stringify_pretty context prompt])%list.

(** [Q] holds of the trace once the calls [pre], all of which satisfy [ok],
    are put before it. *)
Definition after {A} (ok : obs -> bool) (Q : list obs -> JS.result A -> Prop)
  : list obs -> JS.result A -> Prop :=
  fun t r => forall pre, forallb ok pre = true -> Q (pre ++ t)%list r.

(** What the caller gets when the handler's body settles to [r]: the
    [catch] of the handler turns an error into a reply with status 500. *)
Definition recovered (r : JS.result http_reply) : http_reply :=
  match r with
  | inl e => ErrorReply (error_text e) 500
  | inr reply => reply
  end.

(** The trace of a request that reached the model: the preparation, the
    call of the model, and what followed. *)
Definition reached_model (JSON_stringify_pretty : value -> string) (req : Request.t)
  (t : list obs) (r : JS.result http_reply) : Prop :=
  exists pre history x post,
    t = (pre ++ ObsFetch gateway
                  (aiRequestBody (Request.action req) history (Request.stream req)) x
             :: post)%list
    /\ forallb is_preparation pre = true
    /\ forallb is_follow_up post = true
    /\ is_history JSON_stringify_pretty (Request.action req) (Request.prompt req) history
    /\ match x with
       | inl e => post = [] /\ r = inr (ErrorReply (error_text e) 500)
       | inr response =>
           resp_ok response = false ->
           post = []
           /\ r = inr (ErrorReply ("AI Gateway error: "
                                   ++ Z_to_string (Async.status response)) 500)
       end.

(** The first steps of the preparation: the conversation is created and
    its history read. *)
Definition is_opening (o : obs) : bool :=
  is_preparation o && negb (reads_case o).

(** *** More concrete inputs *)

(** A request that names neither a case nor a conversation. *)
Definition plain_request : Request.t :=
  {| Request.caseId := None;
     Request.prompt := "Translate this";
     Request.action := "translator";
     Request.conversationId := None;
     Request.stream := false |}.

(** A security audit asked for a case. *)
Definition case_audit_request : Request.t :=
  {| Request.caseId := Some "C1";
     Request.prompt := "List the risks";
     Request.action := "security_audit";
     Request.conversationId := None;
     Request.stream := false |}.

(** A request about a case that does not exist. *)
Definition lost_case_request : Request.t :=
  {| Request.caseId := Some "C404";
     Request.prompt := "Is the client eligible?";
     Request.action := "eligibility_analysis";
     Request.conversationId := None;
     Request.stream := false |}.

(** The gateway refuses the call. *)
Definition too_many_requests : http_response :=
  {| resp_ok := false; Async.status := 429;
     json := inl (SyntaxError "Unexpected end of JSON input");
     body := {| chunks := []; failure := None |} |}.

(** A completion made of one tool call and no text. *)
Definition tool_only_completion : value :=
  VObj [("choices",
         VArr [VObj [("message",
                      VObj [("role", VStr "assistant");
                            ("content", VNull);
                            ("tool_calls",
                             VArr [tool_call "call_1" "create_task"
                                     (Json.js "{'caseId':'C1','title':'Collect passport','priority':'high'}")])])]])].

(** A call of [create_task] for a case other than the one of the request. *)
Definition task_call : value :=
  tool_call "call_1" "create_task"
    (Json.js "{'caseId':'C2','title':'Collect passport','priority':'high'}").

Definition task_args : value :=
  VObj [("caseId", VStr "C2"); ("title", VStr "Collect passport"); ("priority", VStr "high")].

(** A conversation of 22 messages, in the order they were saved. *)
Definition long_conversation : list value :=
  map (fun n => VObj [("id", VNum (Z.of_nat n));
                      ("conversation_id", VStr "conv-1");
                      ("role", VStr (if Nat.even n then "assistant" else "user"));
                      ("content", VStr ("message " ++ nat_to_string n));
                      ("tool_calls", VNull)])
    (seq 1 22).

Definition conversation_store : Store.db :=
  {| Store.tables := [("ai_conversation_messages", long_conversation)];
     Store.next_id := 23 |}.

(** A request that continues that conversation. *)
Definition follow_up_request : Request.t :=
  {| Request.caseId := None;
     Request.prompt := "And then?";
     Request.action := "translator";
     Request.conversationId := Some "conv-1";
     Request.stream := false |}.

(** The row [create_task] inserts into [tasks] (lines 468-476). *)
Definition task_row (args : value) : value :=
  VObj [("case_id", get_opt args "caseId");
        ("title", get_opt args "title");
        ("description", or_else (get_opt args "description") (VStr ""));
        ("priority", get_opt args "priority");
        ("category", or_else (get_opt args "category") (VStr "general"));
        ("due_date", or_else (get_opt args "dueDate") VNull);
        ("status", VStr "pending")].

(** The database refuses a write: the call resolves with an error. *)
Definition refused_insert : pg_response :=
  {| data := VNull;
     error := Some (Error "new row violates row-level security policy") |}.

(** A backend whose database refuses every call. *)
Definition refusing_backend : world unit :=
  {| on_supabase := fun _ s => (inr refused_insert, s);
     on_fetch := fun _ _ s => (no_model, s) |}.

(* ===================================================================== *)
(** ** The stream relay: lines and chunks *)
(* ===================================================================== *)

Unset Implicit Arguments.

Section SplitFacts.

Example parse_number : Json.parse "5" = ok (VNum 5).
Proof. reflexivity. Qed.

Example parse_object :
  Json.parse (Json.js "{'choices':[{'delta':{'content':'Hi'}}]}")
  = ok (VObj [("choices", VArr [VObj [("delta", VObj [("content", VStr "Hi")])]])]).
Proof. reflexivity. Qed.

Example parse_truncated : exists e, Json.parse (Json.js "{'caseId':'C1', 'ti") = throw e.
Proof. eexists; reflexivity. Qed.

Example parse_word : exists e, Json.parse "not json" = throw e.
Proof. eexists; reflexivity. Qed.


Lemma split_nl_not_nil (s : string) : split_nl s <> [].
Proof.
  destruct s as [|c r]; simpl; [discriminate|].
  destruct (Ascii.eqb c newline); [discriminate|].
  destruct (split_nl r); discriminate.
Qed.

(** Splitting a text that arrives in two pieces: the lines completed by the
    first piece, then the lines of the residue followed by the second. *)
Lemma split_nl_app (a b : string) :
  split_nl (a ++ b)
  = (removelast (split_nl a) ++ split_nl (last (split_nl a) "" ++ b))%list.
Proof.
  induction a as [|c a IH]; [reflexivity|].
  cbn [append split_nl].
  destruct (Ascii.eqb c newline) eqn:Hc.
  - rewrite IH.
    pose proof (split_nl_not_nil a) as Hne.
    destruct (split_nl a) as [|h t]; [contradiction|]. reflexivity.
  - rewrite IH.
    pose proof (split_nl_not_nil a) as Hne.
    destruct (split_nl a) as [|h t]; [contradiction|].
    destruct t as [|x t'].
    + cbn [removelast last app append split_nl]. rewrite Hc. reflexivity.
    + reflexivity.
Qed.

Lemma split_nl_line (l rest : string) :
  is_line l = true ->
  split_nl (l ++ String newline rest) = l :: split_nl rest.
Proof.
  induction l as [|c l IH]; intros Hl.
  - reflexivity.
  - cbn [is_line] in Hl. apply andb_true_iff in Hl as [Hc Hl].
    cbn [append split_nl].
    apply negb_true_iff in Hc. rewrite Hc.
    now rewrite IH.
Qed.

Lemma split_nl_unlines (lines : list string) :
  forallb is_line lines = true ->
  split_nl (unlines lines) = (lines ++ [""])%list.
Proof.
  induction lines as [|l rest IH]; intros H; [reflexivity|].
  cbn [forallb] in H. apply andb_true_iff in H as [Hl Hrest].
  cbn [unlines app]. rewrite split_nl_line by assumption. now rewrite IH.
Qed.

Lemma last_app_not_nil {A} (l1 l2 : list A) (d : A) :
  l2 <> [] -> last (l1 ++ l2)%list d = last l2 d.
Proof.
  intros Hne. induction l1 as [|x l1 IH]; [reflexivity|].
  cbn [app last]. destruct (l1 ++ l2)%list eqn:E; [|exact IH].
  destruct l1; cbn in E; [contradiction|discriminate].
Qed.

Lemma append_assoc (a b c : string) : (a ++ b) ++ c = a ++ (b ++ c).
Proof. induction a as [|x a IH]; [reflexivity|]. cbn. now rewrite IH. Qed.

Lemma append_empty_r (a : string) : a ++ "" = a.
Proof. induction a as [|x a IH]; [reflexivity|]. cbn. now rewrite IH. Qed.

End SplitFacts.

Lemma concatenation_app (l1 l2 : list string) :
  concatenation (l1 ++ l2) = concatenation l1 ++ concatenation l2.
Proof.
  unfold concatenation.
  induction l1 as [|a l1 IH]; [reflexivity|].
  cbn [app fold_right]. rewrite IH. now rewrite append_assoc.
Qed.

Lemma stream_text_cons (c : string) (cs : list string) :
  stream_text (c :: cs) = c ++ stream_text cs.
Proof. reflexivity. Qed.

Section RelayFacts.

Variable JSON_parse : string -> JS.result value.

Local Abbreviation processLine := (Agent.processLine JSON_parse).
Local Abbreviation processLines := (Agent.processLines JSON_parse).
Local Abbreviation processChunk := (Agent.processChunk JSON_parse).
Local Abbreviation readLoop := (Agent.readLoop JSON_parse).
Local Abbreviation relay_after := (relay_after JSON_parse).

(** The loop over the lines neither reads nor writes the buffer. *)
Lemma processLine_with_buffer (b line : string) (st : relay_state) :
  processLine line (with_buffer b st) = with_buffer b (processLine line st).
Proof.
  unfold Agent.processLine.
  destruct (negb (truthy (VStr (trim line))) || startsWith ":" line); [reflexivity|].
  destruct (negb (startsWith "data: " line)); [reflexivity|].
  destruct (trim (slice 6 line) =? "[DONE]"); [reflexivity|].
  destruct (extract_delta JSON_parse (trim (slice 6 line))) as [e|delta]; [reflexivity|].
  destruct (truthy (get_opt delta "content")).
  - unfold forward_content. cbn [output with_buffer].
    destruct (ToString (get_opt delta "content")) as [e|text]; [reflexivity|].
    destruct (writable (output st)); [|reflexivity].
    destruct (truthy (get_opt delta "tool_calls")); [|reflexivity].
    destruct (spread (get_opt delta "tool_calls")); reflexivity.
  - destruct (truthy (get_opt delta "tool_calls")); [|reflexivity].
    destruct (spread (get_opt delta "tool_calls")); reflexivity.
Qed.

Lemma processLines_with_buffer (b : string) (lines : list string) (st : relay_state) :
  processLines lines (with_buffer b st) = with_buffer b (processLines lines st).
Proof.
  revert st. induction lines as [|l lines IH]; intros st; [reflexivity|].
  cbn. rewrite processLine_with_buffer. apply IH.
Qed.

Lemma processLines_app (l1 l2 : list string) (st : relay_state) :
  processLines (l1 ++ l2) st = processLines l2 (processLines l1 st).
Proof. apply fold_left_app. Qed.

Lemma with_buffer_twice (a b : string) (st : relay_state) :
  with_buffer a (with_buffer b st) = with_buffer a st.
Proof. reflexivity. Qed.

Lemma buffer_with_buffer (b : string) (st : relay_state) :
  buffer (with_buffer b st) = b.
Proof. reflexivity. Qed.

Lemma buffer_processLines (lines : list string) (st : relay_state) :
  buffer (processLines lines st) = buffer st.
Proof.
  destruct st as [b f t o].
  change {| buffer := b; fullContent := f; toolCalls := t; output := o |}
    with (with_buffer b {| buffer := b; fullContent := f; toolCalls := t; output := o |}).
  rewrite processLines_with_buffer. reflexivity.
Qed.

Lemma readLoop_relay_after (chunks : list string) (st : relay_state) :
  readLoop chunks st
  = match chunks with
    | [] => st
    | _ => relay_after (stream_text chunks) st
    end.
Proof.
  revert st. induction chunks as [|c cs IH]; intros st; [reflexivity|].
  cbn [Agent.readLoop fold_left].
  change (fold_left (fun s chunk => processChunk chunk s) cs (processChunk c st))
    with (readLoop cs (processChunk c st)).
  rewrite IH. destruct cs as [|d cs].
  - unfold relay_after, Agent.processChunk, stream_text. cbn [concatenation fold_right].
    rewrite append_empty_r. reflexivity.
  - unfold relay_after. rewrite (stream_text_cons c (d :: cs)).
    set (rest := stream_text (d :: cs)).
    unfold Agent.processChunk.
    rewrite buffer_processLines, buffer_with_buffer.
    rewrite <- append_assoc.
    rewrite (split_nl_app (buffer st ++ c) rest).
    set (first := split_nl (buffer st ++ c)).
    pose proof (split_nl_not_nil (last first "" ++ rest)) as Hne.
    rewrite removelast_app by exact Hne.
    rewrite last_app_not_nil by exact Hne.
    rewrite processLines_app.
    rewrite !processLines_with_buffer, with_buffer_twice.
    reflexivity.
Qed.

Lemma relay_after_nothing (c : controller) :
  relay_after "" (relay_start c) = relay_start c.
Proof. reflexivity. Qed.

(** From the start of the loop, the state reached depends on the text that
    went by, not on how it was cut into chunks. *)
Lemma readLoop_text (c : controller) (chunks : list string) :
  readLoop chunks (relay_start c) = relay_after (stream_text chunks) (relay_start c).
Proof.
  rewrite readLoop_relay_after. destruct chunks; [|reflexivity].
  symmetry. apply relay_after_nothing.
Qed.

Lemma relay_same_text (c : controller) (chunks chunks' : list string) :
  stream_text chunks = stream_text chunks' ->
  readLoop chunks (relay_start c) = readLoop chunks' (relay_start c).
Proof. intros H. rewrite !readLoop_text. now rewrite H. Qed.

Lemma rejoin_split_nl (s : string) :
  stream_text (map (fun l => (l ++ String newline "")%string) (removelast (split_nl s)))
  ++ last (split_nl s) "" = s.
Proof.
  induction s as [|ch s IH]; [reflexivity|].
  cbn [split_nl].
  pose proof (split_nl_not_nil s) as Hne.
  destruct (Ascii.eqb ch newline) eqn:Hc.
  - apply Ascii.eqb_eq in Hc. subst ch.
    destruct (split_nl s) as [|h t] eqn:E; [contradiction|].
    change (removelast ("" :: h :: t)) with ("" :: removelast (h :: t)).
    change (last ("" :: h :: t) "") with (last (h :: t) "").
    cbn [map]. rewrite stream_text_cons. cbn [append].
    now rewrite IH.
  - destruct (split_nl s) as [|h t] eqn:E; [contradiction|].
    destruct t as [|x t'].
    + cbn in IH |- *. now rewrite IH.
    + change (removelast (String ch h :: x :: t'))
        with (String ch h :: removelast (x :: t')).
      change (last (String ch h :: x :: t') "") with (last (x :: t') "").
      change (removelast (h :: x :: t')) with (h :: removelast (x :: t')) in IH.
      change (last (h :: x :: t') "") with (last (x :: t') "") in IH.
      cbn [map] in IH |- *. rewrite stream_text_cons in IH |- *.
      cbn [append]. now rewrite IH.
Qed.

Lemma whole_lines_text (s : string) : stream_text (whole_lines s) = s.
Proof.
  unfold whole_lines, stream_text. rewrite concatenation_app.
  cbn [concatenation fold_right]. rewrite append_empty_r.
  apply rejoin_split_nl.
Qed.

(** C3.  The read loop is split-invariant: however the upstream text is
    cut into chunks (also inside a [data: ] record), the loop ends in the
    state it reaches when the same text is fed one complete line per chunk:
    the same events enqueued, the same [fullContent], the same [toolCalls]
    (and the same residue in the buffer). *)
Theorem relay_split_invariant (c : controller) (chunks : list string) :
  readLoop chunks (relay_start c)
  = readLoop (whole_lines (stream_text chunks)) (relay_start c).
Proof.
  apply relay_same_text. now rewrite whole_lines_text.
Qed.

(** Feeding a text made of complete lines comes down to the loop over those
    lines. *)
Lemma readLoop_unlines (c : controller) (lines chunks : list string) :
  forallb is_line lines = true ->
  stream_text chunks = unlines lines ->
  readLoop chunks (relay_start c) = processLines lines (relay_start c).
Proof.
  intros Hl Ht. rewrite readLoop_text, Ht. unfold relay_after.
  cbn [buffer relay_start append].
  rewrite split_nl_unlines by exact Hl.
  rewrite removelast_last, last_last. reflexivity.
Qed.

Lemma forallb_is_line_remove (before : list string) (l : string) (after : list string) :
  forallb is_line (before ++ l :: after) = true ->
  forallb is_line (before ++ after) = true.
Proof.
  rewrite !forallb_app. cbn [forallb]. intros H.
  apply andb_true_iff in H as [Hb H]. apply andb_true_iff in H as [_ Ha].
  now rewrite Hb, Ha.
Qed.

(** A line that leaves every state as it is can be dropped from the
    stream. *)
Lemma inert_line_dropped (c : controller) (before : list string) (l : string)
  (after chunks : list string) :
  (forall st, processLine l st = st) ->
  forallb is_line (before ++ l :: after) = true ->
  stream_text chunks = unlines (before ++ l :: after) ->
  readLoop chunks (relay_start c) = processLines (before ++ after) (relay_start c).
Proof.
  intros Hinert Hl Ht.
  rewrite (readLoop_unlines c _ _ Hl Ht).
  rewrite !processLines_app. cbn [Agent.processLines fold_left].
  now rewrite Hinert.
Qed.

Lemma data_line_not_blank (line : string) :
  startsWith "data: " line = true ->
  negb (truthy (VStr (trim line))) || startsWith ":" line = false.
Proof.
  unfold startsWith. intros H.
  destruct line as [|c0 r]; [discriminate|].
  cbn [String.prefix] in H.
  destruct (ascii_dec "d"%char c0) as [<-|]; [|discriminate].
  cbn [String.prefix]. rewrite orb_false_r.
  assert (Hstart : trim_start (String "d" r) = String "d" r).
  { destruct r as [|d1 [|e1 r2]]; reflexivity. }
  unfold trim. rewrite Hstart. cbn [trim_end]. unfold blank. rewrite Hstart.
  reflexivity.
Qed.

(** What the loop does with a [data: ] line. *)
Lemma processLine_data (line : string) (st : relay_state) :
  startsWith "data: " line = true ->
  processLine line st
  = let data := trim (slice 6 line) in
    if data =? "[DONE]" then st
    else match extract_delta JSON_parse data with
         | inl _ => st
         | inr delta =>
             let content := get_opt delta "content" in
             match (if truthy content then forward_content content st else inr st) with
             | inl st1 => st1
             | inr st1 =>
                 let fragments := get_opt delta "tool_calls" in
                 if truthy fragments
                 then match spread fragments with
                      | inl _ => st1
                      | inr xs => push_tool_calls xs st1
                      end
                 else st1
             end
         end.
Proof.
  intros H. unfold Agent.processLine.
  rewrite (data_line_not_blank _ H), H. reflexivity.
Qed.

Lemma malformed_line_inert (line : string) (e : exn) (st : relay_state) :
  startsWith "data: " line = true ->
  JSON_parse (trim (slice 6 line)) = inl e ->
  processLine line st = st.
Proof.
  intros Hd He. rewrite processLine_data by exact Hd. cbv zeta.
  destruct (trim (slice 6 line) =? "[DONE]"); [reflexivity|].
  unfold extract_delta. now rewrite He.
Qed.

Lemma done_line_inert (line : string) (st : relay_state) :
  startsWith "data: " line = true ->
  trim (slice 6 line) = "[DONE]" ->
  processLine line st = st.
Proof.
  intros Hd He. rewrite processLine_data by exact Hd. cbv zeta.
  now rewrite He.
Qed.

(** *** The fragments of the upstream *)

Local Abbreviation fragment_of := (fragment_of JSON_parse).
Local Abbreviation extracted := (extracted JSON_parse).

Lemma get_defined (v : value) (k : string) :
  nullish v = false -> get v k = inr (get_opt v k).
Proof. unfold get_opt. destruct v; cbn; intros H; try discriminate; reflexivity. Qed.

Lemma enqueue_writable (ev : sse_event) (c : controller) :
  writable c = true ->
  enqueue ev c = inr {| enqueued := (enqueued c ++ [ev])%list; status := status c |}.
Proof. unfold enqueue. now intros ->. Qed.

Lemma enqueue_refused (ev : sse_event) (c : controller) :
  writable c = false -> enqueue ev c = inl not_writable.
Proof. unfold enqueue. now intros ->. Qed.

(** What the tool calls of a record do: nothing to the content nor to the
    stream. *)
Lemma push_keeps_content (fragments : value) (st1 : relay_state) :
  let st2 := if truthy fragments
             then match spread fragments with
                  | inl _ => st1
                  | inr xs => push_tool_calls xs st1
                  end
             else st1 in
  fullContent st2 = fullContent st1 /\ output st2 = output st1.
Proof.
  cbv zeta. destruct (truthy fragments); [|now split].
  destruct (spread fragments); now split.
Qed.

(** A line that carries a record with a non-empty string as content carries
    that string. *)
Lemma fragment_of_content (line : string) (parsed : value) (text : string) :
  startsWith "data: " line = true ->
  (trim (slice 6 line) =? "[DONE]") = false ->
  JSON_parse (trim (slice 6 line)) = inr parsed ->
  nullish parsed = false ->
  get_opt (delta_of parsed) "content" = VStr text ->
  text <> "" ->
  fragment_of line = [VStr text].
Proof.
  intros Hd Hdone Hp Hn Hc Ht. unfold fragment_of.
  rewrite Hd, Hdone, Hp, Hn, Hc. cbn.
  apply String.eqb_neq in Ht. now rewrite Ht.
Qed.

(** One line: its fragment, if it carries one, is appended to [fullContent],
    and is enqueued as a delta when the stream takes it; nothing else is
    enqueued, and the stream is neither closed nor errored. *)
Lemma processLine_fragment (line : string) (st : relay_state) :
  fullContent (processLine line st)
  = fullContent st ++ concatenation (map text_of (fragment_of line))
  /\ enqueued (output (processLine line st))
     = (enqueued (output st)
        ++ (if writable (output st) then map EvDelta (fragment_of line) else []))%list
  /\ status (output (processLine line st)) = status (output st).
Proof.
  assert (Hnone : fullContent st = fullContent st ++ concatenation (map text_of [])
                  /\ enqueued (output st)
                     = (enqueued (output st)
                        ++ (if writable (output st) then map EvDelta [] else []))%list
                  /\ status (output st) = status (output st)).
  { cbn. rewrite append_empty_r. destruct (writable (output st)); now rewrite app_nil_r. }
  unfold fragment_of.
  destruct (startsWith "data: " line) eqn:Hd.
  2:{ unfold Agent.processLine. rewrite Hd. cbn [negb andb].
      destruct (negb (truthy (VStr (trim line))) || startsWith ":" line); exact Hnone. }
  rewrite (processLine_data line st Hd). cbv zeta.
  destruct (trim (slice 6 line) =? "[DONE]"); [exact Hnone|]. cbn [negb andb].
  unfold extract_delta.
  destruct (JSON_parse (trim (slice 6 line))) as [e|parsed]; [exact Hnone|].
  destruct (nullish parsed) eqn:Hn.
  { destruct parsed; try discriminate; exact Hnone. }
  rewrite (get_defined parsed "choices" Hn). cbn [ok negb andb].
  fold (delta_of parsed).
  set (content := get_opt (delta_of parsed) "content").
  set (fragments := get_opt (delta_of parsed) "tool_calls").
  destruct (truthy content).
  2:{ destruct (push_keeps_content fragments st) as [-> ->]. exact Hnone. }
  unfold forward_content.
  destruct (ToString content) as [e|text] eqn:Htext; [exact Hnone|].
  assert (Htail : concatenation (map text_of [content]) = text).
  { cbn. unfold text_of. rewrite Htext. apply append_empty_r. }
  rewrite Htail.
  destruct (writable (output st)) eqn:Hw.
  - destruct (push_keeps_content fragments (forward content text st)) as [-> ->].
    unfold forward. cbn [fullContent output].
    rewrite (enqueue_writable _ _ Hw). cbn. now repeat split.
  - unfold forward. cbn [fullContent output].
    rewrite (enqueue_refused _ _ Hw). rewrite app_nil_r. now repeat split.
Qed.

Lemma processLines_fragments (lines : list string) (st : relay_state) :
  fullContent (processLines lines st)
  = fullContent st ++ concatenation (map text_of (flat_map fragment_of lines))
  /\ enqueued (output (processLines lines st))
     = (enqueued (output st)
        ++ (if writable (output st) then map EvDelta (flat_map fragment_of lines) else []))%list
  /\ status (output (processLines lines st)) = status (output st).
Proof.
  revert st. induction lines as [|l lines IH]; intros st.
  - cbn. rewrite append_empty_r. destruct (writable (output st)); now rewrite app_nil_r.
  - cbn [Agent.processLines fold_left flat_map].
    destruct (processLine_fragment l st) as (Hf & He & Hs).
    destruct (IH (processLine l st)) as (Hf' & He' & Hs').
    fold (processLines lines (processLine l st)).
    rewrite Hf', He', Hs', Hf, He, Hs.
    assert (Hw : writable (output (processLine l st)) = writable (output st)).
    { unfold writable. now rewrite Hs. }
    rewrite Hw, !map_app, concatenation_app, append_assoc.
    repeat split. destruct (writable (output st)).
    + now rewrite <- app_assoc.
    + now rewrite !app_nil_r.
Qed.

(** The loop: every fragment of the upstream is appended to [fullContent];
    while the stream is readable every fragment is enqueued, in arrival
    order, and nothing else is. *)
Lemma readLoop_extracts (c : controller) (chunks : list string) :
  fullContent (readLoop chunks (relay_start c))
  = concatenation (map text_of (extracted chunks))
  /\ enqueued (output (readLoop chunks (relay_start c)))
     = (enqueued c ++ (if writable c then map EvDelta (extracted chunks) else []))%list
  /\ status (output (readLoop chunks (relay_start c))) = status c.
Proof.
  rewrite readLoop_text. unfold relay_after.
  cbn [buffer relay_start append].
  exact (processLines_fragments (removelast (split_nl (stream_text chunks)))
           (with_buffer (last (split_nl (stream_text chunks)) "") (relay_start c))).
Qed.

Lemma forwarded_deltas (evs : list sse_event) (ds : list value) :
  flat_map (fun ev => match ev with EvDelta content => [content] | _ => [] end)
    (evs ++ map EvDelta ds)
  = (flat_map (fun ev => match ev with EvDelta content => [content] | _ => [] end) evs
     ++ ds)%list.
Proof.
  rewrite flat_map_app. f_equal.
  induction ds as [|d ds IH]; [reflexivity|]. cbn. now rewrite IH.
Qed.

Lemma extracted_unlines (lines chunks : list string) :
  forallb is_line lines = true ->
  stream_text chunks = unlines lines ->
  extracted chunks = flat_map fragment_of lines.
Proof.
  intros Hl Ht. unfold extracted, complete_lines.
  now rewrite Ht, split_nl_unlines, removelast_last.
Qed.

(** C7.  A [data: ] line whose payload [JSON.parse] rejects, among other
    lines, is skipped, and the stream is not aborted.  On a stream that
    takes events: what the loop enqueues is, in arrival order, the content
    fragments of the lines before the malformed one and then those of the
    lines after it, and nothing else; the stream stays readable; [fullContent]
    is the concatenation of those fragments; the loop ends in the state it
    reaches on the other lines alone. *)
Theorem malformed_line_skipped (c : controller) (before : list string) (bad : string)
  (after chunks : list string) (e : exn) :
  forallb is_line (before ++ bad :: after) = true ->
  startsWith "data: " bad = true ->
  JSON_parse (trim (slice 6 bad)) = inl e ->
  stream_text chunks = unlines (before ++ bad :: after) ->
  writable c = true ->
  enqueued (output (readLoop chunks (relay_start c)))
  = (enqueued c
     ++ map EvDelta (flat_map fragment_of before)
     ++ map EvDelta (flat_map fragment_of after))%list
  /\ forwarded (output (readLoop chunks (relay_start c)))
     = (forwarded c ++ flat_map fragment_of before ++ flat_map fragment_of after)%list
  /\ status (output (readLoop chunks (relay_start c))) = Readable
  /\ fullContent (readLoop chunks (relay_start c))
     = concatenation (map text_of (flat_map fragment_of before ++ flat_map fragment_of after))
  /\ readLoop chunks (relay_start c) = processLines (before ++ after) (relay_start c).
Proof.
  intros Hl Hd He Ht Hw.
  destruct (readLoop_extracts c chunks) as (Hf & Henq & Hs).
  assert (Hbad : fragment_of bad = []).
  { unfold fragment_of. rewrite Hd, He.
    now destruct (negb (trim (slice 6 bad) =? "[DONE]")). }
  rewrite (extracted_unlines _ _ Hl Ht) in Hf, Henq.
  rewrite flat_map_app in Hf, Henq. cbn [flat_map] in Hf, Henq.
  rewrite Hbad in Hf, Henq. cbn [app] in Hf, Henq. rewrite Hw in Henq.
  split; [now rewrite Henq, map_app|].
  split.
  { unfold forwarded. rewrite Henq. apply forwarded_deltas. }
  split.
  { rewrite Hs. unfold writable in Hw. now destruct (status c). }
  split; [exact Hf|].
  apply (inert_line_dropped c before bad after chunks); try assumption.
  intros st. now apply malformed_line_inert with (e := e).
Qed.

(** C4, as the code has it.  A [data: [DONE]] line is consumed without
    enqueuing anything and without ending the loop: the relay reads the
    upstream to its end and the lines that follow the sentinel are processed
    like any other line. *)
Theorem done_line_skipped (c : controller) (before : list string) (done : string)
  (after chunks : list string) :
  forallb is_line (before ++ done :: after) = true ->
  startsWith "data: " done = true ->
  trim (slice 6 done) = "[DONE]" ->
  stream_text chunks = unlines (before ++ done :: after) ->
  readLoop chunks (relay_start c) = processLines (before ++ after) (relay_start c).
Proof.
  intros Hl Hd He Ht.
  apply (inert_line_dropped c before done after chunks); try assumption.
  intros st. now apply done_line_inert.
Qed.

End RelayFacts.

(* ===================================================================== *)
(** ** Executions of async bodies *)
(* ===================================================================== *)

Section AsyncFacts.

Lemma sat_weaken {A} {p : prog A} {P Q : list obs -> JS.result A -> Prop} :
  sat p P -> (forall t r, P t r -> Q t r) -> sat p Q.
Proof.
  revert P Q. induction p as [a|e|op k IH|url init k IH]; intros P Q Hp HPQ; cbn in *.
  - now apply HPQ.
  - now apply HPQ.
  - intros x. apply (IH x _ _ (Hp x)). intros t r. apply HPQ.
  - intros x. apply (IH x _ _ (Hp x)). intros t r. apply HPQ.
Qed.

(** What [sat] promises holds of the run against any backend. *)
Lemma sat_run {S A} (w : world S) (p : prog A) (P : list obs -> JS.result A -> Prop) (s : S) :
  sat p P -> P (snd (run w p s)) (fst (fst (run w p s))).
Proof.
  revert P s. induction p as [a|e|op k IH|url init k IH]; intros P s Hp; cbn in *.
  - exact Hp.
  - exact Hp.
  - destruct (on_supabase w op s) as [x s1].
    specialize (IH x _ s1 (Hp x)).
    destruct (run w (k x) s1) as [[r s2] t]. exact IH.
  - destruct (on_fetch w url init s) as [x s1].
    specialize (IH x _ s1 (Hp x)).
    destruct (run w (k x) s1) as [[r s2] t]. exact IH.
Qed.

(** ... and of every execution. *)
Lemma sat_exec {A} (p : prog A) (P : list obs -> JS.result A -> Prop) t r :
  sat p P -> exec p t r -> P t r.
Proof.
  revert P t. induction p as [a|e|op k IH|url init k IH]; intros P t Hp He; cbn in *.
  - destruct He as [-> ->]. exact Hp.
  - destruct He as [-> ->]. exact Hp.
  - destruct He as (x & t' & -> & He). apply (IH x _ t' (Hp x) He).
  - destruct He as (x & t' & -> & He). apply (IH x _ t' (Hp x) He).
Qed.

Lemma sat_executions {A} (p : prog A) : sat p (fun t r => exec p t r).
Proof.
  induction p as [a|e|op k IH|url init k IH]; cbn.
  - now split.
  - now split.
  - intros x. apply (sat_weaken (IH x)). intros t r He. now exists x, t.
  - intros x. apply (sat_weaken (IH x)). intros t r He. now exists x, t.
Qed.

Lemma run_exec {S A} (w : world S) (p : prog A) (s : S) :
  exec p (snd (run w p s)) (fst (fst (run w p s))).
Proof. apply (sat_run w p _ s (sat_executions p)). Qed.

Lemma sat_bind {A B} (p : prog A) (f : A -> prog B) (Q : list obs -> JS.result B -> Prop) :
  sat p (fun t r => match r with
                    | inl e => Q t (inl e)
                    | inr a => sat (f a) (fun t' r' => Q (t ++ t')%list r')
                    end) ->
  sat (bind p f) Q.
Proof.
  revert Q. induction p as [a|e|op k IH|url init k IH]; intros Q Hp; cbn in *.
  - exact Hp.
  - exact Hp.
  - intros x. apply IH. exact (Hp x).
  - intros x. apply IH. exact (Hp x).
Qed.

Lemma sat_try_catch {A} (p : prog A) (h : exn -> prog A)
  (Q : list obs -> JS.result A -> Prop) :
  sat p (fun t r => match r with
                    | inl e => sat (h e) (fun t' r' => Q (t ++ t')%list r')
                    | inr a => Q t (inr a)
                    end) ->
  sat (try_catch p h) Q.
Proof.
  revert Q. induction p as [a|e|op k IH|url init k IH]; intros Q Hp; cbn in *.
  - exact Hp.
  - exact Hp.
  - intros x. apply IH. exact (Hp x).
  - intros x. apply IH. exact (Hp x).
Qed.

(** *** Strict bodies *)

Lemma rejection_app (t t' : list obs) :
  rejection (t ++ t')
  = match rejection t with
    | Some e => Some e
    | None => rejection t'
    end.
Proof.
  induction t as [|o t IH]; [reflexivity|].
  destruct o as [op [e|x]|url init [e|x]]; cbn; auto.
Qed.

Lemma rejection_rejected (t : list obs) :
  existsb rejected t = true <-> exists e, rejection t = Some e.
Proof.
  induction t as [|o t IH]; cbn.
  - split; [discriminate|intros [e H]; discriminate].
  - destruct o as [op [e|x]|url init [e|x]]; cbn; try exact IH;
      split; eauto.
Qed.

Lemma strict_ret {A} (a : A) : strict (Ret a).
Proof. cbv. discriminate. Qed.

Lemma strict_throw {A} (e : exn) : strict (@Throw A e).
Proof. cbv. discriminate. Qed.

Lemma strict_lift {A} (r : JS.result A) : strict (lift r).
Proof. destruct r; cbv; discriminate. Qed.

Lemma strict_await (op : supabase_op) : strict (await op).
Proof. intros [e|x]; cbn; intros e' H; [now inversion H|discriminate]. Qed.

Lemma strict_await_fetch url init : strict (await_fetch url init).
Proof. intros [e|x]; cbn; intros e' H; [now inversion H|discriminate]. Qed.

Lemma strict_bind {A B} (p : prog A) (f : A -> prog B) :
  strict p -> (forall a, strict (f a)) -> strict (bind p f).
Proof.
  intros Hp Hf. apply sat_bind. apply (sat_weaken Hp).
  intros t [e|a] Ht.
  { intros e' He'. specialize (Ht e' He'). now inversion Ht. }
  destruct (rejection t) as [e|] eqn:E.
  - specialize (Ht e eq_refl). discriminate.
  - apply (sat_weaken (Hf a)). intros t' r' Hr'.
    rewrite rejection_app, E. exact Hr'.
Qed.

(** A [try] around a strict body whose [catch] returns [g e]: the result
    is the one of the body, or [g e] for the error [e] that was thrown; after
    a call rejected with [e] it is [g e]. *)
Lemma try_strict {A} (p : prog A) (g : exn -> A) :
  strict p ->
  sat (try_catch p (fun e => Ret (g e)))
      (fun t r => exists a, r = inr a /\ (forall e, rejection t = Some e -> a = g e)).
Proof.
  intros Hp. apply sat_try_catch. apply (sat_weaken Hp).
  intros t [e|a] Ht; cbn.
  - exists (g e). split; [reflexivity|]. rewrite app_nil_r. intros e' He'.
    specialize (Ht e' He'). now inversion Ht.
  - exists a. split; [reflexivity|]. intros e He.
    specialize (Ht e He). discriminate.
Qed.

End AsyncFacts.

Ltac strictness :=
  repeat first
    [ apply strict_ret
    | apply strict_throw
    | apply strict_lift
    | apply strict_await
    | apply strict_await_fetch
    | apply strict_bind; [|intro]
    | progress cbv zeta
    | match goal with
      | |- strict (if ?b then _ else _) => destruct b
      | |- strict (match ?x with _ => _ end) => destruct x
      end ].

(* ===================================================================== *)
(** ** [Promise.all] *)
(* ===================================================================== *)

Section ListFacts.

Context {A : Type}.

Lemma nth_error_replace_nth (l : list A) (i : nat) (a b : A) :
  nth_error l i = Some a -> nth_error (replace_nth i b l) i = Some b.
Proof.
  revert i. induction l as [|x l IH]; intros [|i] H; cbn in *; try discriminate.
  - reflexivity.
  - now apply IH.
Qed.

Lemma replace_nth_same (l : list A) (i : nat) (a : A) :
  nth_error l i = Some a -> replace_nth i a l = l.
Proof.
  revert i. induction l as [|x l IH]; intros [|i] H; cbn in *; try discriminate.
  - now inversion H.
  - now rewrite IH.
Qed.

Lemma replace_nth_again (l : list A) (i : nat) (a b : A) :
  replace_nth i a (replace_nth i b l) = replace_nth i a l.
Proof.
  revert i. induction l as [|x l IH]; intros [|i]; cbn; try reflexivity.
  now rewrite IH.
Qed.

Lemma Forall_replace_nth (P : A -> Prop) (l : list A) (i : nat) (a : A) :
  Forall P l -> P a -> Forall P (replace_nth i a l).
Proof.
  intros Hl Ha. revert i. induction Hl as [|x l Hx Hl IH]; intros [|i]; cbn; auto.
Qed.

Lemma map_replace_nth {B} (f : A -> B) (l : list A) (i : nat) (a : A) :
  map f (replace_nth i a l) = replace_nth i (f a) (map f l).
Proof.
  revert i. induction l as [|x l IH]; intros [|i]; cbn; try reflexivity.
  now rewrite IH.
Qed.

End ListFacts.

Section ShuffleFacts.

Lemma shuffle_skip (ts : list (list obs)) (t : list obs) :
  shuffle ts t -> shuffle ([] :: ts) t.
Proof.
  induction 1 as [ts Hts|i o ti ts t Hi _ IH].
  - apply shuffle_done. now constructor.
  - apply (shuffle_step (S i) o ti); [exact Hi|exact IH].
Qed.

Lemma shuffle_first (t1 : list obs) (ts : list (list obs)) (t2 : list obs) :
  shuffle ts t2 -> shuffle (t1 :: ts) (t1 ++ t2).
Proof.
  intros H. induction t1 as [|o t1 IH].
  - now apply shuffle_skip.
  - apply (shuffle_step 0 o t1); [reflexivity|exact IH].
Qed.

(** What holds of every call of every trace holds of every call of their
    interleavings. *)
Lemma shuffle_forallb (ok : obs -> bool) (ts : list (list obs)) (t : list obs) :
  shuffle ts t ->
  Forall (fun ti => forallb ok ti = true) ts ->
  forallb ok t = true.
Proof.
  induction 1 as [ts Hts|i o ti ts t Hi _ IH]; intros Hall; [reflexivity|].
  assert (Ho : forallb ok (o :: ti) = true).
  { rewrite Forall_forall in Hall. apply Hall. eapply nth_error_In, Hi. }
  cbn in Ho. apply andb_true_iff in Ho as [Ho Hti].
  cbn. rewrite Ho. apply IH. now apply Forall_replace_nth.
Qed.

End ShuffleFacts.

Section PromiseFacts.

Context {A : Type}.

Lemma settle_one (p : prog A) :
  sat (try_catch (bind p (fun a => Ret (inr a))) (fun e => Ret (inl e)))
      (fun t r => exists r0 : JS.result A, r = inr r0 /\ exec p t r0).
Proof.
  induction p as [a|e|op k IH|url init k IH]; cbn.
  - exists (inr a). auto.
  - exists (inl e). auto.
  - intros x. apply (sat_weaken (IH x)).
    intros t r (r0 & -> & He). exists r0. split; [reflexivity|]. now exists x, t.
  - intros x. apply (sat_weaken (IH x)).
    intros t r (r0 & -> & He). exists r0. split; [reflexivity|]. now exists x, t.
Qed.

Lemma settle_all_outcome (pool : list (prog A)) :
  sat (settle_all pool) (pool_outcome pool).
Proof.
  induction pool as [|p pool IH]; cbn [settle_all].
  - exists []. repeat split; [|constructor]. apply shuffle_done. constructor.
  - apply sat_bind. apply (sat_weaken (settle_one p)).
    intros t1 r (r0 & -> & He).
    apply sat_bind. apply (sat_weaken IH).
    intros t2 r (outs & -> & Hsh & Hall). cbn.
    exists ((t1, r0) :: outs). cbn. rewrite app_nil_r.
    repeat split; [now apply shuffle_first|].
    constructor; [exact He|exact Hall].
Qed.

Lemma executed_step (pool : list (prog A)) (i : nat) (p q : prog A) (o : obs)
  (outs : list (list obs * JS.result A)) :
  nth_error pool i = Some p ->
  (forall t r, exec q t r -> exec p (o :: t) r) ->
  Forall2 executed (replace_nth i q pool) outs ->
  exists out,
    nth_error outs i = Some out
    /\ Forall2 executed pool (replace_nth i (o :: fst out, snd out) outs).
Proof.
  intros Hi Hstep. revert i outs Hi.
  induction pool as [|x pool IH]; intros [|i] outs Hi Hall; cbn in *; try discriminate.
  - inversion Hi; subst x. inversion Hall as [|? out ? outs' Hq Hrest]; subst.
    exists out. split; [reflexivity|]. cbn. constructor; [|exact Hrest].
    apply Hstep. exact Hq.
  - inversion Hall as [|? out0 ? outs' Hx Hrest]; subst.
    destruct (IH i outs' Hi Hrest) as (out & Hout & Hall').
    exists out. split; [exact Hout|]. cbn. constructor; assumption.
Qed.

Lemma interleave_outcome (sched : list nat) (pool : list (prog A)) :
  sat (interleave sched pool) (pool_outcome pool).
Proof.
  revert pool. induction sched as [|i sched IH]; intros pool; cbn [interleave].
  - apply settle_all_outcome.
  - destruct (nth_error pool i) as [[a|e|op k|url init k]|] eqn:Hi; try apply IH.
    + intros x. apply (sat_weaken (IH (replace_nth i (k x) pool))).
      intros t r (outs & -> & Hsh & Hall).
      destruct (executed_step pool i (Supabase op k) (k x) (ObsSupabase op x) outs Hi)
        as (out & Hout & Hall'); [|exact Hall|].
      { intros t' r' He. cbn. now exists x, t'. }
      exists (replace_nth i (ObsSupabase op x :: fst out, snd out) outs).
      repeat split; [| |exact Hall'].
      * rewrite map_replace_nth. cbn [snd].
        rewrite (replace_nth_same (map snd outs) i (snd out)); [reflexivity|].
        now rewrite nth_error_map, Hout.
      * apply (shuffle_step i (ObsSupabase op x) (fst out)).
        -- rewrite map_replace_nth. cbn [fst].
           apply nth_error_replace_nth with (a := fst out).
           now rewrite nth_error_map, Hout.
        -- rewrite map_replace_nth, replace_nth_again. cbn [fst].
           rewrite (replace_nth_same (map fst outs) i (fst out)); [exact Hsh|].
           now rewrite nth_error_map, Hout.
    + intros x. apply (sat_weaken (IH (replace_nth i (k x) pool))).
      intros t r (outs & -> & Hsh & Hall).
      destruct (executed_step pool i (Fetch url init k) (k x) (ObsFetch url init x) outs Hi)
        as (out & Hout & Hall'); [|exact Hall|].
      { intros t' r' He. cbn. now exists x, t'. }
      exists (replace_nth i (ObsFetch url init x :: fst out, snd out) outs).
      repeat split; [| |exact Hall'].
      * rewrite map_replace_nth. cbn [snd].
        rewrite (replace_nth_same (map snd outs) i (snd out)); [reflexivity|].
        now rewrite nth_error_map, Hout.
      * apply (shuffle_step i (ObsFetch url init x) (fst out)).
        -- rewrite map_replace_nth. cbn [fst].
           apply nth_error_replace_nth with (a := fst out).
           now rewrite nth_error_map, Hout.
        -- rewrite map_replace_nth, replace_nth_again. cbn [fst].
           rewrite (replace_nth_same (map fst outs) i (fst out)); [exact Hsh|].
           now rewrite nth_error_map, Hout.
Qed.

(** [Promise.all]: the bodies run interleaved, each to its end; the pool
    settles to the values of the bodies, in their order, or to the rejection
    of a body. *)
Lemma Promise_all_outcome (sched : list nat) (pool : list (prog A)) :
  sat (Promise_all sched pool)
      (fun t r => exists outs : list (list obs * JS.result A),
           r = collect (map snd outs)
           /\ shuffle (map fst outs) t
           /\ Forall2 executed pool outs).
Proof.
  unfold Promise_all. apply sat_bind.
  apply (sat_weaken (interleave_outcome sched pool)).
  intros t r (outs & -> & Hsh & Hall).
  destruct (collect (map snd outs)) as [e|l] eqn:E; cbn;
    exists outs; rewrite app_nil_r; auto.
Qed.

End PromiseFacts.

(* ===================================================================== *)
(** ** The tool executor *)
(* ===================================================================== *)

Section ToolFacts.

Variable JSON_parse : string -> JS.result value.

Local Abbreviation executeSingleTool := (Agent.executeSingleTool JSON_parse).
Local Abbreviation executeToolsParallel := (Agent.executeToolsParallel JSON_parse).
Local Abbreviation JSON_parse_value := (Agent.JSON_parse_value JSON_parse).

Lemma callable_fields (toolCall : value) :
  callable toolCall = true ->
  get toolCall "id" = inr (call_id toolCall)
  /\ forall k, function_field toolCall k = inr (get_opt (get_opt toolCall "function") k).
Proof.
  unfold callable, call_id, function_field. intros H.
  apply negb_true_iff in H.
  assert (Hn : nullish toolCall = false).
  { destruct toolCall; try reflexivity; cbn in H; discriminate. }
  split; [now apply get_defined|]. intros k.
  rewrite (get_defined toolCall "function" Hn). now apply get_defined.
Qed.

(** Each handler is a [try] around a strict body, with
    [catch (error) { result = { success: false, ... } }]. *)
Lemma guarded (body : prog handler_result) :
  strict body ->
  sat (try_catch body (fun e => Ret (failed e)))
      (fun t r => exists h, r = inr h
                            /\ (forall e, rejection t = Some e -> h = failed e)).
Proof. apply try_strict. Qed.

Lemma generate_poa_pdf_strict args userId :
  sat (generate_poa_pdf args userId)
      (fun t r => exists h, r = inr h
                            /\ (forall e, rejection t = Some e -> h = failed e)).
Proof. apply guarded. strictness. Qed.

Lemma create_task_strict args :
  sat (create_task args)
      (fun t r => exists h, r = inr h
                            /\ (forall e, rejection t = Some e -> h = failed e)).
Proof. apply guarded. strictness. Qed.

Lemma trigger_ocr_strict args :
  sat (trigger_ocr args)
      (fun t r => exists h, r = inr h
                            /\ (forall e, rejection t = Some e -> h = failed e)).
Proof. apply guarded. strictness. Qed.

Lemma update_master_data_strict args userId :
  sat (update_master_data args userId)
      (fun t r => exists h, r = inr h
                            /\ (forall e, rejection t = Some e -> h = failed e)).
Proof. apply guarded. strictness. Qed.

Lemma generate_archive_request_strict args userId :
  sat (generate_archive_request args userId)
      (fun t r => exists h, r = inr h
                            /\ (forall e, rejection t = Some e -> h = failed e)).
Proof. apply guarded. strictness. Qed.

Lemma create_oby_draft_strict args userId :
  sat (create_oby_draft args userId)
      (fun t r => exists h, r = inr h
                            /\ (forall e, rejection t = Some e -> h = failed e)).
Proof. apply guarded. strictness. Qed.

Lemma draft_wsc_response_strict args userId :
  sat (draft_wsc_response args userId)
      (fun t r => exists h, r = inr h
                            /\ (forall e, rejection t = Some e -> h = failed e)).
Proof. apply guarded. strictness. Qed.

Lemma generate_civil_acts_request_strict args userId :
  sat (generate_civil_acts_request args userId)
      (fun t r => exists h, r = inr h
                            /\ (forall e, rejection t = Some e -> h = failed e)).
Proof. apply guarded. strictness. Qed.

(** The [switch] never throws; after a call rejected with [e] its result
    is the failure of [e]. *)
Lemma dispatch_outcome toolName args userId :
  sat (dispatch toolName args userId)
      (fun t r => exists h, r = inr h
                            /\ (forall e, rejection t = Some e -> h = failed e)).
Proof.
  assert (Hunknown : sat (Ret unknown_tool)
            (fun t r => exists h, r = inr h
                                  /\ (forall e, rejection t = Some e -> h = failed e))).
  { cbn. exists unknown_tool. split; [reflexivity|discriminate]. }
  unfold dispatch. destruct toolName as [| |b|n|s|xs|props]; try exact Hunknown.
  repeat match goal with
         | |- sat (if ?b then _ else _) _ => destruct b
         end;
    auto using generate_poa_pdf_strict, create_task_strict, trigger_ocr_strict,
      update_master_data_strict, generate_archive_request_strict,
      create_oby_draft_strict, draft_wsc_response_strict,
      generate_civil_acts_request_strict.
Qed.

(** Of a value without a [function] member the body can read neither the
    arguments (in the [try]) nor the name (in the [catch]): it rejects at
    once, before any backend call. *)
Lemma executeSingleTool_rejects toolCall caseId userId :
  callable toolCall = false ->
  exists e, executeSingleTool toolCall caseId userId = Throw e.
Proof.
  unfold callable, Agent.executeSingleTool, function_field, get_opt.
  destruct toolCall as [| |b|n|s|xs|props]; cbn; try discriminate; eauto.
  destruct (lookup "function" props); cbn; try discriminate; eauto.
Qed.

(** One call: the body settles to a result that carries the identifier
    and the name of the call.  When [JSON.parse] throws on the arguments, no
    backend call is made and the result is the failure with the message of
    that error; when a backend call of the handler is rejected, the result is
    the failure the handler makes of that error. *)
Lemma executeSingleTool_outcome toolCall caseId userId :
  callable toolCall = true ->
  sat (executeSingleTool toolCall caseId userId)
      (fun t r => exists res,
           r = inr res
           /\ labelled toolCall res
           /\ (forall e, JSON_parse_value (call_arguments toolCall) = inl e ->
                         t = [] /\ result res = not_run e)
           /\ (forall e, rejection t = Some e -> result res = failed e)).
Proof.
  intros Hc. destruct (callable_fields toolCall Hc) as [Hid Hf].
  unfold Agent.executeSingleTool. rewrite !Hf, Hid.
  cbn [lift bind try_catch].
  fold (call_arguments toolCall). fold (call_name toolCall).
  destruct (JSON_parse_value (call_arguments toolCall)) as [e|args] eqn:Hargs.
  - cbn [lift bind try_catch sat].
    eexists. split; [reflexivity|]. split; [now split|]. split.
    + intros e' He'. inversion He'. now split.
    + discriminate.
  - cbn [lift bind try_catch].
    apply sat_try_catch, sat_bind.
    apply (sat_weaken (dispatch_outcome (call_name toolCall) args userId)).
    intros t r (h & -> & Hrej). cbn [sat]. rewrite app_nil_r.
    eexists. split; [reflexivity|]. split; [now split|]. split.
    + discriminate.
    + intros e He. cbn [result]. now apply Hrej.
Qed.

(** The batch: whatever the interleaving and the answers of the backend,
    the batch settles to one result per call; each is the result of its call
    alone on the answers that call received. *)
Lemma executeToolsParallel_outcome sched toolCalls caseId userId :
  forallb callable toolCalls = true ->
  sat (executeToolsParallel sched toolCalls caseId userId)
      (fun t r => exists outs : list (list obs * ToolResult),
           r = inr (map snd outs)
           /\ shuffle (map fst outs) t
           /\ Forall2 (fun toolCall o =>
                         labelled toolCall (snd o)
                         /\ isolated_result JSON_parse caseId userId toolCall (fst o) (snd o))
                toolCalls outs).
Proof.
  intros Hc. unfold Agent.executeToolsParallel.
  apply (sat_weaken (Promise_all_outcome sched _)).
  intros t r (outs & -> & Hsh & Hall).
  assert (H : exists outs' : list (list obs * ToolResult),
             outs = map (fun o => (fst o, inr (snd o))) outs'
             /\ Forall2 (fun toolCall o =>
                           labelled toolCall (snd o)
                           /\ isolated_result JSON_parse caseId userId toolCall (fst o) (snd o))
                  toolCalls outs').
  { clear Hsh. revert outs Hall.
    induction toolCalls as [|tc tcs IH]; intros outs Hall; cbn in *.
    - inversion Hall. exists []. split; [reflexivity|constructor].
    - apply andb_true_iff in Hc as [Htc Htcs].
      inversion Hall as [|? [ti ri] ? outs0 He Hrest]; subst.
      destruct (IH Htcs outs0 Hrest) as (outs' & -> & Hall').
      pose proof (sat_exec _ _ _ _ (executeSingleTool_outcome tc caseId userId Htc) He)
        as (res & Hres & Hlab & Hparse & Hrej).
      cbn in Hres. subst ri.
      exists ((ti, res) :: outs'). split; [reflexivity|].
      constructor; [|exact Hall'].
      split; [exact Hlab|]. split; [exact He|]. split; [exact Hparse|exact Hrej]. }
  destruct H as (outs' & -> & Hall').
  exists outs'. split; [|split; [|exact Hall']].
  - clear. induction outs' as [|o outs' IH]; [reflexivity|].
    cbn [map snd collect]. cbn [map snd] in IH. now rewrite IH.
  - rewrite map_map in Hsh. cbn [fst] in Hsh. now rewrite map_ext with (g := fst) in Hsh.
Qed.

(** C1.  Whatever the backend answers and however the calls interleave, a
    batch of tool calls settles to a list of results with one result per
    call, the i-th carrying the identifier and the tool name of the i-th
    call, whether the call succeeded or failed. *)
Theorem executeToolsParallel_aligned {S} (w : world S) (s : S) (sched : list nat)
  (toolCalls : list value) (caseId : value) (userId : string) :
  forallb callable toolCalls = true ->
  exists results,
    fst (fst (run w (executeToolsParallel sched toolCalls caseId userId) s)) = inr results
    /\ List.length results = List.length toolCalls
    /\ Forall2 labelled toolCalls results.
Proof.
  intros Hc.
  destruct (sat_run w _ _ s (executeToolsParallel_outcome sched toolCalls caseId userId Hc))
    as (outs & Hr & _ & Hall).
  exists (map snd outs). split; [exact Hr|].
  rewrite length_map. split.
  - symmetry. exact (Forall2_length Hall).
  - clear Hr Hc. induction Hall as [|tc o tcs outs [Hlab _] _ IH]; cbn [map]; constructor.
    + exact Hlab.
    + exact IH.
Qed.

(** C2, as the code has it.  In a batch of tool calls (values with a
    [function] member), whatever the backend answers and however the calls
    interleave: the batch does not reject; each call gets the result that
    this call alone produces on the answers it received, so that no call
    changes the result of a sibling; a call on whose arguments [JSON.parse]
    throws [e] makes no backend call and gets
    [{ success: false, message: e.message }]; a call one of whose backend
    calls is rejected with [e] gets
    [{ success: false, message: `Failed: ${e.message}` }]. *)
Theorem tool_failures_isolated {S} (w : world S) (s : S) (sched : list nat)
  (toolCalls : list value) (caseId : value) (userId : string) :
  forallb callable toolCalls = true ->
  exists outs : list (list obs * ToolResult),
    fst (fst (run w (executeToolsParallel sched toolCalls caseId userId) s))
    = inr (map snd outs)
    /\ shuffle (map fst outs)
         (snd (run w (executeToolsParallel sched toolCalls caseId userId) s))
    /\ Forall2 (fun toolCall o =>
                  isolated_result JSON_parse caseId userId toolCall (fst o) (snd o))
         toolCalls outs.
Proof.
  intros Hc.
  destruct (sat_run w _ _ s (executeToolsParallel_outcome sched toolCalls caseId userId Hc))
    as (outs & Hr & Hsh & Hall).
  exists outs. split; [exact Hr|]. split; [exact Hsh|].
  clear Hr Hsh Hc. induction Hall as [|tc o tcs outs [_ Hiso] _ IH]; constructor.
  - exact Hiso.
  - exact IH.
Qed.

Lemma registered_names_are :
  registered_names
  = ["generate_poa_pdf"; "create_task"; "trigger_ocr"; "update_master_data";
     "generate_archive_request"; "create_oby_draft"; "draft_wsc_response";
     "generate_civil_acts_request"].
Proof. reflexivity. Qed.

(** The [switch] recognises the names of the registry, and only those. *)
Lemma dispatch_unregistered toolName args userId :
  registered toolName = false ->
  dispatch toolName args userId = Ret unknown_tool.
Proof.
  unfold registered, dispatch. destruct toolName as [| |b|n|s|xs|props]; try reflexivity.
  rewrite registered_names_are. cbn [includes existsb].
  rewrite !(String.eqb_sym s).
  intros H. repeat (apply orb_false_iff in H as [-> H]). reflexivity.
Qed.

(** C9.  A call whose arguments parse and whose name is none of the eight
    registered ones: the body returns at once, without awaiting any backend
    call and without throwing, the result that carries the identifier and the
    name of the call and [{ success: false, message: 'Unknown tool' }]. *)
Theorem unknown_tool_result (toolCall caseId : value) (userId : string)
  (arguments args : value) :
  function_field toolCall "arguments" = inr arguments ->
  JSON_parse_value arguments = inr args ->
  registered (call_name toolCall) = false ->
  executeSingleTool toolCall caseId userId
  = Ret {| tool_call_id := call_id toolCall;
           name := call_name toolCall;
           result := unknown_tool |}.
Proof.
  intros Hf Hp Hn.
  assert (Hc : callable toolCall = true).
  { unfold callable, function_field, get_opt in *.
    destruct (get toolCall "function") as [e|f]; [discriminate|].
    destruct f; cbn in Hf |- *; try reflexivity; discriminate. }
  destruct (callable_fields toolCall Hc) as [Hid Hfields].
  unfold Agent.executeSingleTool.
  rewrite Hf, Hid, (Hfields "name"). fold (call_name toolCall).
  cbn [lift bind try_catch]. rewrite Hp. cbn [lift bind try_catch].
  rewrite (dispatch_unregistered _ args userId Hn). reflexivity.
Qed.

End ToolFacts.

(** *** On concrete batches *)

Section ToolExamples.

Lemma executeToolsParallel_aligned_witness :
  forallb callable example_batch = true
  /\ exists results,
       fst (fst (run (Store.backend functions_ok no_model)
                   (Agent.executeToolsParallel Json.parse [2; 0; 1] example_batch (VStr "C1") "system")
                   Store.empty))
       = inr results
       /\ List.length results = List.length example_batch
       /\ Forall2 labelled example_batch results.
Proof.
  split; [reflexivity|].
  apply (executeToolsParallel_aligned Json.parse (Store.backend functions_ok no_model)
           Store.empty [2; 0; 1] example_batch (VStr "C1") "system").
  reflexivity.
Defined.

Lemma tool_failures_isolated_witness :
  forallb callable example_batch = true
  /\ exists outs : list (list obs * ToolResult),
       fst (fst (run (Store.backend functions_ok no_model)
                   (Agent.executeToolsParallel Json.parse [1; 0] example_batch (VStr "C1") "system")
                   Store.empty))
       = inr (map snd outs)
       /\ shuffle (map fst outs)
            (snd (run (Store.backend functions_ok no_model)
                    (Agent.executeToolsParallel Json.parse [1; 0] example_batch (VStr "C1") "system")
                    Store.empty))
       /\ Forall2 (fun toolCall o =>
                     isolated_result Json.parse (VStr "C1") "system" toolCall (fst o) (snd o))
            example_batch outs.
Proof.
  split; [reflexivity|].
  apply (tool_failures_isolated Json.parse (Store.backend functions_ok no_model)
           Store.empty [1; 0] example_batch (VStr "C1") "system").
  reflexivity.
Defined.

Lemma unknown_tool_result_witness :
  Agent.executeSingleTool Json.parse (tool_call "call_3" "archive_case" "{}")
    (VStr "C1") "system"
  = Ret {| tool_call_id := VStr "call_3";
           name := VStr "archive_case";
           result := unknown_tool |}.
Proof.
  apply (unknown_tool_result Json.parse (tool_call "call_3" "archive_case" "{}")
           (VStr "C1") "system" (VStr "{}") (VObj [])); reflexivity.
Defined.

(** The example batch, run: the first call creates the task, the second
    (truncated arguments) fails alone, the third is unknown. *)
Example batch_results :
  fst (fst (run (Store.backend functions_ok no_model)
              (Agent.executeToolsParallel Json.parse [2; 0; 1] example_batch (VStr "C1") "system")
              Store.empty))
  = inr [ {| tool_call_id := VStr "call_1"; name := VStr "create_task";
             result := succeeded (check_mark ++ " Task created: Collect passport") |};
          {| tool_call_id := VStr "call_2"; name := VStr "create_task";
             result := {| success := false; message := "Unexpected token in JSON";
                          payload := [] |} |};
          {| tool_call_id := VStr "call_3"; name := VStr "archive_case";
             result := unknown_tool |} ].
Proof. reflexivity. Qed.

(** C2 as stated fails: arguments that are JSON but not an object (here
    the number 5) are accepted, and the handler reports a success. *)
Lemma non_object_arguments_accepted :
  Json.parse "5" = inr (VNum 5)
  /\ fst (fst (run (Store.backend functions_ok no_model)
                 (Agent.executeSingleTool Json.parse (tool_call "call_1" "trigger_ocr" "5")
                    (VStr "C1") "system")
                 Store.empty))
     = inr {| tool_call_id := VStr "call_1"; name := VStr "trigger_ocr";
              result := succeeded (check_mark ++ " OCR triggered") |}.
Proof. split; reflexivity. Qed.

End ToolExamples.

(* ===================================================================== *)
(** ** The conversation store and the streamed reply *)
(* ===================================================================== *)

Section CalmFacts.

Variable ok : obs -> bool.

Lemma calm_ret {A} (a : A) : calm ok (Ret a).
Proof. reflexivity. Qed.

Lemma calm_throw {A} (e : exn) : calm ok (@Throw A e).
Proof. reflexivity. Qed.

Lemma calm_lift {A} (r : JS.result A) : calm ok (lift r).
Proof. destruct r; reflexivity. Qed.

Lemma calm_await (op : supabase_op) :
  (forall r, ok (ObsSupabase op r) = true) -> calm ok (await op).
Proof.
  intros H x. unfold await. destruct x as [e|x]; cbn [sat lift forallb];
    rewrite H; reflexivity.
Qed.

Lemma calm_await_fetch (url : string) (init : value) :
  (forall r, ok (ObsFetch url init r) = true) -> calm ok (await_fetch url init).
Proof.
  intros H x. unfold await_fetch. destruct x as [e|x]; cbn [sat lift forallb];
    rewrite H; reflexivity.
Qed.

Lemma calm_bind {A B} (p : prog A) (f : A -> prog B) :
  calm ok p -> (forall a, calm ok (f a)) -> calm ok (bind p f).
Proof.
  intros Hp Hf. apply sat_bind. apply (sat_weaken Hp).
  intros t [e|a] Ht; [exact Ht|].
  apply (sat_weaken (Hf a)). intros t' r' Ht'.
  now rewrite forallb_app, Ht, Ht'.
Qed.

Lemma calm_try_catch {A} (p : prog A) (h : exn -> prog A) :
  calm ok p -> (forall e, calm ok (h e)) -> calm ok (try_catch p h).
Proof.
  intros Hp Hh. apply sat_try_catch. apply (sat_weaken Hp).
  intros t [e|a] Ht; [|exact Ht].
  apply (sat_weaken (Hh e)). intros t' r' Ht'.
  now rewrite forallb_app, Ht, Ht'.
Qed.

(** What holds of the calls of every body holds of those of the pool. *)
Lemma calm_Promise_all {A} (sched : list nat) (pool : list (prog A)) :
  Forall (calm ok) pool -> calm ok (Promise_all sched pool).
Proof.
  intros Hpool. apply (sat_weaken (Promise_all_outcome sched pool)).
  intros t r (outs & _ & Hsh & Hall).
  apply (shuffle_forallb ok _ _ Hsh).
  clear Hsh. rewrite Forall_forall. intros ti Hin.
  apply in_map_iff in Hin as (o & <- & Hin).
  revert o Hin. induction Hall as [|p o0 pool outs He _ IH]; intros o Hin.
  - contradiction.
  - inversion Hpool as [|? ? Hp Hpool']; subst.
    destruct Hin as [<-|Hin].
    + exact (sat_exec _ _ _ _ Hp He).
    + exact (IH Hpool' o Hin).
Qed.

End CalmFacts.

Ltac calm_step :=
  first
    [ apply calm_ret
    | apply calm_throw
    | apply calm_lift
    | apply calm_await; intro; reflexivity
    | apply calm_await_fetch; intro; reflexivity
    | apply calm_bind; [|intro]
    | apply calm_try_catch; [|intro]
    | progress cbv zeta
    | match goal with
      | |- calm _ (if ?b then _ else _) => destruct b
      | |- calm _ (match ?x with _ => _ end) => destruct x
      end ].

Ltac calmness := repeat calm_step.

Section StoreFacts.

Variable JSON_parse : string -> JS.result value.

Local Abbreviation executeSingleTool := (Agent.executeSingleTool JSON_parse).
Local Abbreviation executeToolsParallel := (Agent.executeToolsParallel JSON_parse).
Local Abbreviation readLoop := (Agent.readLoop JSON_parse).
Local Abbreviation processLine := (Agent.processLine JSON_parse).
Local Abbreviation streamStart := (Agent.streamStart JSON_parse).
Local Abbreviation respond := (Agent.respond JSON_parse).

(** The tools write to [hac_logs], [tasks], [archive_searches], [oby_forms]
    and [master_table]: never to the conversation store, and never the audit
    entry of a request. *)
Lemma executeSingleTool_quiet toolCall caseId userId :
  calm off_store (executeSingleTool toolCall caseId userId).
Proof.
  unfold Agent.executeSingleTool, dispatch, generate_poa_pdf, create_task, trigger_ocr,
    update_master_data, generate_archive_request, create_oby_draft, draft_wsc_response,
    generate_civil_acts_request.
  calmness.
Qed.

Lemma executeSingleTool_off_log toolCall caseId userId :
  calm off_log (executeSingleTool toolCall caseId userId).
Proof.
  unfold Agent.executeSingleTool, dispatch, generate_poa_pdf, create_task, trigger_ocr,
    update_master_data, generate_archive_request, create_oby_draft, draft_wsc_response,
    generate_civil_acts_request.
  calmness.
Qed.

Lemma executeToolsParallel_calm (ok : obs -> bool) sched toolCalls caseId userId :
  (forall toolCall, calm ok (executeSingleTool toolCall caseId userId)) ->
  calm ok (executeToolsParallel sched toolCalls caseId userId).
Proof.
  intros H. unfold Agent.executeToolsParallel. apply calm_Promise_all.
  rewrite Forall_forall. intros p Hp. apply in_map_iff in Hp as (tc & <- & _). apply H.
Qed.

Lemma executeToolsParallel_quiet sched toolCalls caseId userId :
  calm off_store (executeToolsParallel sched toolCalls caseId userId).
Proof.
  apply executeToolsParallel_calm. intros tc. apply executeSingleTool_quiet.
Qed.

Lemma quiet_saves_nothing (t : list obs) :
  forallb off_store t = true -> saved_messages t = [].
Proof.
  unfold saved_messages, inserts_into.
  induction t as [|o t IH]; [reflexivity|]. cbn [forallb flat_map].
  intros H. apply andb_true_iff in H as [Ho Ht]. rewrite (IH Ht), app_nil_r.
  destruct o as [[fn b|table rows|table row|table p c v|table cs c v|table cs c v
                 |table cs c v o l] r|url init r]; try reflexivity.
  cbn in Ho. apply negb_true_iff in Ho. now rewrite Ho.
Qed.

Lemma saved_messages_app (t1 t2 : list obs) :
  saved_messages (t1 ++ t2) = (saved_messages t1 ++ saved_messages t2)%list.
Proof. apply flat_map_app. Qed.

(** *** The streamed reply *)

Lemma forwarded_enqueue (ev : sse_event) (c c' : controller) :
  enqueue ev c = inr c' ->
  forwarded c' = (forwarded c ++ match ev with EvDelta d => [d] | _ => [] end)%list.
Proof.
  unfold enqueue, forwarded. destruct (writable c); [|discriminate].
  intros H. inversion H. cbn [enqueued]. rewrite flat_map_app. cbn. now rewrite app_nil_r.
Qed.


Lemma forwarded_close (c c' : controller) : close c = inr c' -> forwarded c' = forwarded c.
Proof.
  unfold close. destruct (writable c); [|discriminate]. intros H. now inversion H.
Qed.

Lemma forwarded_error_stream (e : exn) (c : controller) :
  forwarded (error_stream e c) = forwarded c.
Proof. unfold error_stream. now destruct (writable c). Qed.

(** [if (activeConversationId) { await insert(rows) }] *)
Lemma save_outcome (active rows : value) :
  sat (if truthy active
       then bind (await (Insert "ai_conversation_messages" rows)) (fun _ => Ret tt)
       else Ret tt)
      (fun t _ => saved_messages t = if truthy active then [rows] else []).
Proof.
  destruct (truthy active); [|reflexivity].
  intros [e|x]; reflexivity.
Qed.

(** The streamed reply on any controller.  When the first [enqueue]
    throws, [start] rejects at once.  Otherwise the stream ends with the
    deltas of the loop in it, and the conversation store was written at most
    once, after the loop, with the rows of the loop. *)
Lemma streamStart_course sched isNew active caseId prompt userId reply c0 :
  sat (streamStart sched isNew active caseId prompt userId reply c0)
      (fun t r =>
         match (if isNew && truthy active
                then enqueue (EvConversationId active) c0
                else ok c0) with
         | inl e => r = inr (error_stream e c0) /\ t = []
         | inr c1 =>
             let st := readLoop (chunks reply) (relay_start c1) in
             exists c,
               r = inr c
               /\ forwarded c = forwarded (output st)
               /\ saved_messages t
                  = match failure reply with
                    | Some _ => []
                    | None =>
                        if truthy active
                        then [message_rows active prompt (VStr (fullContent st))
                                (if (0 <? List.length (toolCalls st))%nat
                                 then VArr (toolCalls st) else VNull)]
                        else []
                    end
         end).
Proof.
  unfold Agent.streamStart.
  destruct (if isNew && truthy active
            then enqueue (EvConversationId active) c0
            else ok c0) as [e0|c1].
  { cbn. now split. }
  cbv zeta. set (st := readLoop (chunks reply) (relay_start c1)).
  destruct (failure reply) as [e|].
  { cbn. eexists. split; [reflexivity|]. split; [apply forwarded_error_stream|reflexivity]. }
  apply sat_try_catch, sat_bind.
  apply (sat_weaken (save_outcome active _)).
  intros t1 r1 Hsave. destruct r1 as [e|[]].
  { cbn. eexists. rewrite !app_nil_r.
    split; [reflexivity|]. split; [apply forwarded_error_stream|exact Hsave]. }
  apply sat_bind.
  assert (Htools :
    sat (if (0 <? List.length (toolCalls st))%nat && truthy caseId
         then bind (executeToolsParallel sched (toolCalls st) caseId userId)
                (fun toolResults => lift (enqueue (EvToolResults toolResults) (output st)))
         else Ret (output st))
        (fun t r => saved_messages t = []
                    /\ forall c, r = inr c -> forwarded c = forwarded (output st))).
  { destruct ((0 <? List.length (toolCalls st))%nat && truthy caseId).
    - apply sat_bind.
      apply (sat_weaken (executeToolsParallel_quiet sched (toolCalls st) caseId userId)).
      intros t [e|rs] Hq; cbn; rewrite ?app_nil_r.
      + split; [now apply quiet_saves_nothing|discriminate].
      + destruct (enqueue (EvToolResults rs) (output st)) as [e|c2] eqn:Henq; cbn;
          rewrite app_nil_r; (split; [now apply quiet_saves_nothing|]).
        * discriminate.
        * intros c Hc. inversion Hc; subst c.
          rewrite (forwarded_enqueue _ _ _ Henq). apply app_nil_r.
    - cbn. split; [reflexivity|]. intros c Hc. now inversion Hc. }
  apply (sat_weaken Htools).
  intros t2 r2 [Hq Hfw].
  assert (Hsaved : saved_messages (t1 ++ t2)
                   = if truthy active
                     then [message_rows active prompt (VStr (fullContent st))
                             (if (0 <? List.length (toolCalls st))%nat
                              then VArr (toolCalls st) else VNull)]
                     else []).
  { now rewrite saved_messages_app, Hq, app_nil_r. }
  destruct r2 as [e|c2].
  { cbn. rewrite !app_nil_r. eexists.
    split; [reflexivity|]. split; [apply forwarded_error_stream|exact Hsaved]. }
  cbn [sat bind lift].
  destruct (enqueue EvDone c2) as [e|c3] eqn:Hdone; cbn [sat bind lift].
  { cbn. rewrite !app_nil_r. eexists.
    split; [reflexivity|]. split; [apply forwarded_error_stream|exact Hsaved]. }
  destruct (close c3) as [e|c4] eqn:Hclose; cbn; rewrite !app_nil_r; eexists;
    (split; [reflexivity|]); (split; [|exact Hsaved]).
  - apply forwarded_error_stream.
  - rewrite (forwarded_close _ _ Hclose), (forwarded_enqueue _ _ _ Hdone), app_nil_r.
    now apply Hfw.
Qed.

Lemma opened_start (isNew : bool) (active : value) :
  (if isNew && truthy active
   then enqueue (EvConversationId active) new_controller
   else ok new_controller)
  = inr (opened isNew active).
Proof. unfold opened. destruct (isNew && truthy active); reflexivity. Qed.

(** The streamed reply on a stream just created: the stream ends with the
    deltas of the loop in it, and the conversation store was written at most
    once, after the loop, with the rows of the loop. *)
Lemma streamStart_outcome sched isNew active caseId prompt userId reply :
  sat (streamStart sched isNew active caseId prompt userId reply new_controller)
      (fun t r =>
         exists c,
           r = inr c
           /\ forwarded c = forwarded (output (stream_end JSON_parse isNew active reply))
           /\ saved_messages t
              = match failure reply with
                | Some _ => []
                | None => if truthy active
                          then [streamed_rows JSON_parse isNew active prompt reply]
                          else []
                end).
Proof.
  apply (sat_weaken
           (streamStart_course sched isNew active caseId prompt userId reply new_controller)).
  intros t r. rewrite opened_start. exact (fun H => H).
Qed.

(** The non-streaming reply: the conversation store is written once, with
    the rows of the completion, as soon as the completion was read. *)
Lemma respond_outcome sched active caseId action prompt userId completion message :
  completion_message completion = inr message ->
  nullish message = false ->
  sat (respond sched active caseId action prompt userId completion)
      (fun t _ => saved_messages t
                  = if truthy active then [replied_rows active prompt message] else []).
Proof.
  intros Hm Hn. unfold Agent.respond, replied_rows. rewrite Hm.
  cbn [lift bind]. rewrite !(get_defined message _ Hn).
  cbn [lift bind].
  apply sat_bind. apply (sat_weaken (save_outcome active _)).
  intros t1 r1 Hsave. destruct r1 as [e|[]]; [exact Hsave|].
  match goal with
  | |- sat ?p _ => assert (Hq : calm off_store p)
  end.
  { repeat first [apply executeToolsParallel_quiet | calm_step]. }
  apply (sat_weaken Hq). intros t2 r2 Ht2.
  now rewrite saved_messages_app, (quiet_saves_nothing _ Ht2), app_nil_r.
Qed.


(** C6, as the code has it.  After a successful model call, when a
    conversation is active ([activeConversationId] is truthy) the handler
    makes exactly one insert into the conversation store, of exactly two
    rows: the user message with the literal prompt and the assistant message
    with the full content and the tool calls; in the streaming path with what
    the loop accumulated over the whole upstream, in the non-streaming path
    with the completion.  When no conversation is active, nothing is
    written. *)
Theorem messages_saved_once {S} (w : world S) (s s' : S) (sched : list nat)
  (isNew : bool) (active caseId : value) (action prompt userId : string)
  (reply : upstream) (completion message : value) :
  failure reply = None ->
  completion_message completion = inr message ->
  nullish message = false ->
  saved_messages (snd (run w (streamStart sched isNew active caseId prompt userId reply
                                new_controller) s))
  = (if truthy active then [streamed_rows JSON_parse isNew active prompt reply] else [])
  /\ saved_messages (snd (run w (respond sched active caseId action prompt userId
                                   completion) s'))
     = (if truthy active then [replied_rows active prompt message] else []).
Proof.
  intros Hend Hm Hn. split.
  - destruct (sat_run w _ _ s
                (streamStart_outcome sched isNew active caseId prompt userId reply))
      as (c & _ & _ & Hsaved).
    now rewrite Hsaved, Hend.
  - exact (sat_run w _ _ s'
             (respond_outcome sched active caseId action prompt userId completion message
                Hm Hn)).
Qed.

(** *** The whole handler *)

Local Abbreviation handle := (Agent.handle JSON_parse).

Lemma streamStart_off_log sched isNew active caseId prompt userId reply c :
  calm off_log (streamStart sched isNew active caseId prompt userId reply c).
Proof.
  unfold Agent.streamStart.
  repeat first [ apply executeToolsParallel_calm; intro; apply executeSingleTool_off_log
               | calm_step ].
Qed.

(** A streamed request never writes its audit entry. *)
Lemma streamed_request_never_logged {S} (w : world S) (s : S) JSON_stringify_pretty
  (sched : list nat) (req : Request.t) (userId : string) :
  Request.stream req = true ->
  request_logs (snd (run w (handle JSON_stringify_pretty sched req userId) s)) = [].
Proof.
  intros Hstream.
  assert (Hcalm : calm off_log (handle JSON_stringify_pretty sched req userId)).
  { unfold Agent.handle. rewrite Hstream.
    repeat first [ apply streamStart_off_log | calm_step ]. }
  pose proof (sat_run w _ _ s Hcalm) as H. cbv beta in H.
  revert H. generalize (snd (run w (handle JSON_stringify_pretty sched req userId) s)).
  unfold request_logs, inserts_into.
  induction l as [|o t IH]; [reflexivity|]. cbn [forallb flat_map].
  intros H. apply andb_true_iff in H as [Ho Ht]. rewrite filter_app, (IH Ht), app_nil_r.
  destruct o as [[fn b|table rows|table row|table p c v|table cs c v|table cs c v
                 |table cs c v o l] r|url init r]; try reflexivity.
  cbn in Ho |- *. destruct (table =? "hac_logs"); [|reflexivity].
  cbn in Ho |- *. apply negb_true_iff in Ho. now rewrite Ho.
Qed.

Lemma saves_after_calm {A B} (Q : list value -> Prop) (p : prog A) (f : A -> prog B) :
  Q [] ->
  calm off_store p ->
  (forall a, sat (f a) (fun t _ => Q (saved_messages t))) ->
  sat (bind p f) (fun t _ => Q (saved_messages t)).
Proof.
  intros Hnil Hp Hf. apply sat_bind. apply (sat_weaken Hp).
  intros t1 [e|a] Ht1.
  - now rewrite (quiet_saves_nothing _ Ht1).
  - apply (sat_weaken (Hf a)). intros t2 r2 H2.
    now rewrite saved_messages_app, (quiet_saves_nothing _ Ht1).
Qed.

Lemma respond_saves sched active caseId action prompt userId completion :
  sat (respond sched active caseId action prompt userId completion)
      (fun t _ => one_exchange prompt (saved_messages t)).
Proof.
  unfold Agent.respond.
  destruct (completion_message completion) as [e|message]; [now left|].
  cbn [lift bind].
  destruct (get message "content") as [e|content]; [now left|]. cbn [lift bind].
  destruct (get message "tool_calls") as [e|toolCalls]; [now left|]. cbn [lift bind].
  apply sat_bind. apply (sat_weaken (save_outcome active _)).
  intros t1 r1 Hsave.
  assert (H1 : one_exchange prompt (saved_messages t1)).
  { rewrite Hsave. destruct (truthy active); [right; eauto|now left]. }
  destruct r1 as [e|[]]; [exact H1|].
  match goal with
  | |- sat ?p _ => assert (Hq : calm off_store p)
  end.
  { repeat first [apply executeToolsParallel_quiet | calm_step]. }
  apply (sat_weaken Hq). intros t2 r2 Ht2.
  now rewrite saved_messages_app, (quiet_saves_nothing _ Ht2), app_nil_r.
Qed.

(** Whatever the request and the answers of the backend, the handler
    writes to the conversation store at most once, and then the two rows of
    the exchange, the first with the literal prompt. *)
Lemma handle_saves_at_most_once {S} (w : world S) (s : S) JSON_stringify_pretty
  (sched : list nat) (req : Request.t) (userId : string) :
  one_exchange (Request.prompt req)
    (saved_messages (snd (run w (handle JSON_stringify_pretty sched req userId) s))).
Proof.
  apply (sat_run w (handle JSON_stringify_pretty sched req userId)
           (fun t _ => one_exchange (Request.prompt req) (saved_messages t)) s).
  unfold Agent.handle. cbv zeta. apply sat_try_catch.
  match goal with
  | |- sat ?p _ =>
      assert (H : sat p (fun t _ => one_exchange (Request.prompt req) (saved_messages t)))
  end.
  { repeat (apply saves_after_calm; [now left|calmness|intro]).
    destruct (Request.stream req).
    - apply saves_after_calm; [now left|calmness|intros aiResponse].
      destruct (negb (resp_ok aiResponse)); [now left|].
      apply sat_bind.
      apply (sat_weaken (streamStart_outcome sched _ _ _ _ userId (body aiResponse))).
      intros t r (c & -> & _ & Hsaved). cbn. rewrite app_nil_r, Hsaved.
      destruct (failure (body aiResponse)); [now left|].
      destruct (truthy _); [right; unfold streamed_rows; eauto|now left].
    - apply saves_after_calm; [now left|calmness|intros aiResponse].
      destruct (negb (resp_ok aiResponse)); [now left|].
      apply saves_after_calm; [now left|calmness|intros completion].
      apply respond_saves. }
  apply (sat_weaken H). intros t [e|a] Ht; [|exact Ht].
  cbn. now rewrite app_nil_r.
Qed.

End StoreFacts.

Lemma text_of_string (s : string) : text_of (VStr s) = s.
Proof. reflexivity. Qed.

(** *** On concrete streams and requests *)

Section StreamExamples.

Lemma malformed_line_skipped_witness :
  enqueued (output (readLoop Json.parse
                      [unlines [delta_line "Wit"]; unlines [broken_line; delta_line "aj"]]
                      (relay_start new_controller)))
  = (enqueued new_controller
     ++ map EvDelta (flat_map (fragment_of Json.parse) [delta_line "Wit"])
     ++ map EvDelta (flat_map (fragment_of Json.parse) [delta_line "aj"]))%list
  /\ forwarded (output (readLoop Json.parse
                          [unlines [delta_line "Wit"]; unlines [broken_line; delta_line "aj"]]
                          (relay_start new_controller)))
     = (forwarded new_controller
        ++ flat_map (fragment_of Json.parse) [delta_line "Wit"]
        ++ flat_map (fragment_of Json.parse) [delta_line "aj"])%list
  /\ Agent.status (output (readLoop Json.parse
                             [unlines [delta_line "Wit"];
                              unlines [broken_line; delta_line "aj"]]
                             (relay_start new_controller)))
     = Readable
  /\ fullContent (readLoop Json.parse
                    [unlines [delta_line "Wit"]; unlines [broken_line; delta_line "aj"]]
                    (relay_start new_controller))
     = concatenation (map text_of (flat_map (fragment_of Json.parse) [delta_line "Wit"]
                                   ++ flat_map (fragment_of Json.parse) [delta_line "aj"]))
  /\ readLoop Json.parse
       [unlines [delta_line "Wit"]; unlines [broken_line; delta_line "aj"]]
       (relay_start new_controller)
     = processLines Json.parse ([delta_line "Wit"] ++ [delta_line "aj"])
         (relay_start new_controller).
Proof.
  apply (malformed_line_skipped Json.parse new_controller
           [delta_line "Wit"] broken_line [delta_line "aj"]
           [unlines [delta_line "Wit"]; unlines [broken_line; delta_line "aj"]]
           (SyntaxError "Unexpected token in JSON")); reflexivity.
Defined.

(** The same stream, run: the two fragments around the line cut short are
    enqueued, in arrival order, and make up [fullContent]. *)
Example deltas_around_malformed_line :
  flat_map (fragment_of Json.parse) [delta_line "Wit"; broken_line; delta_line "aj"]
  = [VStr "Wit"; VStr "aj"]
  /\ enqueued (output (readLoop Json.parse
                         [unlines [delta_line "Wit"]; unlines [broken_line; delta_line "aj"]]
                         (relay_start new_controller)))
     = [EvDelta (VStr "Wit"); EvDelta (VStr "aj")]
  /\ fullContent (readLoop Json.parse
                    [unlines [delta_line "Wit"]; unlines [broken_line; delta_line "aj"]]
                    (relay_start new_controller))
     = "Witaj".
Proof. repeat split; vm_compute; reflexivity. Qed.

Lemma done_line_skipped_witness :
  readLoop Json.parse
    [unlines [delta_line "Wit"; done_line]; unlines [delta_line "aj"]]
    (relay_start new_controller)
  = processLines Json.parse ([delta_line "Wit"] ++ [delta_line "aj"])
      (relay_start new_controller).
Proof.
  apply (done_line_skipped Json.parse new_controller
           [delta_line "Wit"] done_line [delta_line "aj"]
           [unlines [delta_line "Wit"; done_line]; unlines [delta_line "aj"]]);
    reflexivity.
Defined.

(** C4 as stated fails: the chunk that ends with the sentinel is consumed,
    and the delta of the next chunk is enqueued all the same. *)
Lemma delta_forwarded_after_done :
  forwarded (output (readLoop Json.parse
                       [unlines [delta_line "Wit"; done_line]]
                       (relay_start new_controller)))
  = [VStr "Wit"]
  /\ forwarded (output (readLoop Json.parse
                          [unlines [delta_line "Wit"; done_line]; unlines [delta_line "aj"]]
                          (relay_start new_controller)))
     = [VStr "Wit"; VStr "aj"].
Proof. split; reflexivity. Qed.

(** A record cut in two by the transport is put together again. *)
Example split_record :
  readLoop Json.parse
    [Json.js "data: {'choices':[{'del"; Json.js "ta':{'content':'Witaj'}}]}" ++ String newline ""]
    (relay_start new_controller)
  = readLoop Json.parse [unlines [delta_line "Witaj"]] (relay_start new_controller).
Proof. reflexivity. Qed.

Lemma messages_saved_once_witness :
  saved_messages
    (snd (run (Store.backend functions_ok no_model)
            (streamStart Json.parse [] true (VStr "conv-1") (VStr "C1") "Hello" "system"
               {| chunks := [unlines [delta_line "Wit"]; unlines [delta_line "aj"; done_line]];
                  failure := None |}
               new_controller)
            Store.empty))
  = [message_rows (VStr "conv-1") "Hello" (VStr "Witaj") VNull]
  /\ saved_messages
       (snd (run (Store.backend functions_ok no_model)
               (respond Json.parse [] (VStr "conv-1") (VStr "C1") "eligibility_analysis"
                  "Hello" "system" (completion_of "Witaj"))
               Store.empty))
     = [message_rows (VStr "conv-1") "Hello" (VStr "Witaj") VNull].
Proof.
  apply (messages_saved_once Json.parse (Store.backend functions_ok no_model)
           Store.empty Store.empty [] true (VStr "conv-1") (VStr "C1")
           "eligibility_analysis" "Hello" "system"
           {| chunks := [unlines [delta_line "Wit"]; unlines [delta_line "aj"; done_line]];
              failure := None |}
           (completion_of "Witaj")
           (VObj [("role", VStr "assistant"); ("content", VStr "Witaj")]));
    reflexivity.
Defined.

(** C6 as stated fails: a valid request without a case and without a
    conversation is answered, and nothing is written to the conversation
    store. *)
Lemma request_without_conversation_saves_nothing :
  fst (fst (run (Store.backend functions_ok (completed (completion_of "No risks found.")))
              (handle Json.parse Json.stringify_pretty [] audit_request "system")
              Store.empty))
  = inr (JsonReply (VStr "No risks found.") VUndefined [])
  /\ saved_messages
       (snd (run (Store.backend functions_ok (completed (completion_of "No risks found.")))
               (handle Json.parse Json.stringify_pretty [] audit_request "system")
               Store.empty))
     = []
  /\ Store.rows "ai_conversation_messages"
       (snd (fst (run (Store.backend functions_ok (completed (completion_of "No risks found.")))
                    (handle Json.parse Json.stringify_pretty [] audit_request "system")
                    Store.empty)))
     = [].
Proof. repeat split; vm_compute; reflexivity. Qed.


(** C5 on a streamed request about a case: the reply is streamed to its end,
    the messages are saved, and no entry is written to [hac_logs]. *)
Theorem streamed_request_not_logged :
  (exists c,
      fst (fst (run (Store.backend functions_ok
                       (streamed [unlines [delta_line "Yes"; done_line]]))
                  (handle Json.parse Json.stringify_pretty [] (case_request true) "system")
                  case_store))
      = inr (StreamReply c)
      /\ Agent.status c = Closed
      /\ forwarded c = [VStr "Yes"])
  /\ inserts_into "hac_logs"
       (snd (run (Store.backend functions_ok
                    (streamed [unlines [delta_line "Yes"; done_line]]))
               (handle Json.parse Json.stringify_pretty [] (case_request true) "system")
               case_store))
     = []
  /\ List.length
       (saved_messages
          (snd (run (Store.backend functions_ok
                       (streamed [unlines [delta_line "Yes"; done_line]]))
                  (handle Json.parse Json.stringify_pretty [] (case_request true) "system")
                  case_store)))
     = 1%nat.
Proof.
  split; [|split]; [eexists; repeat split|..]; vm_compute; reflexivity.
Qed.

(** The same request, not streamed, is logged once. *)
Example plain_request_logged :
  inserts_into "hac_logs"
    (snd (run (Store.backend functions_ok (completed (completion_of "Yes")))
            (handle Json.parse Json.stringify_pretty [] (case_request false) "system")
            case_store))
  = [request_log (VStr "C1") "eligibility_analysis" "Is the client eligible?" "system"
       "Yes" (VNum 1) (VNum 0)].
Proof. vm_compute. reflexivity. Qed.

End StreamExamples.

(* ===================================================================== *)
(** ** Drafts of the citizenship application *)
(* ===================================================================== *)

Section RunFacts.

Context {S : Type} (w : world S).

Lemma run_bind {A B} (p : prog A) (f : A -> prog B) (s : S) :
  run w (bind p f) s
  = match run w p s with
    | (inl e, s1, t1) => (inl e, s1, t1)
    | (inr a, s1, t1) =>
        match run w (f a) s1 with
        | (r, s2, t2) => (r, s2, (t1 ++ t2)%list)
        end
    end.
Proof.
  revert s. induction p as [a|e|op k IH|url init k IH]; intros s; cbn [bind run].
  - destruct (run w (f a) s) as [[r s2] t2]. reflexivity.
  - reflexivity.
  - destruct (on_supabase w op s) as [x s1]. rewrite IH.
    destruct (run w (k x) s1) as [[[e|a] s2] t1]; [reflexivity|].
    destruct (run w (f a) s2) as [[r s3] t2]. reflexivity.
  - destruct (on_fetch w url init s) as [x s1]. rewrite IH.
    destruct (run w (k x) s1) as [[[e|a] s2] t1]; [reflexivity|].
    destruct (run w (f a) s2) as [[r s3] t2]. reflexivity.
Qed.

Lemma run_try_catch {A} (p : prog A) (h : exn -> prog A) (s : S) :
  run w (try_catch p h) s
  = match run w p s with
    | (inr a, s1, t1) => (inr a, s1, t1)
    | (inl e, s1, t1) =>
        match run w (h e) s1 with
        | (r, s2, t2) => (r, s2, (t1 ++ t2)%list)
        end
    end.
Proof.
  revert s. induction p as [a|e|op k IH|url init k IH]; intros s; cbn [try_catch run].
  - reflexivity.
  - destruct (run w (h e) s) as [[r s2] t2]. reflexivity.
  - destruct (on_supabase w op s) as [x s1]. rewrite IH.
    destruct (run w (k x) s1) as [[[e|a] s2] t1]; [|reflexivity].
    destruct (run w (h e) s2) as [[r s3] t2]. reflexivity.
  - destruct (on_fetch w url init s) as [x s1]. rewrite IH.
    destruct (run w (k x) s1) as [[[e|a] s2] t1]; [|reflexivity].
    destruct (run w (h e) s2) as [[r s3] t2]. reflexivity.
Qed.

End RunFacts.

Section FinalFacts.

Context {S : Type} (w : world S).

Lemma final_ret {A} (a : A) (s : S) : final w (Ret a) s = s.
Proof. reflexivity. Qed.



Lemma final_await (op : supabase_op) (s : S) :
  final w (await op) s = snd (on_supabase w op s).
Proof.
  unfold final, await. cbn [run].
  destruct (on_supabase w op s) as [[e|x] s1]; reflexivity.
Qed.

Lemma outcome_await (op : supabase_op) (s : S) :
  outcome w (await op) s = fst (on_supabase w op s).
Proof.
  unfold outcome, await. cbn [run].
  destruct (on_supabase w op s) as [[e|x] s1]; reflexivity.
Qed.

Lemma final_bind {A B} (p : prog A) (f : A -> prog B) (s : S) :
  final w (bind p f) s
  = match outcome w p s with
    | inl _ => final w p s
    | inr a => final w (f a) (final w p s)
    end.
Proof.
  unfold final, outcome. rewrite run_bind.
  destruct (run w p s) as [[[e|a] s1] t1]; [reflexivity|]. cbn [fst snd].
  destruct (run w (f a) s1) as [[r s2] t2]. reflexivity.
Qed.

Lemma outcome_bind {A B} (p : prog A) (f : A -> prog B) (s : S) :
  outcome w (bind p f) s
  = match outcome w p s with
    | inl e => inl e
    | inr a => outcome w (f a) (final w p s)
    end.
Proof.
  unfold final, outcome. rewrite run_bind.
  destruct (run w p s) as [[[e|a] s1] t1]; [reflexivity|]. cbn [fst snd].
  destruct (run w (f a) s1) as [[r s2] t2]. reflexivity.
Qed.



Lemma trace_await (op : supabase_op) (s : S) :
  trace w (await op) s = [ObsSupabase op (fst (on_supabase w op s))].
Proof.
  unfold trace, await. cbn [run].
  destruct (on_supabase w op s) as [[e|x] s1]; reflexivity.
Qed.

Lemma trace_bind {A B} (p : prog A) (f : A -> prog B) (s : S) :
  trace w (bind p f) s
  = match outcome w p s with
    | inl _ => trace w p s
    | inr a => (trace w p s ++ trace w (f a) (final w p s))%list
    end.
Proof.
  unfold trace, final, outcome. rewrite run_bind.
  destruct (run w p s) as [[[e|a] s1] t1]; [reflexivity|]. cbn [fst snd].
  destruct (run w (f a) s1) as [[r s2] t2]. reflexivity.
Qed.

Lemma trace_guarded {A} (p : prog A) (g : exn -> A) (s : S) :
  trace w (try_catch p (fun e => Ret (g e))) s = trace w p s.
Proof.
  unfold trace. rewrite run_try_catch.
  destruct (run w p s) as [[[e|a] s1] t1]; [|reflexivity].
  cbn. apply app_nil_r.
Qed.

End FinalFacts.

Section ValueFacts.

Lemma value_nested_ind (P : value -> Prop) :
  P VUndefined -> P VNull -> (forall b, P (VBool b)) -> (forall n, P (VNum n)) ->
  (forall s, P (VStr s)) ->
  (forall xs, Forall P xs -> P (VArr xs)) ->
  (forall props, Forall (fun kv => P (snd kv)) props -> P (VObj props)) ->
  forall v, P v.
Proof.
  intros Hu Hn Hb Hz Hs Ha Ho.
  fix IH 1. intros [| |b|n|s|xs|props].
  - exact Hu.
  - exact Hn.
  - apply Hb.
  - apply Hz.
  - apply Hs.
  - apply Ha. induction xs as [|x xs IHxs]; constructor; [apply IH|exact IHxs].
  - apply Ho. induction props as [|[k x] props IHp]; constructor; [apply IH|exact IHp].
Qed.

Lemma value_eqb_eq (a b : value) : Store.value_eqb a b = true <-> a = b.
Proof.
  revert b. induction a as [| |x|x|x|xs IH|ps IH] using value_nested_ind;
    intros [| |y|y|y|ys|qs]; cbn [Store.value_eqb];
    try (split; [discriminate|discriminate]); try (split; reflexivity).
  - rewrite Bool.eqb_true_iff. split; [now intros ->|now inversion 1].
  - rewrite Z.eqb_eq. split; [now intros ->|now inversion 1].
  - rewrite String.eqb_eq. split; [now intros ->|now inversion 1].
  - revert ys. induction IH as [|x xs Hx _ IHxs]; intros [|y ys].
    + split; reflexivity.
    + split; discriminate.
    + split; discriminate.
    + rewrite andb_true_iff, Hx. specialize (IHxs ys).
      split.
      * intros [-> H]. apply IHxs in H. now inversion H.
      * inversion 1; subst. split; [reflexivity|]. now apply IHxs.
  - revert qs. induction IH as [|[k x] ps Hx _ IHps]; intros [|[k' y] qs].
    + split; reflexivity.
    + split; discriminate.
    + split; discriminate.
    + rewrite !andb_true_iff, String.eqb_eq. cbn [snd] in Hx. rewrite Hx.
      specialize (IHps qs).
      split.
      * intros [[-> ->] H]. apply IHps in H. now inversion H.
      * inversion 1; subst. repeat split. now apply IHps.
Qed.


End ValueFacts.

Section TableFacts.

Import Store.












End TableFacts.

Section DraftFacts.

Import Store.













Section DraftRows.

Variables (c : string) (m a : value).




End DraftRows.






End DraftFacts.

Section DraftExamples.


(** The two invocations, run: the first creates the draft, the second
    updates it, by the identifier the first insert gave it. *)
Example draft_created_then_updated :
  let w := Store.backend functions_ok no_model in
  let first := Agent.executeSingleTool Json.parse draft_call_1 (VStr "C1") "system" in
  let second := Agent.executeSingleTool Json.parse draft_call_2 (VStr "C1") "system" in
  let master := VObj [("id", VNum 1); ("case_id", VStr "C1");
                      ("applicant_first_name", VStr "Jan")] in
  outcome w first master_store
  = inr {| tool_call_id := VStr "call_1"; name := VStr "create_oby_draft";
           result := succeeded (check_mark
                                ++ " OBY draft created with 1 auto-populated fields") |}
  /\ writes_to "oby_forms" (trace w first master_store)
     = [Insert "oby_forms"
          (draft_row (VStr "C1") master (VArr [VStr "applicant_first_name"]))]
  /\ outcome w second (final w first master_store)
     = inr {| tool_call_id := VStr "call_2"; name := VStr "create_oby_draft";
              result := succeeded (check_mark
                                   ++ " OBY draft updated with 0 auto-populated fields") |}
  /\ writes_to "oby_forms" (trace w second (final w first master_store))
     = [UpdateEq "oby_forms" (draft_row (VStr "C1") master VUndefined) "id" (VNum 2)]
  /\ Store.rows "oby_forms" (final w second (final w first master_store))
     = [VObj [("id", VNum 2); ("case_id", VStr "C1"); ("status", VStr "draft");
              ("form_data", master); ("auto_populated_fields", VArr []);
              ("hac_approved", VBool false)]].
Proof. repeat split; vm_compute; reflexivity. Qed.


End DraftExamples.

(* ===================================================================== *)
(** ** Further properties of the read loop *)
(* ===================================================================== *)

Section RelayMore.

Variable JSON_parse : string -> JS.result value.

Local Abbreviation processLine := (Agent.processLine JSON_parse).
Local Abbreviation processLines := (Agent.processLines JSON_parse).
Local Abbreviation readLoop := (Agent.readLoop JSON_parse).

Lemma other_line_inert (line : string) (st : relay_state) :
  startsWith "data: " line = false -> processLine line st = st.
Proof.
  intros H. unfold Agent.processLine. rewrite H.
  destruct (negb (truthy (VStr (trim line))) || startsWith ":" line); reflexivity.
Qed.

(** X1.  Only lines that begin with [data: ] are looked at: a blank line, a
    comment ([: keep-alive]), another field ([event: ...], [id: ...]) and a
    [data:] field written without the space are dropped, under any chunking;
    the loop ends in the state reached on the other lines alone. *)
Theorem other_lines_ignored (c : controller) (before : list string) (l : string)
  (after chunks : list string) :
  forallb is_line (before ++ l :: after) = true ->
  startsWith "data: " l = false ->
  stream_text chunks = unlines (before ++ l :: after) ->
  readLoop chunks (relay_start c) = processLines (before ++ after) (relay_start c).
Proof.
  intros Hl Hd Ht.
  apply (inert_line_dropped JSON_parse c before l after chunks); try assumption.
  intros st. now apply other_line_inert.
Qed.

Lemma split_nl_of_line (l : string) : is_line l = true -> split_nl l = [l].
Proof.
  induction l as [|ch l IH]; intros Hl; [reflexivity|].
  cbn [is_line] in Hl. apply andb_true_iff in Hl as [Hc Hl].
  cbn [split_nl]. apply negb_true_iff in Hc. rewrite Hc, (IH Hl). reflexivity.
Qed.

Lemma split_nl_unlines_tail (lines : list string) (tail : string) :
  forallb is_line lines = true ->
  is_line tail = true ->
  split_nl (unlines lines ++ tail) = (lines ++ [tail])%list.
Proof.
  intros Hl Ht. induction lines as [|l rest IH].
  - now apply split_nl_of_line.
  - cbn [forallb] in Hl. apply andb_true_iff in Hl as [H1 Hrest].
    cbn [unlines app]. rewrite append_assoc. cbn [append].
    rewrite split_nl_line by assumption. now rewrite IH.
Qed.

(** X2.  What follows the last newline of the upstream is never processed:
    when the text ends with a line that is not terminated, the loop ends in
    the state reached on the terminated lines, with the unterminated one left
    in the buffer (which nothing reads after the loop). *)
Theorem unterminated_line_held_back (c : controller) (lines : list string) (tail : string)
  (chunks : list string) :
  forallb is_line lines = true ->
  is_line tail = true ->
  stream_text chunks = unlines lines ++ tail ->
  readLoop chunks (relay_start c) = with_buffer tail (processLines lines (relay_start c)).
Proof.
  intros Hl Htail Ht.
  rewrite (readLoop_text JSON_parse), Ht. unfold relay_after.
  cbn [buffer relay_start append].
  rewrite split_nl_unlines_tail by assumption.
  rewrite removelast_last, last_last.
  apply processLines_with_buffer.
Qed.

Lemma continues_refl (st : relay_state) : continues st st.
Proof.
  exists [], []. cbn [map concatenation fold_right].
  now rewrite !app_nil_r, append_empty_r.
Qed.

Lemma continues_trans (a b c : relay_state) :
  continues a b -> continues b c -> continues a c.
Proof.
  intros (ds & fs & He & Hs & Hf & Ht) (ds' & fs' & He' & Hs' & Hf' & Ht').
  exists (ds ++ ds')%list, (fs ++ fs')%list.
  rewrite He', He, Hs', Hs, Hf', Hf, Ht', Ht.
  rewrite !map_app, concatenation_app, append_assoc, <- !app_assoc.
  repeat split.
Qed.

Lemma continues_forward (content : value) (text : string) (st : relay_state) :
  ToString content = inr text ->
  writable (output st) = true ->
  continues st (forward content text st).
Proof.
  intros Htext Hw. exists [content], []. unfold forward.
  rewrite (enqueue_writable _ _ Hw). cbn.
  unfold text_of. rewrite Htext. now rewrite app_nil_r, append_empty_r.
Qed.

Lemma continues_writable (st st' : relay_state) :
  continues st st' -> writable (output st') = writable (output st).
Proof. intros (ds & fs & _ & Hs & _). unfold writable. now rewrite Hs. Qed.

Lemma continues_push (xs : list value) (st : relay_state) :
  continues st (push_tool_calls xs st).
Proof.
  exists [], xs. cbn. now rewrite app_nil_r, append_empty_r.
Qed.

Lemma continues_with_buffer (b : string) (st : relay_state) :
  continues st (with_buffer b st).
Proof.
  exists [], []. cbn. now rewrite !app_nil_r, append_empty_r.
Qed.

Lemma processLine_continues (line : string) (st : relay_state) :
  writable (output st) = true ->
  continues st (processLine line st).
Proof.
  intros Hw. unfold Agent.processLine.
  destruct (negb (truthy (VStr (trim line))) || startsWith ":" line);
    [apply continues_refl|].
  destruct (negb (startsWith "data: " line)); [apply continues_refl|].
  destruct (trim (slice 6 line) =? "[DONE]"); [apply continues_refl|].
  destruct (extract_delta JSON_parse (trim (slice 6 line))) as [e|delta];
    [apply continues_refl|].
  assert (Hpush : forall st1, continues st st1 ->
            continues st (if truthy (get_opt delta "tool_calls")
                          then match spread (get_opt delta "tool_calls") with
                               | inl _ => st1
                               | inr xs => push_tool_calls xs st1
                               end
                          else st1)).
  { intros st1 H1. destruct (truthy (get_opt delta "tool_calls")); [|exact H1].
    destruct (spread (get_opt delta "tool_calls")) as [e|xs]; [exact H1|].
    apply (continues_trans _ _ _ H1), continues_push. }
  destruct (truthy (get_opt delta "content")).
  - unfold forward_content.
    destruct (ToString (get_opt delta "content")) as [e|text] eqn:Htext;
      [apply continues_refl|].
    rewrite Hw. apply Hpush. now apply continues_forward.
  - apply Hpush, continues_refl.
Qed.

Lemma processLines_continues (lines : list string) (st : relay_state) :
  writable (output st) = true ->
  continues st (processLines lines st).
Proof.
  revert st. induction lines as [|l lines IH]; intros st Hw; [apply continues_refl|].
  cbn [Agent.processLines fold_left].
  pose proof (processLine_continues l st Hw) as H1.
  apply (continues_trans _ _ _ H1), IH.
  now rewrite (continues_writable _ _ H1).
Qed.

Lemma readLoop_appends (chunks : list string) (st : relay_state) :
  writable (output st) = true ->
  continues st (readLoop chunks st).
Proof.
  revert st. induction chunks as [|c chunks IH]; intros st Hw; [apply continues_refl|].
  cbn [Agent.readLoop fold_left].
  assert (H1 : continues st (Agent.processChunk JSON_parse c st)).
  { unfold Agent.processChunk.
    eapply continues_trans; [apply continues_with_buffer|].
    apply processLines_continues. exact Hw. }
  refine (continues_trans _ _ _ H1 (IH _ _)).
  now rewrite (continues_writable _ _ H1).
Qed.

(** X3.  While the output stream takes events, the read loop only ever
    appends: to the stream it adds content-delta events and nothing else (it
    neither closes nor errors the stream, and enqueues no other kind of
    event); [fullContent] grows by the text of exactly those deltas; the
    tool-call fragments received are appended to [toolCalls] one by one, none
    merged with an earlier one. *)
Theorem readLoop_continues (chunks : list string) (st : relay_state) :
  writable (output st) = true ->
  continues st (readLoop chunks st).
Proof. apply readLoop_appends. Qed.

End RelayMore.

Section RelayMoreExamples.

Lemma readLoop_continues_witness :
  continues (relay_start new_controller)
    (Agent.readLoop Json.parse
       [unlines [delta_line "Wit"; ": keep-alive"]; unlines [delta_line "aj"; done_line]]
       (relay_start new_controller)).
Proof.
  apply (readLoop_continues Json.parse
           [unlines [delta_line "Wit"; ": keep-alive"]; unlines [delta_line "aj"; done_line]]
           (relay_start new_controller)).
  reflexivity.
Defined.

Lemma other_lines_ignored_witness :
  Agent.readLoop Json.parse
    [unlines [delta_line "Wit"; ": keep-alive"]; unlines [delta_line "aj"]]
    (relay_start new_controller)
  = Agent.processLines Json.parse ([delta_line "Wit"] ++ [delta_line "aj"])
      (relay_start new_controller).
Proof.
  apply (other_lines_ignored Json.parse new_controller
           [delta_line "Wit"] ": keep-alive" [delta_line "aj"]
           [unlines [delta_line "Wit"; ": keep-alive"]; unlines [delta_line "aj"]]);
    reflexivity.
Defined.

Lemma unterminated_line_held_back_witness :
  Agent.readLoop Json.parse
    [unlines [delta_line "Wit"]; delta_line "aj"]
    (relay_start new_controller)
  = with_buffer (delta_line "aj")
      (Agent.processLines Json.parse [delta_line "Wit"] (relay_start new_controller)).
Proof.
  apply (unterminated_line_held_back Json.parse new_controller
           [delta_line "Wit"] (delta_line "aj")
           [unlines [delta_line "Wit"]; delta_line "aj"]);
    reflexivity.
Defined.

(** The field [data:] written without a space is a legal event-stream field;
    the loop drops it. *)
Example data_without_space_dropped :
  forwarded (output (Agent.readLoop Json.parse
                       [unlines [Json.js "data:{'choices':[{'delta':{'content':'Hi'}}]}"]]
                       (relay_start new_controller)))
  = [].
Proof. reflexivity. Qed.

End RelayMoreExamples.

(* ===================================================================== *)
(** ** The context and the system prompt *)
(* ===================================================================== *)

Section ContextFacts.

Lemma truthy_not_nullish (v : value) : truthy v = true -> nullish v = false.
Proof. destruct v; cbn; intros H; try discriminate; reflexivity. Qed.

Lemma pick_keys (d : value) (keys : list string) (fields : list (string * value)) :
  pick d keys = inr fields -> map fst fields = keys.
Proof.
  revert fields. induction keys as [|k keys IH]; intros fields; cbn [pick].
  - intros H. now inversion H.
  - destruct (get d k) as [e|v]; [discriminate|].
    destruct (pick d keys) as [e|rest]; [discriminate|].
    intros H. inversion H. cbn. now rewrite (IH rest).
Qed.

Lemma pick_defined (d : value) (keys : list string) :
  nullish d = false -> exists fields, pick d keys = inr fields.
Proof.
  intros Hd. induction keys as [|k keys [rest IH]]; cbn [pick]; [now eexists|].
  rewrite (get_defined d k Hd), IH. now eexists.
Qed.

Lemma map_values_rows (keys : list string) (rows ys : list value) :
  map_values (fun d => match pick d keys with
                       | inl e => inl e
                       | inr props => ok (VObj props)
                       end) rows = inr ys ->
  List.length ys = List.length rows /\ Forall (has_keys keys) ys.
Proof.
  revert ys. induction rows as [|d rows IH]; intros ys; cbn [map_values].
  - intros H. inversion H. split; [reflexivity|constructor].
  - destruct (pick d keys) as [e|props] eqn:Hp; [discriminate|].
    destruct (map_values _ rows) as [e|ys'] eqn:Hm; [discriminate|].
    intros H. inversion H. destruct (IH ys' eq_refl) as [Hlen Hall].
    split; [cbn; now rewrite Hlen|].
    constructor; [|exact Hall]. exists props. split; [reflexivity|].
    now apply pick_keys with (d := d).
Qed.

Lemma map_values_defined (keys : list string) (rows : list value) :
  forallb (fun d => negb (nullish d)) rows = true ->
  exists ys,
    map_values (fun d => match pick d keys with
                         | inl e => inl e
                         | inr props => ok (VObj props)
                         end) rows = inr ys.
Proof.
  induction rows as [|d rows IH]; cbn [forallb map_values]; intros H; [now eexists|].
  apply andb_true_iff in H as [Hd Hrows]. apply negb_true_iff in Hd.
  destruct (pick_defined d keys Hd) as [props ->].
  destruct (IH Hrows) as [ys ->]. now eexists.
Qed.

(** What [caseData.k?.map(...) || []] gives when it gives something: one
    summary per row, each with the columns kept and no other. *)
Lemma summaries_rows (caseData : value) (k : string) (keys : list string) (v : value) :
  summaries caseData k keys = inr v ->
  exists ys, v = VArr ys
             /\ List.length ys = relation_size (get_opt caseData k)
             /\ Forall (has_keys keys) ys.
Proof.
  unfold summaries, get_opt. destruct (get caseData k) as [e|rows]; [discriminate|].
  destruct rows as [| |b|n|s|rows|props]; cbn; try discriminate;
    try (intros H; inversion H; exists []; repeat split; constructor).
  destruct (map_values _ rows) as [e|ys] eqn:Hm; [discriminate|].
  intros H. inversion H. exists ys. split; [reflexivity|].
  now apply map_values_rows.
Qed.

Lemma summaries_defined (caseData : value) (k : string) (keys : list string) :
  nullish caseData = false ->
  is_relation (get_opt caseData k) = true ->
  exists ys, summaries caseData k keys = inr (VArr ys).
Proof.
  intros Hd. unfold summaries. rewrite (get_defined caseData k Hd).
  destruct (get_opt caseData k) as [| |b|n|s|rows|props]; cbn; try discriminate;
    try (intros _; now eexists).
  intros Hrows. destruct (map_values_defined keys rows Hrows) as [ys ->]. now eexists.
Qed.

Lemma first_or_null_defined (caseData : value) (k : string) :
  nullish caseData = false -> exists v, first_or_null caseData k = inr v.
Proof.
  intros Hd. unfold first_or_null. rewrite (get_defined caseData k Hd). now eexists.
Qed.

Lemma lookup_app_skip (k : string) (l1 l2 : list (string * value)) :
  existsb (String.eqb k) (map fst l1) = false ->
  lookup k (l1 ++ l2) = lookup k l2.
Proof.
  induction l1 as [|[k' v] l1 IH]; cbn; [reflexivity|].
  intros H. apply orb_false_iff in H as [Hk H].
  rewrite String.eqb_sym, Hk. now apply IH.
Qed.

(** X4.  The context of a case has, in this order, the six fields of the
    case, then [intake] and [master_data], [documents], [tasks] and
    [wsc_letters] for the actions that ask for them and for no other, then
    [kpi]; it is built whenever the relations asked for are absent or arrays
    of rows. *)
Theorem context_keys_by_action (caseData : value) (action : string) :
  (action =? "security_audit") = false ->
  truthy caseData = true ->
  relations_ok action caseData = true ->
  exists fields,
    buildAgentContext caseData action = inr (VObj fields)
    /\ map fst fields = context_keys action.
Proof.
  intros Ha Ht Hrel. pose proof (truthy_not_nullish _ Ht) as Hd.
  unfold relations_ok, summarised in Hrel. cbn [forallb fst snd] in Hrel.
  apply andb_true_iff in Hrel as [Hdocs Hrel].
  apply andb_true_iff in Hrel as [Htasks Hrel].
  apply andb_true_iff in Hrel as [Hletters _].
  unfold buildAgentContext, context_keys, when. rewrite Ha, Ht. cbn [negb].
  destruct (pick_defined caseData
              ["client_name"; "client_code"; "status"; "current_stage";
               "processing_mode"; "country"] Hd) as [base Hbase].
  rewrite Hbase. cbn [rbind]. apply pick_keys in Hbase.
  destruct (first_or_null_defined caseData "intake_data" Hd) as [intake ->].
  destruct (first_or_null_defined caseData "master_table" Hd) as [master ->].
  rewrite !(get_defined caseData _ Hd).
  destruct (includes ["eligibility_analysis"; "comprehensive"; "auto_populate_forms"] action);
    cbn [rbind];
    (destruct (includes ["document_check"; "comprehensive"; "document_intelligence"] action);
     [destruct (summaries_defined caseData "documents"
                  ["id"; "name"; "type"; "category"; "person_type"; "is_verified";
                   "needs_translation"; "ocr_data"] Hd Hdocs) as [docs ->]|]);
    cbn [rbind];
    (destruct (includes ["task_suggest"; "comprehensive"] action);
     [destruct (summaries_defined caseData "tasks"
                  ["title"; "status"; "priority"; "due_date"] Hd Htasks) as [ts ->]|]);
    cbn [rbind];
    (destruct (includes ["wsc_strategy"; "comprehensive"] action);
     [destruct (summaries_defined caseData "wsc_letters"
                  ["letter_date"; "deadline"; "reference_number"; "strategy"] Hd Hletters)
        as [ws ->]|]);
    cbn [rbind];
    eexists; (split; [reflexivity|]);
    rewrite !map_app, Hbase; reflexivity.
Qed.

(** X5.  Of the rows of [documents], [tasks] and [wsc_letters] only the
    listed columns reach the model: whenever the context is built for an
    action that asks for a relation, the context holds one summary per row of
    the relation (none when the relation is absent), and each summary has
    exactly the columns kept, whatever else the row holds. *)
Theorem context_rows_are_projected (caseData : value) (action : string) (context : value)
  (relation : string) (columns actions : list string) :
  In (relation, (columns, actions)) summarised ->
  includes actions action = true ->
  (action =? "security_audit") = false ->
  buildAgentContext caseData action = inr context ->
  exists summaries,
    get_opt context relation = VArr summaries
    /\ List.length summaries = relation_size (get_opt caseData relation)
    /\ Forall (has_keys columns) summaries.
Proof.
  intros Hin Hinc Ha. unfold buildAgentContext, when. rewrite Ha.
  destruct (truthy caseData); cbn [negb]; [|discriminate].
  destruct (pick caseData _) as [e|base] eqn:Hbase; [discriminate|]. cbn [rbind].
  apply pick_keys in Hbase.
  assert (Hskip : forall k rest,
             existsb (String.eqb k)
               ["client_name"; "client_code"; "status"; "current_stage";
                "processing_mode"; "country"] = false ->
             lookup k (base ++ rest) = lookup k rest).
  { intros k rest Hk. apply lookup_app_skip. now rewrite Hbase. }
  destruct Hin as [H|[H|[H|[]]]]; inversion H; subst relation columns actions; clear H;
    rewrite Hinc;
    repeat match goal with
           | |- context [if includes ?l action then _ else _] => destruct (includes l action)
           end;
    repeat match goal with
           | |- context [first_or_null caseData ?k] =>
               destruct (first_or_null caseData k); [discriminate|]; cbn [rbind]
           end;
    repeat match goal with
           | |- context [summaries caseData ?k ?keys] =>
               let E := fresh "E" in
               destruct (summaries caseData k keys) eqn:E; [discriminate|]; cbn [rbind]
           end;
    repeat match goal with
           | |- context [get caseData ?k] =>
               destruct (get caseData k); [discriminate|]; cbn [rbind]
           end;
    intros Hctx; inversion Hctx; subst context; clear Hctx;
    unfold get_opt at 1; cbn [get]; rewrite Hskip by reflexivity; cbn [app lookup String.eqb
      Ascii.eqb Bool.eqb];
    match goal with
    | E : summaries caseData ?k ?keys = inr ?v |- _ =>
        destruct (summaries_rows caseData k keys v E) as (ys & -> & Hlen & Hall);
        exists ys; split; [reflexivity|split; assumption]
    end.
Qed.

End ContextFacts.

Section PromptFacts.

Lemma prompt_for_In (action : string) (table : list (string * string)) (p : string) :
  prompt_for action table = Some p -> In (action, p) table.
Proof.
  induction table as [|[k q] table IH]; cbn [prompt_for]; [discriminate|].
  destruct (k =? action) eqn:Hk.
  - apply String.eqb_eq in Hk. intros H. inversion H. subst. now left.
  - intros H. right. now apply IH.
Qed.

Lemma prompt_for_None (action : string) (table : list (string * string)) :
  includes (map fst table) action = false -> prompt_for action table = None.
Proof.
  unfold includes. induction table as [|[k q] table IH]; cbn; [reflexivity|].
  intros H. apply orb_false_iff in H as [Hk H].
  rewrite String.eqb_sym, Hk. now apply IH.
Qed.

Lemma actionPrompts_checked :
  forallb (fun kp => negb (snd kp =? "")
                     && ((fst kp =? "security_audit") || String.prefix basePrompt (snd kp)))
    actionPrompts = true.
Proof. vm_compute. reflexivity. Qed.

(** X6.  No action gets an empty system prompt; every action but
    [security_audit] gets a prompt that begins with the base instructions;
    an action without a prompt of its own gets the base instructions alone.
    (For an action named like a member every object inherits, the lookup
    [actionPrompts[action]] does not find a prompt; such names are left
    out.) *)
Theorem system_prompt_has_base (action : string) :
  includes inherited_names action = false ->
  getSystemPrompt action <> ""
  /\ (action <> "security_audit" ->
      String.prefix basePrompt (getSystemPrompt action) = true)
  /\ (includes (map fst actionPrompts) action = false ->
      getSystemPrompt action = basePrompt).
Proof.
  intros _.
  assert (Hbase : basePrompt <> "" /\ String.prefix basePrompt basePrompt = true).
  { split; [discriminate|vm_compute; reflexivity]. }
  destruct Hbase as [Hne Hpre].
  unfold getSystemPrompt.
  destruct (prompt_for action actionPrompts) as [p|] eqn:Hp.
  - apply prompt_for_In in Hp.
    pose proof actionPrompts_checked as Hall. rewrite forallb_forall in Hall.
    specialize (Hall _ Hp). cbn [fst snd] in Hall.
    apply andb_true_iff in Hall as [Hnp Hsp]. apply negb_true_iff in Hnp. rewrite Hnp.
    split; [|split].
    + intros ->. discriminate.
    + intros Ha. apply orb_true_iff in Hsp as [Hs|Hs]; [|exact Hs].
      apply String.eqb_eq in Hs. contradiction.
    + intros Hk. apply prompt_for_None in Hk.
      apply in_split in Hp as (l1 & l2 & Hp).
      exfalso. clear - Hk Hp. revert Hk. rewrite Hp. clear Hp.
      induction l1 as [|[k q] l1 IH]; cbn [app prompt_for].
      * rewrite String.eqb_refl. discriminate.
      * destruct (k =? action); [discriminate|exact IH].
  - repeat split; auto.
Qed.

End PromptFacts.

Section ContextExamples.

Lemma context_keys_by_action_witness :
  exists fields,
    buildAgentContext
      (VObj [("client_name", VStr "Jan Kowalski");
             ("documents", VArr [VObj [("id", VNum 7); ("name", VStr "passport.pdf");
                                       ("file_path", VStr "private/7.pdf")]])])
      "document_check"
    = inr (VObj fields)
    /\ map fst fields = context_keys "document_check".
Proof.
  apply (context_keys_by_action
           (VObj [("client_name", VStr "Jan Kowalski");
                  ("documents", VArr [VObj [("id", VNum 7); ("name", VStr "passport.pdf");
                                            ("file_path", VStr "private/7.pdf")]])])
           "document_check"); reflexivity.
Defined.

Lemma context_rows_are_projected_witness :
  exists summaries,
    get_opt
      (VObj [("client_name", VUndefined); ("client_code", VUndefined);
             ("status", VUndefined); ("current_stage", VUndefined);
             ("processing_mode", VUndefined); ("country", VUndefined);
             ("documents",
              VArr [VObj [("id", VNum 7); ("name", VStr "passport.pdf");
                          ("type", VUndefined); ("category", VUndefined);
                          ("person_type", VUndefined); ("is_verified", VUndefined);
                          ("needs_translation", VUndefined); ("ocr_data", VUndefined)]]);
             ("kpi", VObj [("tasks_total", VUndefined); ("tasks_completed", VUndefined);
                           ("docs_percentage", VUndefined); ("poa_approved", VUndefined)])])
      "documents"
    = VArr summaries
    /\ List.length summaries
       = relation_size
           (get_opt
              (VObj [("documents",
                      VArr [VObj [("id", VNum 7); ("name", VStr "passport.pdf");
                                  ("file_path", VStr "private/7.pdf")]])])
              "documents")
    /\ Forall (has_keys ["id"; "name"; "type"; "category"; "person_type"; "is_verified";
                         "needs_translation"; "ocr_data"])
         summaries.
Proof.
  apply (context_rows_are_projected
           (VObj [("documents",
                   VArr [VObj [("id", VNum 7); ("name", VStr "passport.pdf");
                               ("file_path", VStr "private/7.pdf")]])])
           "document_check" _ "documents" _
           ["document_check"; "comprehensive"; "document_intelligence"]);
    [left; reflexivity|reflexivity|reflexivity|reflexivity].
Defined.

Lemma system_prompt_has_base_witness :
  getSystemPrompt "translator" <> ""
  /\ ("translator" <> "security_audit" ->
      String.prefix basePrompt (getSystemPrompt "translator") = true)
  /\ (includes (map fst actionPrompts) "translator" = false ->
      getSystemPrompt "translator" = basePrompt).
Proof. apply (system_prompt_has_base "translator"). reflexivity. Defined.

End ContextExamples.

(* ===================================================================== *)
(** ** Further properties of the tool executor *)
(* ===================================================================== *)

Section SettleFacts.

Lemma sat_True {A} (p : prog A) : sat p (fun _ _ => True).
Proof. induction p as [a|e|op k IH|url init k IH]; cbn; auto. Qed.

Lemma settles_bind {A B} (Q : JS.result B -> Prop) (p : prog A) (f : A -> prog B) :
  (forall e, Q (inl e)) -> (forall a, settles Q (f a)) -> settles Q (bind p f).
Proof.
  intros He Hf. apply sat_bind. apply (sat_weaken (sat_True p)).
  intros t [e|a] _; [apply He|].
  apply (sat_weaken (Hf a)). auto.
Qed.

Lemma settles_try_catch {A} (Q : JS.result A -> Prop) (p : prog A) (h : exn -> prog A) :
  settles (fun r => match r with
                    | inl e => settles Q (h e)
                    | inr a => Q (inr a)
                    end) p ->
  settles Q (try_catch p h).
Proof.
  intros Hp. apply sat_try_catch. apply (sat_weaken Hp).
  intros t [e|a] H; [|exact H]. apply (sat_weaken H). auto.
Qed.

Lemma settles_run {S A} (w : world S) (Q : JS.result A -> Prop) (p : prog A) (s : S) :
  settles Q p -> Q (outcome w p s).
Proof. intros H. exact (sat_run w p _ s H). Qed.

Lemma calm_weaken {A} (ok ok' : obs -> bool) (p : prog A) :
  (forall o, ok o = true -> ok' o = true) -> calm ok p -> calm ok' p.
Proof.
  intros H Hp. apply (sat_weaken Hp). intros t _ Ht.
  rewrite forallb_forall in Ht |- *. auto.
Qed.

Lemma calm_supabase {A} (ok : obs -> bool) (op : supabase_op)
  (k : JS.result pg_response -> prog A) :
  (forall r, ok (ObsSupabase op r) = true) ->
  (forall r, calm ok (k r)) ->
  calm ok (Supabase op k).
Proof.
  intros Hop Hk r. apply (sat_weaken (Hk r)). intros t _ Ht. cbn. now rewrite Hop, Ht.
Qed.

Lemma calm_fetch {A} (ok : obs -> bool) (url : string) (init : value)
  (k : JS.result http_response -> prog A) :
  (forall r, ok (ObsFetch url init r) = true) ->
  (forall r, calm ok (k r)) ->
  calm ok (Fetch url init k).
Proof.
  intros Hop Hk r. apply (sat_weaken (Hk r)). intros t _ Ht. cbn. now rewrite Hop, Ht.
Qed.

Lemma calm_run {S A} (w : world S) (ok : obs -> bool) (p : prog A) (s : S) :
  calm ok p -> forallb ok (snd (run w p s)) = true.
Proof. intros H. exact (sat_run w p _ s H). Qed.

Lemma prefix_append (a b : string) : String.prefix a (a ++ b) = true.
Proof.
  induction a as [|c a IH]; cbn; [now destruct b|].
  destruct (ascii_dec c c) as [_|N]; [exact IH|contradiction].
Qed.

Lemma value_eqb_refl (v : value) : Store.value_eqb v v = true.
Proof. now apply value_eqb_eq. Qed.

End SettleFacts.

Ltac calm_by side :=
  repeat first
    [ apply calm_ret
    | apply calm_throw
    | apply calm_lift
    | apply calm_await; side
    | apply calm_await_fetch; side
    | apply calm_bind; [|intro]
    | apply calm_try_catch; [|intro]
    | progress cbv zeta
    | match goal with
      | |- calm _ (if ?b then _ else _) => destruct b
      | |- calm _ (match ?x with _ => _ end) => destruct x
      end ].

Section ToolMore.

Variable JSON_parse : string -> JS.result value.

Local Abbreviation executeSingleTool := (Agent.executeSingleTool JSON_parse).
Local Abbreviation executeToolsParallel := (Agent.executeToolsParallel JSON_parse).
Local Abbreviation JSON_parse_value := (Agent.JSON_parse_value JSON_parse).

(** *** The shape of a call's body *)

(** The body of a call that carries a [function] member: parse, dispatch,
    label. *)
Lemma executeSingleTool_callable toolCall caseId userId :
  callable toolCall = true ->
  executeSingleTool toolCall caseId userId
  = match JSON_parse_value (call_arguments toolCall) with
    | inl error =>
        Ret {| tool_call_id := call_id toolCall;
               name := call_name toolCall;
               result := {| success := false; message := JS.message error;
                            payload := [] |} |}
    | inr args =>
        try_catch
          (bind (dispatch (call_name toolCall) args userId)
             (fun result =>
                Ret {| tool_call_id := call_id toolCall;
                       name := call_name toolCall;
                       result := result |}))
          (fun error =>
             Ret {| tool_call_id := call_id toolCall;
                    name := call_name toolCall;
                    result := {| success := false; message := JS.message error;
                                 payload := [] |} |})
    end.
Proof.
  intros Hc. destruct (callable_fields toolCall Hc) as [Hid Hf].
  unfold Agent.executeSingleTool. rewrite !Hf, Hid.
  fold (call_arguments toolCall). fold (call_name toolCall).
  cbn [lift bind try_catch].
  destruct (JSON_parse_value (call_arguments toolCall)) as [e|args]; reflexivity.
Qed.

(** *** Each tool keeps to its tables *)

Lemma dispatch_within toolName args userId :
  calm (within toolName) (dispatch toolName args userId).
Proof.
  destruct toolName as [| |b|n|s|xs|props]; try apply calm_ret.
  unfold dispatch, within, footprint.
  repeat match goal with
         | |- calm _ (if ?b then _ else _) => destruct b
         end;
    unfold generate_poa_pdf, create_task, trigger_ocr, update_master_data,
      generate_archive_request, create_oby_draft, draft_wsc_response,
      generate_civil_acts_request;
    calmness.
Qed.

Lemma executeSingleTool_within toolCall caseId userId :
  calm (within (call_name toolCall)) (executeSingleTool toolCall caseId userId).
Proof.
  destruct (callable toolCall) eqn:Hc.
  - rewrite (executeSingleTool_callable _ _ _ Hc).
    destruct (JSON_parse_value (call_arguments toolCall)) as [e|args]; [apply calm_ret|].
    apply calm_try_catch; [|intro; apply calm_ret].
    apply calm_bind; [apply dispatch_within|intro; apply calm_ret].
  - destruct (executeSingleTool_rejects JSON_parse toolCall caseId userId Hc) as [e ->].
    apply calm_throw.
Qed.

(** X7.  Each tool keeps to its own tables: whatever the arguments, the
    answers of the backend and the interleaving, every backend call made
    while a batch is executed is a call of the Supabase client that lies in
    the footprint of one of the tools named in the batch (for instance
    [create_task] only inserts into [tasks]; no tool reads [cases] or the
    conversation tables, calls the model, or deletes anything; a name that is
    not registered touches nothing). *)
Theorem tools_keep_to_their_tables {S} (w : world S) (s : S) (sched : list nat)
  (toolCalls : list value) (caseId : value) (userId : string) :
  forallb (fun o => existsb (fun toolCall => within (call_name toolCall) o) toolCalls)
    (snd (run w (executeToolsParallel sched toolCalls caseId userId) s))
  = true.
Proof.
  apply calm_run. unfold Agent.executeToolsParallel. apply calm_Promise_all.
  rewrite Forall_forall. intros p Hp. apply in_map_iff in Hp as (tc & <- & Hin).
  apply (calm_weaken (within (call_name tc))); [|apply executeSingleTool_within].
  intros o Ho. apply existsb_exists. now exists tc.
Qed.

(** *** A tool acts on the case its arguments name *)

Lemma dispatch_scoped toolName args userId :
  calm (scoped (get_opt args "caseId") userId) (dispatch toolName args userId).
Proof.
  destruct toolName as [| |b|n|s|xs|props]; try apply calm_ret.
  unfold dispatch.
  destruct (nullish args) eqn:Hn.
  - assert (Hget : forall k, exists e, get args k = inl e).
    { destruct args; try discriminate; intros k; eexists; reflexivity. }
    repeat match goal with
           | |- calm _ (if ?b then _ else _) => destruct b
           end;
      unfold generate_poa_pdf, create_task, trigger_ocr, update_master_data,
        generate_archive_request, create_oby_draft, draft_wsc_response,
        generate_civil_acts_request;
      try apply calm_ret;
      match goal with
      | |- context [lift (get args ?k)] => destruct (Hget k) as [e ->]
      end;
      apply calm_ret.
  - repeat match goal with
           | |- calm _ (if ?b then _ else _) => destruct b
           end;
      unfold generate_poa_pdf, create_task, trigger_ocr, update_master_data,
        generate_archive_request, create_oby_draft, draft_wsc_response,
        generate_civil_acts_request;
      try apply calm_ret;
      rewrite !(get_defined args _ Hn); cbn [lift bind];
      generalize (get_opt args "caseId"); intros cid;
      calm_by ltac:(intro; cbn; rewrite ?value_eqb_refl, ?String.eqb_refl; reflexivity).
Qed.

(** X8.  A tool acts on the case named in its own arguments and in the
    name of the caller: once the arguments are parsed, every row the call
    inserts carries [case_id: args.caseId] (and [performed_by: userId] in
    [hac_logs]), [master_table] is read and updated where [case_id] is
    [args.caseId], and [generate-poa] is invoked for [args.caseId] -
    whatever [caseId] the executor was called with. *)
Theorem tool_acts_on_case_of_arguments {S} (w : world S) (s : S)
  (toolCall caseId : value) (userId : string) (args : value) :
  JSON_parse_value (call_arguments toolCall) = inr args ->
  forallb (scoped (get_opt args "caseId") userId)
    (snd (run w (executeSingleTool toolCall caseId userId) s))
  = true.
Proof.
  intros Hargs. apply calm_run.
  destruct (callable toolCall) eqn:Hc.
  - rewrite (executeSingleTool_callable _ _ _ Hc), Hargs.
    apply calm_try_catch; [|intro; apply calm_ret].
    apply calm_bind; [apply dispatch_scoped|intro; apply calm_ret].
  - destruct (executeSingleTool_rejects JSON_parse toolCall caseId userId Hc) as [e ->].
    apply calm_throw.
Qed.

(** *** A registered tool is handled *)

Lemma handled_failed (e : exn) : handled (failed e).
Proof. right. split; [reflexivity|]. apply (prefix_append "Failed: "). Qed.

Lemma handled_succeeded (m : string) : handled (succeeded (check_mark ++ m)).
Proof. left. split; [reflexivity|]. apply prefix_append. Qed.

Lemma settles_handler (body : prog handler_result) :
  settles (fun r => match r with inl _ => True | inr h => handled h end) body ->
  settles (fun r => exists h, r = inr h /\ handled h)
    (try_catch body (fun e => Ret (failed e))).
Proof.
  intros H. apply settles_try_catch. apply (sat_weaken H).
  intros t [e|h] Hh.
  - cbn. exists (failed e). split; [reflexivity|apply handled_failed].
  - now exists h.
Qed.

Lemma dispatch_handled toolName args userId :
  registered toolName = true ->
  settles (fun r => exists h, r = inr h /\ handled h) (dispatch toolName args userId).
Proof.
  unfold registered, dispatch.
  destruct toolName as [| |b|n|s|xs|props]; try discriminate.
  rewrite registered_names_are. cbn [includes existsb].
  intros Hreg.
  repeat match goal with
         | |- settles _ (if ?b then _ else _) => destruct b
         end;
    try discriminate;
    unfold generate_poa_pdf, create_task, trigger_ocr, update_master_data,
      generate_archive_request, create_oby_draft, draft_wsc_response,
      generate_civil_acts_request;
    apply settles_handler;
    repeat first
      [ apply settles_bind; [intro; exact I|intro]
      | progress cbv zeta
      | match goal with
        | |- settles _ (if ?b then _ else _) => destruct b
        | |- settles _ (match ?x with _ => _ end) => destruct x
        | |- settles _ (Throw _) => exact I
        | |- settles _ (Ret (succeeded (check_mark ++ _))) => apply handled_succeeded
        | |- settles _ (Ret _) => left; split; [reflexivity|apply prefix_append]
        end ].
Qed.

Lemma handled_not_unknown (h : handler_result) :
  handled h -> message h <> "Unknown tool".
Proof.
  intros [[_ H]|[_ H]] E; rewrite E in H; vm_compute in H; discriminate.
Qed.

(** X9.  Every tool the registry advertises has its handler: for a call
    that names a registered tool and whose arguments parse, the body settles,
    whatever the backend answers, to a result labelled with the call whose
    [result] is either a success announced by the check mark or a failure
    [Failed: ...] - never the [Unknown tool] answer. *)
Theorem registered_tool_is_handled {S} (w : world S) (s : S)
  (toolCall caseId : value) (userId : string) (args : value) :
  registered (call_name toolCall) = true ->
  JSON_parse_value (call_arguments toolCall) = inr args ->
  exists res,
    outcome w (executeSingleTool toolCall caseId userId) s = inr res
    /\ labelled toolCall res
    /\ handled (result res)
    /\ message (result res) <> "Unknown tool".
Proof.
  intros Hreg Hargs.
  assert (Hc : callable toolCall = true).
  { unfold registered, call_name, callable in *.
    destruct (get_opt toolCall "function"); try reflexivity; discriminate. }
  apply (settles_run w
           (fun r => exists res, r = inr res /\ labelled toolCall res
                                 /\ handled (result res)
                                 /\ message (result res) <> "Unknown tool")).
  rewrite (executeSingleTool_callable _ _ _ Hc), Hargs.
  apply settles_try_catch, sat_bind.
  apply (sat_weaken (dispatch_handled (call_name toolCall) args userId Hreg)).
  intros t r (h & -> & Hh). cbn.
  eexists. split; [reflexivity|]. split; [now split|].
  split; [exact Hh|now apply handled_not_unknown].
Qed.

(** *** A call without a [function] member *)

Lemma collect_rejected {A} (pool : list (prog A)) (outs : list (list obs * JS.result A)) :
  Forall2 executed pool outs ->
  (exists p e, In p pool /\ p = Throw e) ->
  exists e, collect (map snd outs) = inl e.
Proof.
  induction 1 as [|p [t r] pool outs He _ IH]; intros (q & e & Hin & Hq).
  - contradiction.
  - cbn [map snd collect]. destruct r as [e'|a]; [now exists e'|].
    destruct Hin as [<-|Hin].
    + subst p. destruct He as [_ He]. discriminate.
    + destruct IH as [e' ->]; [now exists q, e|]. now exists e'.
Qed.

(** X10.  The isolation of failures stops at a call that has no [function]
    member: its body cannot name the tool even in its [catch], so it rejects,
    and [Promise.all] rejects with it - the whole batch settles to an error
    and the results of the other calls are lost. *)
Theorem malformed_call_rejects_batch {S} (w : world S) (s : S) (sched : list nat)
  (toolCalls : list value) (caseId : value) (userId : string) :
  forallb callable toolCalls = false ->
  exists e, outcome w (executeToolsParallel sched toolCalls caseId userId) s = inl e.
Proof.
  intros Hc. apply (settles_run w (fun r => exists e, r = inl e)).
  unfold Agent.executeToolsParallel.
  apply (sat_weaken (Promise_all_outcome sched _)).
  intros t r (outs & -> & _ & Hall).
  apply (collect_rejected _ _ Hall).
  clear - Hc. induction toolCalls as [|tc tcs IH]; [discriminate|].
  cbn [forallb] in Hc. apply andb_false_iff in Hc as [Hc|Hc].
  - destruct (executeSingleTool_rejects JSON_parse tc caseId userId Hc) as [e He].
    exists (executeSingleTool tc caseId userId), e. split; [now left|exact He].
  - destruct (IH Hc) as (p & e & Hin & Hp). exists p, e. split; [now right|exact Hp].
Qed.

End ToolMore.

(* ===================================================================== *)
(** ** The handlers, one at a time *)
(* ===================================================================== *)

Section HandlerFacts.

(** X11.  A power of attorney whose generation failed is not logged: the
    handler writes its [poa_generated] entry to [hac_logs] only after the
    edge function [generate-poa] has answered, and answered without an
    error. *)
Theorem failed_generation_is_not_logged {S} (w : world S) (s : S) (args : value)
  (userId : string) :
  inserts_into "hac_logs" (snd (run w (generate_poa_pdf args userId) s)) <> [] ->
  exists body answer rest,
    snd (run w (generate_poa_pdf args userId) s)
    = ObsSupabase (FunctionsInvoke "generate-poa" body) (inr answer) :: rest
    /\ Async.error answer = None.
Proof.
  apply (sat_run w (generate_poa_pdf args userId)
           (fun t _ => inserts_into "hac_logs" t <> [] ->
                       exists body answer rest,
                         t = ObsSupabase (FunctionsInvoke "generate-poa" body) (inr answer)
                             :: rest
                         /\ Async.error answer = None) s).
  unfold generate_poa_pdf.
  destruct (get args "caseId") as [e|caseId]; [intros H; now contradiction H|].
  destruct (get args "poaType") as [e|poaType]; [intros H; now contradiction H|].
  cbn [lift bind try_catch sat await]. intros [e|answer].
  - cbn. intros H. now contradiction H.
  - cbn [lift bind try_catch].
    destruct (Async.error answer) as [pdfError|] eqn:Herr.
    + cbn. intros H. now contradiction H.
    + match goal with
      | |- sat ?p _ => apply (sat_weaken (sat_True p))
      end.
      intros t r _ _. now eexists _, answer, t.
Qed.

(** X12.  [generate_archive_request] writes before it checks: when
    [documentTypes] is not an array, the row is inserted into
    [archive_searches] all the same (it is the only backend call made), no
    entry is written to [hac_logs], and the handler reports a failure. *)
Theorem archive_request_fails_after_insert {S} (w : world S) (s : S) (args : value)
  (userId : string) :
  nullish args = false ->
  is_array (get_opt args "documentTypes") = false ->
  exists e row answer,
    outcome w (generate_archive_request args userId) s = inr (failed e)
    /\ snd (run w (generate_archive_request args userId) s)
       = [ObsSupabase (Insert "archive_searches" row) answer]
    /\ get_opt row "case_id" = get_opt args "caseId".
Proof.
  intros Hn Hd.
  apply (sat_run w (generate_archive_request args userId)
           (fun t r => exists e row answer,
                r = inr (failed e)
                /\ t = [ObsSupabase (Insert "archive_searches" row) answer]
                /\ get_opt row "case_id" = get_opt args "caseId") s).
  unfold generate_archive_request. rewrite !(get_defined args _ Hn).
  cbn [lift bind try_catch sat await]. intros [e|answer].
  - cbn. eexists _, _, _. repeat split.
  - cbn [lift bind try_catch].
    destruct (ToString (get_opt args "personType")) as [e|person].
    { cbn. eexists _, _, _. repeat split. }
    cbn [lift bind try_catch].
    destruct (get_opt args "documentTypes") as [| |b|n|x|xs|props]; try discriminate;
      cbn; eexists _, _, _; repeat split.
Qed.

(** X13.  [update_master_data] writes before it checks: when [fields] is
    missing, the update of [master_table] is issued all the same (it is the
    only backend call made), no entry is written to [hac_logs], and the
    handler reports a failure. *)
Theorem master_update_fails_after_update {S} (w : world S) (s : S) (args : value)
  (userId : string) :
  nullish args = false ->
  nullish (get_opt args "fields") = true ->
  exists e answer,
    outcome w (update_master_data args userId) s = inr (failed e)
    /\ snd (run w (update_master_data args userId) s)
       = [ObsSupabase (UpdateEq "master_table" (get_opt args "fields")
                         "case_id" (get_opt args "caseId")) answer].
Proof.
  intros Hn Hf.
  apply (sat_run w (update_master_data args userId)
           (fun t r => exists e answer,
                r = inr (failed e)
                /\ t = [ObsSupabase (UpdateEq "master_table" (get_opt args "fields")
                                       "case_id" (get_opt args "caseId")) answer]) s).
  unfold update_master_data. rewrite !(get_defined args _ Hn).
  cbn [lift bind try_catch sat await]. intros [e|answer].
  - cbn. eexists _, _. repeat split.
  - destruct (get_opt args "fields"); try discriminate; cbn; eexists _, _; repeat split.
Qed.

(** X14.  [draft_wsc_response] checks before it writes: when [strategy] is
    not a string the handler fails on [args.strategy.toLowerCase()] while it
    builds the audit row, and reports the failure without any backend call. *)
Theorem wsc_response_needs_strategy (args : value) (userId : string) :
  is_string (get_opt args "strategy") = false ->
  exists e, draft_wsc_response args userId = Ret (failed e).
Proof.
  intros Hs. unfold draft_wsc_response.
  destruct (nullish args) eqn:Hn.
  { destruct args; try discriminate; eexists; reflexivity. }
  rewrite !(get_defined args _ Hn). cbn [lift bind try_catch].
  destruct (if nullish (get_opt args "keyPoints") then _ else _) as [e|joined];
    [eexists; reflexivity|].
  cbn [lift bind try_catch].
  destruct (ToString _) as [e|details]; [eexists; reflexivity|].
  cbn [lift bind try_catch].
  destruct (get_opt args "strategy"); try discriminate; eexists; reflexivity.
Qed.

(** X15.  [create_oby_draft] needs the master record: when the lookup of
    [master_table] by [args.caseId] brings no row, it is the only backend
    call made - nothing is written to [oby_forms] or [hac_logs] - and the
    handler reports [Failed: Master data not found]. *)
Theorem draft_needs_master_record {S} (w : world S) (s s' : S) (args : value)
  (userId : string) (answer : pg_response) :
  nullish args = false ->
  on_supabase w (SelectEqSingle "master_table" "*" "case_id" (get_opt args "caseId")) s
  = (inr answer, s') ->
  truthy (data answer) = false ->
  run w (create_oby_draft args userId) s
  = (inr (failed (Error "Master data not found")), s',
     [ObsSupabase (SelectEqSingle "master_table" "*" "case_id" (get_opt args "caseId"))
        (inr answer)]).
Proof.
  intros Hn Hw Ht. unfold create_oby_draft. rewrite !(get_defined args _ Hn).
  cbn [lift bind try_catch await run]. rewrite Hw.
  cbn [lift bind try_catch]. rewrite Ht. reflexivity.
Qed.

End HandlerFacts.

(* ===================================================================== *)
(** ** The streamed reply and the plain reply *)
(* ===================================================================== *)

Section ReplyFacts.

Variable JSON_parse : string -> JS.result value.

Local Abbreviation executeToolsParallel := (Agent.executeToolsParallel JSON_parse).
Local Abbreviation streamStart := (Agent.streamStart JSON_parse).
Local Abbreviation respond := (Agent.respond JSON_parse).

Lemma settles_bind_with {A B} (R : JS.result A -> Prop) (Q : JS.result B -> Prop)
  (p : prog A) (f : A -> prog B) :
  settles R p ->
  (forall e, R (inl e) -> Q (inl e)) ->
  (forall a, R (inr a) -> settles Q (f a)) ->
  settles Q (bind p f).
Proof.
  intros Hp He Hf. apply sat_bind. apply (sat_weaken Hp).
  intros t [e|a] Hr; [now apply He|].
  apply (sat_weaken (Hf a Hr)). auto.
Qed.

Lemma settles_any {A} (p : prog A) : settles (fun _ => True) p.
Proof. apply sat_True. Qed.


Lemma off_log_no_request_logs (t : list obs) :
  forallb off_log t = true -> request_logs t = [].
Proof.
  unfold request_logs, inserts_into.
  induction t as [|o t IH]; [reflexivity|]. cbn [forallb flat_map].
  intros H. apply andb_true_iff in H as [Ho Ht]. rewrite filter_app, (IH Ht), app_nil_r.
  destruct o as [[fn b|table rows|table row|table p c v|table cs c v|table cs c v
                 |table cs c v o l] r|url init r]; try reflexivity.
  cbn in Ho |- *. destruct (table =? "hac_logs"); [|reflexivity].
  cbn in Ho |- *. apply negb_true_iff in Ho. now rewrite Ho.
Qed.

Lemma request_logs_app (t1 t2 : list obs) :
  request_logs (t1 ++ t2) = (request_logs t1 ++ request_logs t2)%list.
Proof. unfold request_logs, inserts_into. now rewrite flat_map_app, filter_app. Qed.

Lemma executeToolsParallel_off_log sched toolCalls caseId userId :
  calm off_log (executeToolsParallel sched toolCalls caseId userId).
Proof.
  apply executeToolsParallel_calm. intro. apply executeSingleTool_off_log.
Qed.

(** The part of the plain reply that follows the reading of the message,
    up to the audit entry: the messages are saved and the tools are run. *)
Lemma respond_middle sched active caseId prompt userId (content toolCalls : value)
  (k : list ToolResult -> prog http_reply) (Q : list obs -> JS.result http_reply -> Prop) :
  (forall t e,
      forallb off_log t = true ->
      (truthy caseId = false -> forallb is_save t = true) ->
      (truthy toolCalls = false -> existsb rejected t = true) ->
      Q t (inl e)) ->
  (forall t toolResults,
      forallb off_log t = true ->
      (truthy toolCalls = false \/ truthy caseId = false ->
       toolResults = [] /\ forallb is_save t = true /\ existsb rejected t = false) ->
      sat (k toolResults) (fun t' r => Q (t ++ t')%list r)) ->
  sat (bind (if truthy active
             then bind (await (Insert "ai_conversation_messages"
                                 (message_rows active prompt content
                                    (or_else toolCalls VNull))))
                    (fun _ => Ret tt)
             else Ret tt)
         (fun _ =>
            bind (lift (if truthy toolCalls
                        then rbind (get toolCalls "length")
                               (fun len => rbind (gt_zero len)
                                             (fun positive => ok (positive && truthy caseId)))
                        else ok false))
              (fun wanted : bool =>
                 bind (if wanted
                       then match toolCalls with
                            | VArr calls => executeToolsParallel sched calls caseId userId
                            | _ => Throw (not_a_function "toolCalls.map")
                            end
                       else Ret [])
                   k)))
      Q.
Proof.
  intros Herr Hk. apply sat_bind.
  assert (Hsave :
    sat (if truthy active
         then bind (await (Insert "ai_conversation_messages"
                             (message_rows active prompt content (or_else toolCalls VNull))))
                (fun _ => Ret tt)
         else Ret tt)
        (fun t r => forallb off_log t = true
                    /\ forallb is_save t = true
                    /\ existsb rejected t = match r with inl _ => true | inr _ => false end)).
  { destruct (truthy active).
    - intros [e|x]; cbn; repeat split.
    - cbn. repeat split. }
  apply (sat_weaken Hsave). intros t1 [e|[]] (H1 & Hs1 & Hrej1); [now apply Herr|].
  assert (Hnone : sat (k []) (fun t' r => Q (t1 ++ t')%list r)).
  { apply (Hk t1 [] H1). intros _. now repeat split. }
  destruct (truthy toolCalls) eqn:Htc; [|exact Hnone].
  cbn [lift].
  destruct (get toolCalls "length") as [e|len];
    [cbn; rewrite app_nil_r; apply Herr; auto; discriminate|].
  cbn [rbind]. destruct (gt_zero len) as [e|positive];
    [cbn; rewrite app_nil_r; apply Herr; auto; discriminate|].
  cbn [rbind ok lift bind].
  destruct (truthy caseId) eqn:Hcase;
    [rewrite andb_true_r|rewrite andb_false_r; exact Hnone].
  destruct positive; [|exact Hnone].
  apply sat_bind.
  assert (Hq : calm off_log
                 match toolCalls with
                 | VArr calls => executeToolsParallel sched calls caseId userId
                 | _ => Throw (not_a_function "toolCalls.map")
                 end).
  { destruct toolCalls; try apply calm_throw. apply executeToolsParallel_off_log. }
  apply (sat_weaken Hq). intros t2 [e|rs] H2.
  - apply Herr; [now rewrite forallb_app, H1, H2|discriminate|discriminate].
  - assert (H12 : forallb off_log (t1 ++ t2) = true) by now rewrite forallb_app, H1, H2.
    apply (sat_weaken (Hk (t1 ++ t2)%list rs H12
                         ltac:(intros [Hx|Hx]; discriminate))).
    intros t' r'. now rewrite app_assoc.
Qed.

Lemma respond_unfolded sched active caseId action prompt userId completion message :
  completion_message completion = inr message ->
  nullish message = false ->
  respond sched active caseId action prompt userId completion
  = bind (if truthy active
          then bind (await (Insert "ai_conversation_messages"
                              (message_rows active prompt (get_opt message "content")
                                 (or_else (get_opt message "tool_calls") VNull))))
                 (fun _ => Ret tt)
          else Ret tt)
      (fun _ =>
         bind (lift (if truthy (get_opt message "tool_calls")
                     then rbind (get (get_opt message "tool_calls") "length")
                            (fun len => rbind (gt_zero len)
                                          (fun positive => ok (positive && truthy caseId)))
                     else ok false))
           (fun wanted : bool =>
              bind (if wanted
                    then match get_opt message "tool_calls" with
                         | VArr calls => executeToolsParallel sched calls caseId userId
                         | _ => Throw (not_a_function "toolCalls.map")
                         end
                    else Ret [])
                (fun toolResults =>
                   bind (if truthy caseId
                         then bind (lift (call_substring (get_opt message "content")
                                            "responseContent.substring" 500))
                                (fun preview =>
                                   bind (await (Insert "hac_logs"
                                                  (request_log caseId action prompt userId
                                                     preview active
                                                     (or_else
                                                        (get_opt (get_opt message "tool_calls")
                                                           "length")
                                                        (VNum 0)))))
                                     (fun _ => Ret tt))
                         else Ret tt)
                     (fun _ =>
                        Ret (JsonReply (get_opt message "content") active toolResults))))).
Proof.
  intros Hm Hn. unfold Agent.respond. rewrite Hm. cbn [lift bind].
  rewrite !(get_defined message _ Hn). reflexivity.
Qed.

(** X17.  Without a case no tool is run, whatever the model asks for: a
    streamed reply then makes no backend call but the insert of its two
    messages, and so does a plain reply, whose [toolResults] are empty. *)
Theorem tools_need_a_case {S} (w : world S) (s s' : S) (sched : list nat) (isNew : bool)
  (active caseId : value) (action prompt userId : string) (reply : upstream)
  (completion : value) :
  truthy caseId = false ->
  forallb is_save
    (snd (run w (streamStart sched isNew active caseId prompt userId reply new_controller) s))
  = true
  /\ forallb is_save
       (snd (run w (respond sched active caseId action prompt userId completion) s'))
     = true
  /\ forall response conversationId toolResults,
       outcome w (respond sched active caseId action prompt userId completion) s'
       = inr (JsonReply response conversationId toolResults) ->
       toolResults = [].
Proof.
  intros Hcase. split.
  - apply calm_run. unfold Agent.streamStart. rewrite opened_start. cbv zeta.
    rewrite Hcase, andb_false_r.
    calm_by ltac:(intro; reflexivity).
  - apply (sat_run w (respond sched active caseId action prompt userId completion)
             (fun t r => forallb is_save t = true
                         /\ forall response conversationId toolResults,
                              r = inr (JsonReply response conversationId toolResults) ->
                              toolResults = []) s').
    unfold Agent.respond.
    destruct (completion_message completion) as [e|message];
      [cbn; split; [reflexivity|discriminate]|].
    cbn [lift bind].
    destruct (get message "content") as [e|content];
      [cbn; split; [reflexivity|discriminate]|].
    cbn [lift bind].
    destruct (get message "tool_calls") as [e|toolCalls];
      [cbn; split; [reflexivity|discriminate]|].
    cbn [lift bind].
    apply respond_middle.
    + intros t e _ Hs _. split; [now apply Hs|discriminate].
    + intros t rs _ Hnone. destruct Hnone as (-> & Hs & _); [now right|].
      rewrite Hcase. cbn. rewrite app_nil_r. split; [exact Hs|].
      intros response conversationId toolResults H. now inversion H.
Qed.

(** X18.  A completion without text cannot be answered for a case: when
    the content of the message is not a string (a reply made of tool calls
    alone has [content: null]) and a case is given, the plain reply throws on
    [responseContent.substring] - after the messages were saved and the tools
    were run - so the caller gets an error instead of the tool results, and
    no audit entry is written for the request. *)
Theorem reply_without_text_fails {S} (w : world S) (s : S) (sched : list nat)
  (active caseId : value) (action prompt userId : string) (completion message : value) :
  completion_message completion = inr message ->
  nullish message = false ->
  is_string (get_opt message "content") = false ->
  truthy caseId = true ->
  (exists e, outcome w (respond sched active caseId action prompt userId completion) s
             = inl e)
  /\ request_logs (snd (run w (respond sched active caseId action prompt userId completion) s))
     = [].
Proof.
  intros Hm Hn Hcontent Hcase.
  apply (sat_run w (respond sched active caseId action prompt userId completion)
           (fun t r => (exists e, r = inl e) /\ request_logs t = []) s).
  rewrite (respond_unfolded _ _ _ _ _ _ _ _ Hm Hn).
  apply respond_middle.
  - intros t e Hlog _ _. split; [now exists e|now apply off_log_no_request_logs].
  - intros t rs Hlog _. rewrite Hcase.
    destruct (get_opt message "content"); try discriminate; cbn;
      rewrite app_nil_r; (split; [eauto|now apply off_log_no_request_logs]).
Qed.

Lemma request_log_counts caseId action prompt userId preview conversation tools_used x :
  request_logs [ObsSupabase (Insert "hac_logs"
                               (request_log caseId action prompt userId preview conversation
                                  tools_used)) x]
  = [request_log caseId action prompt userId preview conversation tools_used].
Proof.
  unfold request_logs, inserts_into. cbn [flat_map String.eqb Ascii.eqb Bool.eqb app filter].
  assert (H : is_request_log (request_log caseId action prompt userId preview conversation
                                tools_used) = true).
  { unfold is_request_log, request_log, get_opt.
    cbn [get lookup String.eqb Ascii.eqb Bool.eqb].
    apply (prefix_append "ai_agent_" action). }
  now rewrite H.
Qed.

Lemma take_nothing (s : string) : units (take 0 s) = 0.
Proof.
  induction s as [|c s IH]; [reflexivity|]. cbn [take].
  destruct (is_continuation c) eqn:E; [|reflexivity].
  cbn [units]. now rewrite E, IH.
Qed.

(** Half a surrogate pair is one code unit. *)
Lemma high_surrogate_unit (b0 b1 b2 : ascii) : units (high_surrogate b0 b1 b2) = 1.
Proof.
  unfold high_surrogate.
  set (h := (byte b0 mod 8 * 256 + byte b1 mod 64 * 4 + byte b2 mod 64 / 16 - 64)%nat).
  assert (Hh : h <= 1983).
  { pose proof (Nat.mod_upper_bound (byte b0) 8 ltac:(discriminate)).
    pose proof (Nat.mod_upper_bound (byte b1) 64 ltac:(discriminate)).
    pose proof (Nat.mod_upper_bound (byte b2) 64 ltac:(discriminate)).
    assert (byte b2 mod 64 / 16 < 4) by (apply Nat.Div0.div_lt_upper_bound; lia).
    unfold h. lia. }
  assert (H1 : h / 64 < 31) by (apply Nat.Div0.div_lt_upper_bound; lia).
  pose proof (Nat.mod_upper_bound h 64 ltac:(discriminate)) as H2.
  cbn [units]. unfold is_continuation, is_astral, byte.
  rewrite !nat_ascii_embedding by lia.
  change ((128 <=? 237)%nat && (237 <? 192)%nat) with false.
  change (240 <=? 237)%nat with false.
  assert (E1 : (128 <=? 160 + h / 64)%nat = true) by (apply Nat.leb_le; lia).
  assert (E2 : (160 + h / 64 <? 192)%nat = true) by (apply Nat.ltb_lt; lia).
  assert (E3 : (128 <=? 128 + h mod 64)%nat = true) by (apply Nat.leb_le; lia).
  assert (E4 : (128 + h mod 64 <? 192)%nat = true) by (apply Nat.ltb_lt; lia).
  rewrite E1, E2, E3, E4. reflexivity.
Qed.

(** [s.substring(0, n)] has at most [n] code units. *)
Lemma take_units (n : nat) (s : string) : units (take n s) <= n.
Proof.
  revert n. induction s as [|c s IH]; intros n; [cbn; lia|].
  cbn [take]. destruct (is_continuation c) eqn:Ec.
  { cbn [units]. rewrite Ec. apply IH. }
  destruct n as [|[|n]]; [cbn; lia| |].
  - destruct (is_astral c) eqn:Ea.
    + destruct s as [|b1 [|b2 s']]; [cbn; lia|cbn; lia|].
      rewrite high_surrogate_unit. lia.
    + cbn [units]. rewrite Ec, Ea, take_nothing. lia.
  - cbn [units]. rewrite Ec. destruct (is_astral c).
    + specialize (IH n). lia.
    + specialize (IH (S n)). lia.
Qed.

(** It is the whole string when the string has no more. *)
Lemma take_all (n : nat) (s : string) : units s <= n -> take n s = s.
Proof.
  revert n. induction s as [|c s IH]; intros n; [reflexivity|].
  cbn [take units]. destruct (is_continuation c) eqn:Ec.
  { intros H. now rewrite IH. }
  destruct (is_astral c) eqn:Ea; intros H.
  - destruct n as [|[|n]]; [lia|lia|]. rewrite IH; [reflexivity|lia].
  - destruct n as [|[|n]]; [lia| |]; (rewrite IH; [reflexivity|lia]).
Qed.

(** X19.  The audit entry of a plain reply: for a case and a completion
    whose content is a string, a request that is answered was logged exactly
    once, after the messages and the tools, with as preview the first 500
    code units of the content (the whole content when it has no more than
    500; JavaScript counts UTF-16 code units, so that the preview can end with
    half a surrogate pair), the conversation identifier and the number of tool
    calls; and a completion without tool calls is answered, with that content
    and no tool result, unless a backend call is rejected. *)
Theorem plain_reply_is_logged {S} (w : world S) (s : S) (sched : list nat)
  (active caseId : value) (action prompt userId : string) (completion message : value)
  (text : string) :
  completion_message completion = inr message ->
  nullish message = false ->
  get_opt message "content" = VStr text ->
  truthy caseId = true ->
  let t := snd (run w (respond sched active caseId action prompt userId completion) s) in
  let r := outcome w (respond sched active caseId action prompt userId completion) s in
  (forall reply,
      r = inr reply ->
      (exists toolResults, reply = JsonReply (VStr text) active toolResults)
      /\ request_logs t
         = [request_log caseId action prompt userId (take 500 text) active
              (or_else (get_opt (get_opt message "tool_calls") "length") (VNum 0))])
  /\ units (take 500 text) <= 500
  /\ (units text <= 500 -> take 500 text = text)
  /\ (truthy (get_opt message "tool_calls") = false ->
      existsb rejected t = false ->
      r = inr (JsonReply (VStr text) active [])).
Proof.
  intros Hm Hn Hcontent Hcase t r.
  split; [|split; [apply take_units|split; [apply take_all|]]].
  - subst t r.
    apply (sat_run w (respond sched active caseId action prompt userId completion)
             (fun t r =>
                forall reply,
                  r = inr reply ->
                  (exists toolResults, reply = JsonReply (VStr text) active toolResults)
                  /\ request_logs t
                     = [request_log caseId action prompt userId (take 500 text) active
                          (or_else (get_opt (get_opt message "tool_calls") "length")
                             (VNum 0))]) s).
    rewrite (respond_unfolded _ _ _ _ _ _ _ _ Hm Hn), Hcontent.
    apply respond_middle.
    + intros t e _ _ _ reply H. discriminate.
    + intros t rs Hlog _. rewrite Hcase. cbn [call_substring lift bind].
      generalize (take 500 text). intros preview. cbn [await lift bind sat].
      intros [e|x]; cbn [lift bind sat]; intros reply H; [discriminate|].
      inversion H. split; [now exists rs|].
      rewrite request_logs_app, (off_log_no_request_logs _ Hlog). apply request_log_counts.
  - subst t r. intros Htc.
    apply (sat_run w (respond sched active caseId action prompt userId completion)
             (fun t r =>
                existsb rejected t = false ->
                r = inr (JsonReply (VStr text) active [])) s).
    rewrite (respond_unfolded _ _ _ _ _ _ _ _ Hm Hn), Hcontent.
    apply respond_middle.
    + intros t e _ _ Hrej Hclean. rewrite (Hrej Htc) in Hclean. discriminate.
    + intros t rs _ Hnone. destruct (Hnone (or_introl Htc)) as (-> & _ & Hclean).
      rewrite Hcase. cbn [call_substring lift bind].
      generalize (take 500 text). intros preview. cbn [await lift bind sat].
      intros [e|x]; cbn [lift bind sat]; rewrite existsb_app, Hclean; cbn;
        [discriminate|intros _; reflexivity].
Qed.

End ReplyFacts.

(* ===================================================================== *)
(** ** The request handler *)
(* ===================================================================== *)

Ltac tools_calm :=
  repeat first
    [ apply executeToolsParallel_calm; intro;
      unfold Agent.executeSingleTool, dispatch, generate_poa_pdf, create_task, trigger_ocr,
        update_master_data, generate_archive_request, create_oby_draft, draft_wsc_response,
        generate_civil_acts_request
    | calm_step
    | apply calm_supabase; [intro; reflexivity|intro]
    | apply calm_fetch; [intro; reflexivity|intro] ].

Ltac settling :=
  repeat first
    [ apply settles_bind; [intro; exact I|intro]
    | progress cbv zeta
    | match goal with
      | |- settles _ (if ?b then _ else _) => destruct b
      | |- settles _ (match ?x with _ => _ end) => destruct x
      | |- settles _ (Throw _) => exact I
      | |- settles _ (Ret _) => exact I
      | |- settles _ (lift ?r) => destruct r; exact I
      end ].

Section HandleFacts.

Variable JSON_parse : string -> JS.result value.
Variable JSON_stringify_pretty : value -> string.

Local Abbreviation streamStart := (Agent.streamStart JSON_parse).
Local Abbreviation respond := (Agent.respond JSON_parse).
Local Abbreviation handle := (Agent.handle JSON_parse JSON_stringify_pretty).

Lemma error_text_not_empty (e : exn) : error_text e <> "".
Proof.
  unfold error_text. destruct (JS.message e =? "") eqn:E; [discriminate|].
  now apply String.eqb_neq.
Qed.

(** The [catch] of the handler. *)
Lemma recovered_sat (body : prog http_reply)
  (Q : list obs -> JS.result http_reply -> Prop) :
  sat body (fun t r => Q t (inr (recovered r))) ->
  sat (try_catch body (fun e => Ret (ErrorReply (error_text e) 500))) Q.
Proof.
  intros H. apply sat_try_catch. apply (sat_weaken H).
  intros t [e|a] Hq; cbn in *; [now rewrite app_nil_r|exact Hq].
Qed.

(** X20.  The handler always answers: from the validated request on,
    whatever the request and whatever the backend and the model do, it
    settles to a reply and never throws; an error is answered with status 500
    and a message that is never empty ([Unknown error] when the error has
    none). *)
Theorem handle_always_answers {S} (w : world S) (s : S) (sched : list nat)
  (req : Request.t) (userId : string) :
  exists reply,
    outcome w (handle sched req userId) s = inr reply
    /\ forall msg status, reply = ErrorReply msg status -> status = 500%Z /\ msg <> "".
Proof.
  apply (settles_run w
           (fun r => exists reply,
                r = inr reply
                /\ forall msg status,
                     reply = ErrorReply msg status -> status = 500%Z /\ msg <> "")).
  unfold Agent.handle. cbv zeta. apply settles_try_catch.
  match goal with
  | |- settles _ ?body =>
      assert (H : settles (fun r => match r with
                                    | inr (ErrorReply _ _) => False
                                    | _ => True
                                    end) body)
  end.
  { unfold Agent.respond. settling. }
  apply (sat_weaken H). intros t [e|reply] Hr.
  - cbn. eexists. split; [reflexivity|]. intros msg status Hm. inversion Hm.
    split; [reflexivity|]. apply error_text_not_empty.
  - exists reply. split; [reflexivity|]. intros msg status ->. contradiction.
Qed.

Lemma after_bind {A B} (ok : obs -> bool) (Q : list obs -> JS.result B -> Prop)
  (p : prog A) (f : A -> prog B) :
  calm ok p ->
  (forall pre e, forallb ok pre = true -> Q pre (inl e)) ->
  (forall a, sat (f a) (after ok Q)) ->
  sat (bind p f) (after ok Q).
Proof.
  intros Hp He Hf. apply sat_bind. apply (sat_weaken Hp).
  intros t1 [e|a] H1.
  - intros pre Hpre. apply He. now rewrite forallb_app, Hpre, H1.
  - apply (sat_weaken (Hf a)). intros t2 r H2 pre Hpre.
    rewrite app_assoc. apply H2. now rewrite forallb_app, Hpre, H1.
Qed.

Lemma after_calm {A} (ok ok' : obs -> bool) (Q : list obs -> JS.result A -> Prop)
  (p : prog A) :
  calm ok' p ->
  (forall pre t r, forallb ok pre = true -> forallb ok' t = true -> Q (pre ++ t)%list r) ->
  sat p (after ok Q).
Proof.
  intros Hp H. apply (sat_weaken Hp). intros t r Ht pre Hpre. now apply H.
Qed.

Lemma conversationHistory_is_history action conversationMessages context prompt history :
  conversationHistory JSON_stringify_pretty action conversationMessages context prompt
  = inr history ->
  is_history JSON_stringify_pretty action prompt history.
Proof.
  unfold conversationHistory.
  destruct (call_map conversationMessages _ replay) as [e|middle]; [discriminate|].
  intros H. inversion H. now exists middle, context.
Qed.

(** The course of a request: it fails during the preparation, or it
    reaches the model, with one call, after which the reply is produced. *)
Lemma handle_course sched req userId :
  sat (handle sched req userId)
      (fun t r =>
         (forallb is_preparation t = true
          /\ exists e, r = inr (ErrorReply (error_text e) 500))
         \/ reached_model JSON_stringify_pretty req t r).
Proof.
  unfold Agent.handle. cbv zeta. apply recovered_sat.
  match goal with
  | |- sat ?b _ =>
      assert (H : sat b
                    (after is_preparation
                       (fun t r =>
                          (forallb is_preparation t = true
                           /\ exists e, @inr exn _ (recovered r)
                                        = inr (ErrorReply (error_text e) 500))
                          \/ reached_model JSON_stringify_pretty req t (inr (recovered r)))))
  end.
  { assert (Hfail : forall pre e,
               forallb is_preparation pre = true ->
               (forallb is_preparation pre = true
                /\ exists e0, @inr exn _ (recovered (inl e))
                              = inr (ErrorReply (error_text e0) 500))
               \/ reached_model JSON_stringify_pretty req pre (inr (recovered (inl e)))).
    { intros pre e Hpre. left. split; [exact Hpre|now exists e]. }
    apply after_bind; [calmness|exact Hfail|intros conversation].
    apply after_bind; [calmness|exact Hfail|intros conversationMessages].
    apply after_bind; [calmness|exact Hfail|intros context].
    destruct (conversationHistory JSON_stringify_pretty (Request.action req)
                conversationMessages context (Request.prompt req)) as [e|history] eqn:Hh;
      cbn [lift bind].
    { intros pre Hpre. rewrite app_nil_r. now apply Hfail. }
    apply conversationHistory_is_history in Hh.
    assert (Hcall : forall (k : http_response -> prog http_reply),
               (forall response, resp_ok response = true -> calm is_follow_up (k response)) ->
               sat (bind (await_fetch gateway
                            (aiRequestBody (Request.action req) history (Request.stream req)))
                      (fun aiResponse =>
                         if negb (resp_ok aiResponse)
                         then Throw (Error ("AI Gateway error: "
                                            ++ Z_to_string (Async.status aiResponse)))
                         else k aiResponse))
                   (after is_preparation
                      (fun t r =>
                         (forallb is_preparation t = true
                          /\ exists e, @inr exn _ (recovered r)
                                       = inr (ErrorReply (error_text e) 500))
                         \/ reached_model JSON_stringify_pretty req t (inr (recovered r))))).
    { intros k Hk. cbn [bind await_fetch sat]. intros [e|response]; cbn [lift bind].
      - intros pre Hpre. right. exists pre, history, (inl e), [].
        split; [reflexivity|]. split; [exact Hpre|]. split; [reflexivity|].
        split; [exact Hh|]. split; reflexivity.
      - destruct (resp_ok response) eqn:Hok; cbn [negb].
        + apply (sat_weaken (Hk response Hok)). intros t r Ht pre Hpre.
          right. exists pre, history, (inr response), t.
          split; [reflexivity|]. split; [exact Hpre|]. split; [exact Ht|].
          split; [exact Hh|]. rewrite Hok. discriminate.
        + intros pre Hpre. right. exists pre, history, (inr response), [].
          split; [reflexivity|]. split; [exact Hpre|]. split; [reflexivity|].
          split; [exact Hh|]. intros _. split; reflexivity. }
    destruct (Request.stream req) eqn:Hstream.
    - apply Hcall. intros response _. unfold Agent.streamStart. tools_calm.
    - apply Hcall. intros response _. unfold Agent.respond. tools_calm. }
  apply (sat_weaken H). intros t r Ha. specialize (Ha [] eq_refl). cbn [app] in Ha.
  destruct Ha as [[Hp [e He]]|Hr]; [left|right; exact Hr].
  split; [exact Hp|]. exists e. exact He.
Qed.

Lemma no_fetch_in_preparation (t : list obs) :
  forallb is_preparation t = true -> filter is_fetch t = [].
Proof.
  induction t as [|o t IH]; [reflexivity|]. cbn [forallb filter].
  intros H. apply andb_true_iff in H as [Ho Ht].
  destruct o as [op r|url init r]; [cbn; now apply IH|discriminate].
Qed.

Lemma no_fetch_in_follow_up (t : list obs) :
  forallb is_follow_up t = true -> filter is_fetch t = [].
Proof.
  induction t as [|o t IH]; [reflexivity|]. cbn [forallb filter].
  intros H. apply andb_true_iff in H as [Ho Ht].
  destruct o as [op r|url init r]; [cbn; now apply IH|discriminate].
Qed.

Lemma no_insert_in_preparation (table : string) (t : list obs) :
  forallb is_preparation t = true -> inserts_into table t = [].
Proof.
  unfold inserts_into.
  induction t as [|o t IH]; [reflexivity|]. cbn [forallb flat_map].
  intros H. apply andb_true_iff in H as [Ho Ht]. rewrite (IH Ht), app_nil_r.
  destruct o as [[fn b|tb rows|tb row|tb p c v|tb cs c v|tb cs c v|tb cs c v o l] r
                |url init r]; try reflexivity; discriminate.
Qed.

Lemma inserts_into_app (table : string) (t1 t2 : list obs) :
  inserts_into table (t1 ++ t2) = (inserts_into table t1 ++ inserts_into table t2)%list.
Proof. apply flat_map_app. Qed.

Lemma in_filter_nil {A} (f : A -> bool) (l : list A) (a : A) :
  filter f l = [] -> In a l -> f a = false.
Proof.
  intros Hf Hin. destruct (f a) eqn:E; [|reflexivity].
  assert (H : In a (filter f l)) by (apply filter_In; now split).
  rewrite Hf in H. contradiction.
Qed.

(** X21.  When the model gateway answers with a status that is not ok, the
    request is answered with [AI Gateway error: <status>] and status 500; the
    call of the model was the last backend call: no message is saved, no
    tool is run and no audit entry is written (and nothing is undone: a
    conversation created for the request stays). *)
Theorem gateway_refusal_is_reported {S} (w : world S) (s : S) (sched : list nat)
  (req : Request.t) (userId : string) (url : string) (init : value)
  (response : http_response) :
  In (ObsFetch url init (inr response)) (snd (run w (handle sched req userId) s)) ->
  resp_ok response = false ->
  outcome w (handle sched req userId) s
  = inr (ErrorReply ("AI Gateway error: " ++ Z_to_string (Async.status response)) 500)
  /\ (exists pre, snd (run w (handle sched req userId) s)
                  = (pre ++ [ObsFetch url init (inr response)])%list
                  /\ forallb is_preparation pre = true)
  /\ saved_messages (snd (run w (handle sched req userId) s)) = []
  /\ inserts_into "hac_logs" (snd (run w (handle sched req userId) s)) = [].
Proof.
  unfold outcome.
  pose proof (sat_run w _ _ s (handle_course sched req userId)) as H. cbv beta in H.
  revert H.
  generalize (snd (run w (handle sched req userId) s)).
  generalize (fst (fst (run w (handle sched req userId) s))).
  intros r t [[Hp _]|(pre & history & x & post & -> & Hpre & Hpost & _ & Hx)] Hin Hok.
  - apply (in_filter_nil _ _ _ (no_fetch_in_preparation _ Hp)) in Hin. discriminate.
  - apply in_app_or in Hin as [Hin|[Hin|Hin]].
    + apply (in_filter_nil _ _ _ (no_fetch_in_preparation _ Hpre)) in Hin. discriminate.
    + inversion Hin. subst. destruct (Hx Hok) as [-> ->].
      split; [reflexivity|]. split; [now exists pre|].
      unfold saved_messages. rewrite !inserts_into_app.
      rewrite (no_insert_in_preparation "ai_conversation_messages" pre Hpre),
        (no_insert_in_preparation "hac_logs" pre Hpre).
      split; reflexivity.
    + apply (in_filter_nil _ _ _ (no_fetch_in_follow_up _ Hpost)) in Hin. discriminate.
Qed.

(** X22.  The handler calls the model at most once for a request, and any
    network call it makes is this one: to the gateway, with a body that
    carries the model name, the [stream] flag of the request, the tools and
    [tool_choice: auto] for the five tool-enabled actions and for no other,
    and a history that opens with the system prompt of the action and closes
    with the request of the user. *)
Theorem model_is_called_once {S} (w : world S) (s : S) (sched : list nat)
  (req : Request.t) (userId : string) :
  List.length (filter is_fetch (snd (run w (handle sched req userId) s))) <= 1
  /\ forall url init x,
       In (ObsFetch url init x) (snd (run w (handle sched req userId) s)) ->
       url = gateway
       /\ get_opt init "model" = VStr "google/gemini-2.5-flash"
       /\ get_opt init "stream" = VBool (Request.stream req)
       /\ get_opt init "tools"
          = (if includes toolEnabledActions (Request.action req)
             then VArr AGENT_TOOLS else VUndefined)
       /\ get_opt init "tool_choice"
          = (if includes toolEnabledActions (Request.action req)
             then VStr "auto" else VUndefined)
       /\ exists history,
            get_opt init "messages" = VArr history
            /\ is_history JSON_stringify_pretty (Request.action req) (Request.prompt req)
                 history.
Proof.
  pose proof (sat_run w _ _ s (handle_course sched req userId)) as H. cbv beta in H.
  revert H.
  generalize (snd (run w (handle sched req userId) s)).
  generalize (fst (fst (run w (handle sched req userId) s))).
  intros r t [[Hp _]|(pre & history & x & post & -> & Hpre & Hpost & Hh & _)].
  - rewrite (no_fetch_in_preparation _ Hp). split; [cbn; lia|].
    intros url init x Hin.
    apply (in_filter_nil _ _ _ (no_fetch_in_preparation _ Hp)) in Hin. discriminate.
  - split.
    + rewrite filter_app. cbn [filter is_fetch].
      rewrite (no_fetch_in_preparation _ Hpre), (no_fetch_in_follow_up _ Hpost).
      cbn. lia.
    + intros url init x' Hin. apply in_app_or in Hin as [Hin|[Hin|Hin]].
      * apply (in_filter_nil _ _ _ (no_fetch_in_preparation _ Hpre)) in Hin. discriminate.
      * inversion Hin. subst. split; [reflexivity|].
        unfold aiRequestBody, get_opt.
        destruct (includes toolEnabledActions (Request.action req));
          repeat split; exists history; split; [reflexivity|exact Hh|reflexivity|exact Hh].
      * apply (in_filter_nil _ _ _ (no_fetch_in_follow_up _ Hpost)) in Hin. discriminate.
Qed.

Lemma streamStart_silent sched isNew active caseId prompt userId reply c :
  truthy active = false ->
  truthy caseId = false ->
  calm is_model_call (streamStart sched isNew active caseId prompt userId reply c).
Proof.
  intros Ha Hc. unfold Agent.streamStart. rewrite Ha, andb_false_r.
  unfold ok. cbv beta iota zeta. rewrite Hc, andb_false_r.
  calmness.
Qed.

Lemma respond_silent sched active caseId action prompt userId completion :
  truthy active = false ->
  truthy caseId = false ->
  calm is_model_call (respond sched active caseId action prompt userId completion).
Proof.
  intros Ha Hc. unfold Agent.respond. rewrite Ha, Hc.
  destruct (completion_message completion) as [e|message]; [apply calm_throw|].
  cbn [lift bind].
  destruct (get message "content") as [e|content]; [apply calm_throw|]. cbn [lift bind].
  destruct (get message "tool_calls") as [e|toolCalls]; [apply calm_throw|].
  cbn [lift bind].
  destruct (truthy toolCalls); [|apply calm_ret].
  destruct (get toolCalls "length") as [e|len]; [apply calm_throw|]. cbn [rbind].
  destruct (gt_zero len) as [e|positive]; [apply calm_throw|].
  cbn [rbind ok lift bind]. rewrite andb_false_r. apply calm_ret.
Qed.

(** X23.  A request that names neither a case nor a conversation never
    touches the database: the only backend call the handler makes for it is
    the call of the model - nothing is read, nothing is saved, no tool is
    run and nothing is logged. *)
Theorem request_without_case_is_stateless {S} (w : world S) (s : S) (sched : list nat)
  (req : Request.t) (userId : string) :
  truthy (optional (Request.caseId req)) = false ->
  truthy (optional (Request.conversationId req)) = false ->
  forallb is_model_call (snd (run w (handle sched req userId) s)) = true.
Proof.
  intros Hc Hv. apply calm_run. unfold Agent.handle. cbv zeta.
  rewrite Hc, Hv. cbn [negb andb bind fst snd]. rewrite Hv. cbn [bind].
  repeat first [ apply streamStart_silent; assumption
               | apply respond_silent; assumption
               | calm_step ].
Qed.

(** X24.  The conversation is created exactly when the request names a
    case and no conversation: then the creation, with the case and the action
    as [agent_type], is the first backend call of the handler and the only
    creation; otherwise no conversation is created. *)
Theorem conversation_is_created_once {S} (w : world S) (s : S) (sched : list nat)
  (req : Request.t) (userId : string) :
  if negb (truthy (optional (Request.conversationId req)))
     && truthy (optional (Request.caseId req))
  then exists answer rest,
         snd (run w (handle sched req userId) s)
         = ObsSupabase
             (InsertSelectSingle "ai_conversations"
                (VObj [("case_id", optional (Request.caseId req));
                       ("agent_type", VStr (Request.action req))]))
             answer :: rest
         /\ forallb (fun o => negb (creates_conversation o)) rest = true
  else forallb (fun o => negb (creates_conversation o))
         (snd (run w (handle sched req userId) s)) = true.
Proof.
  apply (sat_run w (handle sched req userId)
           (fun t _ =>
              if negb (truthy (optional (Request.conversationId req)))
                 && truthy (optional (Request.caseId req))
              then exists answer rest,
                     t = ObsSupabase
                           (InsertSelectSingle "ai_conversations"
                              (VObj [("case_id", optional (Request.caseId req));
                                     ("agent_type", VStr (Request.action req))]))
                           answer :: rest
                     /\ forallb (fun o => negb (creates_conversation o)) rest = true
              else forallb (fun o => negb (creates_conversation o)) t = true) s).
  unfold Agent.handle. cbv zeta.
  destruct (negb (truthy (optional (Request.conversationId req)))
            && truthy (optional (Request.caseId req))).
  - cbn [bind await try_catch sat]. intros answer.
    match goal with
    | |- sat ?p _ => assert (H : calm (fun o => negb (creates_conversation o)) p)
    end.
    { unfold Agent.streamStart, Agent.respond. tools_calm. }
    apply (sat_weaken H). intros t r Ht. now exists answer, t.
  - match goal with
    | |- sat ?p _ => assert (H : calm (fun o => negb (creates_conversation o)) p)
    end.
    { unfold Agent.streamStart, Agent.respond. tools_calm. }
    exact H.
Qed.

(** X25.  A security audit never reads the case: for the action
    [security_audit] the handler makes no query on [cases], also when the
    request names a case (the context sent to the model is the fixed
    description of the system). *)
Theorem audit_reads_no_case {S} (w : world S) (s : S) (sched : list nat)
  (req : Request.t) (userId : string) :
  Request.action req = "security_audit" ->
  forallb (fun o => negb (reads_case o)) (snd (run w (handle sched req userId) s)) = true.
Proof.
  intros Ha. apply calm_run. unfold Agent.handle. cbv zeta. rewrite Ha.
  change ("security_audit" =? "security_audit") with true. cbv iota.
  unfold Agent.streamStart, Agent.respond. tools_calm.
Qed.

Lemma no_case_read_in (t : list obs) cols col v answer :
  forallb (fun o => negb (reads_case o)) t = true ->
  ~ In (ObsSupabase (SelectEqSingle "cases" cols col v) answer) t.
Proof.
  intros Ht Hin. rewrite forallb_forall in Ht. specialize (Ht _ Hin). discriminate.
Qed.

Lemma opening_no_case_read (t : list obs) :
  forallb is_opening t = true -> forallb (fun o => negb (reads_case o)) t = true.
Proof.
  intros H. rewrite forallb_forall in H |- *. intros o Ho.
  specialize (H o Ho). unfold is_opening in H. now apply andb_true_iff in H as [_ H].
Qed.

Lemma opening_is_preparation (t : list obs) :
  forallb is_opening t = true -> forallb is_preparation t = true.
Proof.
  intros H. rewrite forallb_forall in H |- *. intros o Ho.
  specialize (H o Ho). unfold is_opening in H. now apply andb_true_iff in H as [H _].
Qed.

(** X26.  When the query on [cases] comes back with an error (the case
    does not exist, for instance), the request is answered with
    [Failed to fetch case: <message>] and status 500 and the model is never
    called; no message is saved and nothing is logged (and nothing is
    undone: a conversation created for the request stays, as the example
    [conversation_of_failed_request_stays] shows). *)
Theorem case_error_is_reported {S} (w : world S) (s : S) (sched : list nat)
  (req : Request.t) (userId : string) (cols col : string) (v : value)
  (answer : pg_response) (e : exn) :
  In (ObsSupabase (SelectEqSingle "cases" cols col v) (inr answer))
    (snd (run w (handle sched req userId) s)) ->
  Async.error answer = Some e ->
  outcome w (handle sched req userId) s
  = inr (ErrorReply ("Failed to fetch case: " ++ JS.message e) 500)
  /\ filter is_fetch (snd (run w (handle sched req userId) s)) = []
  /\ saved_messages (snd (run w (handle sched req userId) s)) = []
  /\ inserts_into "hac_logs" (snd (run w (handle sched req userId) s)) = [].
Proof.
  unfold outcome.
  apply (sat_run w (handle sched req userId)
           (fun t r =>
              In (ObsSupabase (SelectEqSingle "cases" cols col v) (inr answer)) t ->
              Async.error answer = Some e ->
              r = inr (ErrorReply ("Failed to fetch case: " ++ JS.message e) 500)
              /\ filter is_fetch t = []
              /\ saved_messages t = []
              /\ inserts_into "hac_logs" t = []) s).
  unfold Agent.handle. cbv zeta. apply recovered_sat.
  match goal with
  | |- sat ?b ?Q =>
      assert (H : sat b (after is_opening Q))
  end.
  { assert (Hvoid : forall pre t r,
               forallb is_opening pre = true ->
               forallb (fun o => negb (reads_case o)) t = true ->
               In (ObsSupabase (SelectEqSingle "cases" cols col v) (inr answer)) (pre ++ t) ->
               Async.error answer = Some e ->
               @inr exn _ (recovered r)
               = inr (ErrorReply ("Failed to fetch case: " ++ JS.message e) 500)
               /\ filter is_fetch (pre ++ t) = []
               /\ saved_messages (pre ++ t) = []
               /\ inserts_into "hac_logs" (pre ++ t) = []).
    { intros pre t r Hpre Ht Hin _. exfalso.
      apply in_app_or in Hin as [Hin|Hin].
      - exact (no_case_read_in _ _ _ _ _ (opening_no_case_read _ Hpre) Hin).
      - exact (no_case_read_in _ _ _ _ _ Ht Hin). }
    assert (Hfail : forall pre e0,
               forallb is_opening pre = true ->
               In (ObsSupabase (SelectEqSingle "cases" cols col v) (inr answer)) pre ->
               Async.error answer = Some e ->
               @inr exn _ (recovered (inl e0))
               = inr (ErrorReply ("Failed to fetch case: " ++ JS.message e) 500)
               /\ filter is_fetch pre = []
               /\ saved_messages pre = []
               /\ inserts_into "hac_logs" pre = []).
    { intros pre e0 Hpre Hin He. rewrite <- (app_nil_r pre) in Hin |- *.
      now apply (Hvoid pre [] (inl e0)). }
    apply after_bind; [calmness|exact Hfail|intros conversation].
    apply after_bind; [calmness|exact Hfail|intros conversationMessages].
    assert (Hrest : forall context : value,
               calm (fun o => negb (reads_case o))
                 (bind (lift (conversationHistory JSON_stringify_pretty (Request.action req)
                                conversationMessages context (Request.prompt req)))
                    (fun history =>
                       if Request.stream req
                       then bind (await_fetch gateway
                                    (aiRequestBody (Request.action req) history
                                       (Request.stream req)))
                              (fun aiResponse =>
                                 if negb (resp_ok aiResponse)
                                 then Throw (Error ("AI Gateway error: "
                                                    ++ Z_to_string (Async.status aiResponse)))
                                 else bind (streamStart sched (snd conversation)
                                              (fst conversation)
                                              (optional (Request.caseId req))
                                              (Request.prompt req) userId
                                              (body aiResponse) new_controller)
                                        (fun c => Ret (StreamReply c)))
                       else bind (await_fetch gateway
                                    (aiRequestBody (Request.action req) history
                                       (Request.stream req)))
                              (fun aiResponse =>
                                 if negb (resp_ok aiResponse)
                                 then Throw (Error ("AI Gateway error: "
                                                    ++ Z_to_string (Async.status aiResponse)))
                                 else bind (lift (json aiResponse))
                                        (fun completion =>
                                           respond sched (fst conversation)
                                             (optional (Request.caseId req))
                                             (Request.action req) (Request.prompt req)
                                             userId completion))))).
    { intros context. unfold Agent.streamStart, Agent.respond. tools_calm. }
    destruct (Request.action req =? "security_audit").
    { apply sat_bind.
      destruct (buildAgentContext VNull (Request.action req)) as [e0|context]; cbn [lift sat].
      - intros pre Hpre. rewrite app_nil_r. now apply Hfail.
      - apply (after_calm is_opening _ _ _ (Hrest context)).
        intros pre t r Hpre Ht. now apply Hvoid. }
    destruct (truthy (optional (Request.caseId req))).
    2:{ cbn [bind]. apply (after_calm is_opening _ _ _ (Hrest (VObj []))).
        intros pre t r Hpre Ht. now apply Hvoid. }
    cbn [bind await sat]. intros [e0|found]; cbn [lift bind].
    { intros pre Hpre Hin He. exfalso. apply in_app_or in Hin as [Hin|[Hin|[]]].
      - exact (no_case_read_in _ _ _ _ _ (opening_no_case_read _ Hpre) Hin).
      - discriminate. }
    destruct (Async.error found) as [caseError|] eqn:Herr.
    { cbn [bind]. intros pre Hpre Hin He.
      apply in_app_or in Hin as [Hin|[Hin|[]]].
      - exfalso. exact (no_case_read_in _ _ _ _ _ (opening_no_case_read _ Hpre) Hin).
      - inversion Hin. subst. rewrite Herr in He. inversion He. subst.
        split; [reflexivity|].
        rewrite filter_app. unfold saved_messages. rewrite !inserts_into_app.
        rewrite (no_fetch_in_preparation pre (opening_is_preparation _ Hpre)).
        rewrite (no_insert_in_preparation "ai_conversation_messages" pre
                   (opening_is_preparation _ Hpre)),
          (no_insert_in_preparation "hac_logs" pre (opening_is_preparation _ Hpre)).
        repeat split. }
    apply sat_bind.
    destruct (buildAgentContext (data found) (Request.action req)) as [e0|context];
      cbn [lift sat].
    { intros pre Hpre Hin He. exfalso. rewrite ?app_nil_r in Hin.
      apply in_app_or in Hin as [Hin|[Hin|[]]].
      - exact (no_case_read_in _ _ _ _ _ (opening_no_case_read _ Hpre) Hin).
      - inversion Hin. subst. rewrite Herr in He. discriminate. }
    apply (sat_weaken (Hrest context)). intros t r Ht pre Hpre Hin He. exfalso.
    apply in_app_or in Hin as [Hin|[Hin|Hin]].
    - exact (no_case_read_in _ _ _ _ _ (opening_no_case_read _ Hpre) Hin).
    - inversion Hin. subst. rewrite Herr in He. discriminate.
    - exact (no_case_read_in _ _ _ _ _ Ht Hin). }
  apply (sat_weaken H). intros t r Ha. exact (Ha [] eq_refl).
Qed.

Lemma no_fetch_in (t : list obs) (url : string) (init : value)
  (x : JS.result http_response) :
  filter is_fetch t = [] -> ~ In (ObsFetch url init x) t.
Proof.
  intros Hf Hin. pose proof (in_filter_nil is_fetch t _ Hf Hin). discriminate.
Qed.

Lemma replay_defined (m : value) : nullish m = false -> replay m = inr (replayed m).
Proof.
  intros Hn. unfold replay, replayed. rewrite !(get_defined m _ Hn). reflexivity.
Qed.

Lemma map_values_replay (rows : list value) :
  Forall (fun m => nullish m = false) rows ->
  map_values replay rows = inr (map replayed rows).
Proof.
  induction 1 as [|m rows Hm _ IH]; [reflexivity|].
  cbn [map_values map]. now rewrite (replay_defined m Hm), IH.
Qed.

(** X28.  What is replayed of a conversation is what the store holds of
    it, up to the twentieth message.  For a request that names a
    conversation, the first backend call reads the messages of that
    conversation, in the order they were saved, 20 at most; and whatever the
    handler then sends to the model is the system prompt, those messages - each
    as its role and content, with its tool calls when it has some - and the new
    request.  A message saved after the twentieth is not replayed. *)
Theorem history_is_oldest_twenty functions model (d : Store.db) (sched : list nat)
  (req : Request.t) (userId conv : string) :
  Request.conversationId req = Some conv ->
  conv <> "" ->
  Forall (fun m => nullish m = false) (Store.rows "ai_conversation_messages" d) ->
  let stored := filter (Store.matches "conversation_id" (VStr conv))
                  (Store.rows "ai_conversation_messages" d) in
  let t := trace (Store.backend functions model) (handle sched req userId) d in
  (exists rest,
      t = ObsSupabase
            (SelectEqOrderLimit "ai_conversation_messages" "role, content, tool_calls"
               "conversation_id" (VStr conv) "created_at" 20)
            (inr {| data := VArr (firstn 20 stored); error := None |})
          :: rest)
  /\ forall url init x,
       In (ObsFetch url init x) t ->
       exists context,
         url = gateway
         /\ init = aiRequestBody (Request.action req)
                     (system_turn (Request.action req)
                      :: map replayed (firstn 20 stored)
                      ++ [user_turn JSON_stringify_pretty context (Request.prompt req)])
                     (Request.stream req).
Proof.
  intros Hconv Hne Hrows stored t.
  assert (Ht : truthy (VStr conv) = true).
  { cbn. apply String.eqb_neq in Hne. now rewrite Hne. }
  assert (Hstored : Forall (fun m => nullish m = false) (firstn 20 stored)).
  { rewrite Forall_forall in Hrows |- *. intros m Hm.
    assert (Hin : In m stored).
    { rewrite <- (firstn_skipn 20 stored). apply in_or_app. now left. }
    apply Hrows. apply filter_In in Hin. apply Hin. }
  subst t. unfold Agent.handle. cbv zeta. rewrite Hconv. cbn [optional].
  rewrite trace_guarded, Ht. cbn [negb andb bind fst snd]. rewrite Ht.
  rewrite trace_bind, outcome_bind, outcome_await, trace_bind, trace_await, outcome_await,
    final_bind, outcome_await, final_await.
  cbn [Store.backend on_supabase Store.on_op fst snd Store.answer ok data or_else truthy].
  change (Z.to_nat 20) with 20. fold stored.
  change (trace (Store.backend functions model) (Ret (VArr (firstn 20 stored))) d)
    with (@nil obs).
  change (final (Store.backend functions model) (Ret (VArr (firstn 20 stored))) d) with d.
  cbn [app].
  split; [eexists; reflexivity|].
  intros url init x [H|H]; [discriminate|]. revert url init x H.
  match goal with
  | |- forall url init x, In _ (trace ?w ?p ?s) -> _ =>
      apply (sat_run w p
               (fun t _ =>
                  forall url init x,
                    In (ObsFetch url init x) t ->
                    exists context,
                      url = gateway
                      /\ init = aiRequestBody (Request.action req)
                                  (system_turn (Request.action req)
                                   :: map replayed (firstn 20 stored)
                                   ++ [user_turn JSON_stringify_pretty context
                                         (Request.prompt req)])
                                  (Request.stream req)) s)
  end.
  apply sat_bind.
  match goal with
  | |- sat ?p _ => assert (Hprep : calm is_preparation p) by calmness
  end.
  apply (sat_weaken Hprep). intros t1 [e|context] H1.
  { intros url init x Hin.
    destruct (no_fetch_in _ _ _ _ (no_fetch_in_preparation _ H1) Hin). }
  unfold conversationHistory. cbn [call_map]. rewrite (map_values_replay _ Hstored).
  cbn [lift bind]. fold (system_turn (Request.action req)).
  fold (user_turn JSON_stringify_pretty context (Request.prompt req)).
  assert (Hcall : forall (k : http_response -> prog http_reply) request,
             request = aiRequestBody (Request.action req)
                         (system_turn (Request.action req)
                          :: map replayed (firstn 20 stored)
                          ++ [user_turn JSON_stringify_pretty context (Request.prompt req)])
                         (Request.stream req) ->
             (forall response, calm is_follow_up (k response)) ->
             sat (bind (await_fetch gateway request)
                    (fun aiResponse =>
                       if negb (resp_ok aiResponse)
                       then Throw (Error ("AI Gateway error: "
                                          ++ Z_to_string (Async.status aiResponse)))
                       else k aiResponse))
                 (fun t' _ =>
                    forall url init x,
                      In (ObsFetch url init x) (t1 ++ t') ->
                      exists context0,
                        url = gateway
                        /\ init = aiRequestBody (Request.action req)
                                    (system_turn (Request.action req)
                                     :: map replayed (firstn 20 stored)
                                     ++ [user_turn JSON_stringify_pretty context0
                                           (Request.prompt req)])
                                    (Request.stream req))).
  { intros k request Hrequest Hk.
    assert (Hone : forall t2 x0,
               filter is_fetch t2 = [] ->
               forall url init x,
                 In (ObsFetch url init x) (t1 ++ ObsFetch gateway request x0 :: t2) ->
                 exists context0,
                   url = gateway
                   /\ init = aiRequestBody (Request.action req)
                               (system_turn (Request.action req)
                                :: map replayed (firstn 20 stored)
                                ++ [user_turn JSON_stringify_pretty context0
                                      (Request.prompt req)])
                               (Request.stream req)).
    { intros t2 x0 H2 url init x Hin. apply in_app_or in Hin as [Hin|[Hin|Hin]].
      - destruct (no_fetch_in _ _ _ _ (no_fetch_in_preparation _ H1) Hin).
      - inversion Hin; subst url init. exists context. split; [reflexivity|exact Hrequest].
      - destruct (no_fetch_in _ _ _ _ H2 Hin). }
    cbn [bind await_fetch sat]. intros [e|response]; cbn [lift bind sat].
    - exact (Hone [] (inl e) eq_refl).
    - destruct (negb (resp_ok response)); [exact (Hone [] (inr response) eq_refl)|].
      apply (sat_weaken (Hk response)). intros t2 r2 H2.
      exact (Hone t2 (inr response) (no_fetch_in_follow_up _ H2)). }
  destruct (Request.stream req) eqn:Hstream.
  - apply Hcall; [reflexivity|]. intros response. unfold Agent.streamStart. tools_calm.
  - apply Hcall; [reflexivity|]. intros response. unfold Agent.respond. tools_calm.
Qed.

End HandleFacts.

(* ===================================================================== *)
(** ** A delta forwarded, a refused write *)
(* ===================================================================== *)

Section FurtherFacts.

Variable JSON_parse : string -> JS.result value.
Variable JSON_stringify_pretty : value -> string.

(** X27.  A record that carries a piece of text is forwarded: for a
    [data: ] line whose payload parses to a record with a non-empty string in
    [choices[0].delta.content] and no tool calls, the loop does what [forward]
    says: it appends the string to [fullContent] and enqueues one delta event
    with that string (on a stream that takes events; the string is appended
    all the same on one that does not); nothing else changes. *)
Theorem content_delta_is_forwarded (line : string) (parsed : value) (text : string)
  (st : relay_state) :
  startsWith "data: " line = true ->
  (trim (slice 6 line) =? "[DONE]") = false ->
  JSON_parse (trim (slice 6 line)) = inr parsed ->
  nullish parsed = false ->
  get_opt (delta_of parsed) "content" = VStr text ->
  text <> "" ->
  truthy (get_opt (delta_of parsed) "tool_calls") = false ->
  Agent.processLine JSON_parse line st = forward (VStr text) text st.
Proof.
  intros Hd Hdone Hp Hn Hc Ht Htc.
  rewrite (processLine_data JSON_parse line st Hd). cbv zeta. rewrite Hdone.
  unfold extract_delta. rewrite Hp, (get_defined parsed "choices" Hn).
  cbn [ok]. fold (delta_of parsed). rewrite Hc, Htc.
  cbn [truthy]. apply String.eqb_neq in Ht. rewrite Ht. cbn [negb].
  unfold forward_content. cbn [ToString ok].
  now destruct (writable (output st)).
Qed.

(** X29.  [create_task] does not look at what the database answers: when
    the insert resolves - also with an error, the row refused - the handler
    reports [success: true] and [Task created].  (Only a rejected call makes
    it report a failure.) *)
Theorem refused_task_is_reported_created {S} (w : world S) (s s' : S) (args : value)
  (title : string) (answer : pg_response) :
  nullish args = false ->
  ToString (get_opt args "title") = inr title ->
  on_supabase w (Insert "tasks" (task_row args)) s = (inr answer, s') ->
  run w (create_task args) s
  = (inr (succeeded (check_mark ++ " Task created: " ++ title)), s',
     [ObsSupabase (Insert "tasks" (task_row args)) (inr answer)]).
Proof.
  intros Hn Ht Hw. unfold create_task. rewrite !(get_defined args _ Hn).
  cbn [lift bind try_catch await run]. fold (task_row args). rewrite Hw.
  cbn [lift bind try_catch]. rewrite Ht. reflexivity.
Qed.

End FurtherFacts.

(* ===================================================================== *)
(** ** On concrete calls, replies and requests *)
(* ===================================================================== *)

Section MoreExamples.

Lemma tool_acts_on_case_of_arguments_witness :
  forallb (scoped (get_opt task_args "caseId") "anna")
    (snd (run (Store.backend functions_ok no_model)
            (Agent.executeSingleTool Json.parse task_call (VStr "C1") "anna")
            Store.empty))
  = true.
Proof.
  apply (tool_acts_on_case_of_arguments Json.parse (Store.backend functions_ok no_model)
           Store.empty task_call (VStr "C1") "anna" task_args).
  reflexivity.
Defined.

(** The task asked for case C2 while case C1 is served is filed under C2. *)
Example task_filed_under_case_of_arguments :
  Store.rows "tasks"
    (final (Store.backend functions_ok no_model)
       (Agent.executeSingleTool Json.parse task_call (VStr "C1") "anna")
       Store.empty)
  = [VObj [("id", VNum 1); ("case_id", VStr "C2"); ("title", VStr "Collect passport");
           ("description", VStr ""); ("priority", VStr "high");
           ("category", VStr "general"); ("due_date", VNull);
           ("status", VStr "pending")]].
Proof. vm_compute. reflexivity. Qed.

Lemma registered_tool_is_handled_witness :
  exists res,
    outcome (Store.backend functions_ok no_model)
      (Agent.executeSingleTool Json.parse task_call (VStr "C1") "anna") Store.empty
    = inr res
    /\ labelled task_call res
    /\ handled (result res)
    /\ message (result res) <> "Unknown tool".
Proof.
  apply (registered_tool_is_handled Json.parse (Store.backend functions_ok no_model)
           Store.empty task_call (VStr "C1") "anna" task_args); reflexivity.
Defined.

Lemma malformed_call_rejects_batch_witness :
  exists e,
    outcome (Store.backend functions_ok no_model)
      (Agent.executeToolsParallel Json.parse [0; 1]
         [task_call; VObj [("id", VStr "call_2")]] (VStr "C1") "anna")
      Store.empty
    = inl e.
Proof.
  apply (malformed_call_rejects_batch Json.parse (Store.backend functions_ok no_model)
           Store.empty [0; 1] [task_call; VObj [("id", VStr "call_2")]] (VStr "C1") "anna").
  reflexivity.
Defined.

Lemma failed_generation_is_not_logged_witness :
  exists body answer rest,
    snd (run (Store.backend functions_ok no_model)
           (generate_poa_pdf (VObj [("caseId", VStr "C1"); ("poaType", VStr "adult")]) "anna")
           Store.empty)
    = ObsSupabase (FunctionsInvoke "generate-poa" body) (inr answer) :: rest
    /\ Async.error answer = None.
Proof.
  apply (failed_generation_is_not_logged (Store.backend functions_ok no_model) Store.empty
           (VObj [("caseId", VStr "C1"); ("poaType", VStr "adult")]) "anna").
  vm_compute. discriminate.
Defined.

Lemma archive_request_fails_after_insert_witness :
  exists e row answer,
    outcome (Store.backend functions_ok no_model)
      (generate_archive_request (VObj [("caseId", VStr "C1"); ("personType", VStr "F")])
         "anna")
      Store.empty
    = inr (failed e)
    /\ snd (run (Store.backend functions_ok no_model)
              (generate_archive_request
                 (VObj [("caseId", VStr "C1"); ("personType", VStr "F")]) "anna")
              Store.empty)
       = [ObsSupabase (Insert "archive_searches" row) answer]
    /\ get_opt row "case_id"
       = get_opt (VObj [("caseId", VStr "C1"); ("personType", VStr "F")]) "caseId".
Proof.
  apply (archive_request_fails_after_insert (Store.backend functions_ok no_model)
           Store.empty (VObj [("caseId", VStr "C1"); ("personType", VStr "F")]) "anna");
    reflexivity.
Defined.

Lemma master_update_fails_after_update_witness :
  exists e answer,
    outcome (Store.backend functions_ok no_model)
      (update_master_data (VObj [("caseId", VStr "C1")]) "anna") Store.empty
    = inr (failed e)
    /\ snd (run (Store.backend functions_ok no_model)
              (update_master_data (VObj [("caseId", VStr "C1")]) "anna") Store.empty)
       = [ObsSupabase (UpdateEq "master_table"
                         (get_opt (VObj [("caseId", VStr "C1")]) "fields")
                         "case_id"
                         (get_opt (VObj [("caseId", VStr "C1")]) "caseId")) answer].
Proof.
  apply (master_update_fails_after_update (Store.backend functions_ok no_model)
           Store.empty (VObj [("caseId", VStr "C1")]) "anna"); reflexivity.
Defined.

Lemma wsc_response_needs_strategy_witness :
  exists e,
    draft_wsc_response (VObj [("caseId", VStr "C1"); ("keyPoints", VArr [VStr "deadline"])])
      "anna"
    = Ret (failed e).
Proof.
  apply (wsc_response_needs_strategy
           (VObj [("caseId", VStr "C1"); ("keyPoints", VArr [VStr "deadline"])]) "anna").
  reflexivity.
Defined.

Lemma draft_needs_master_record_witness :
  run (Store.backend functions_ok no_model)
    (create_oby_draft (VObj [("caseId", VStr "C1")]) "anna") Store.empty
  = (inr (failed (Error "Master data not found")), Store.empty,
     [ObsSupabase
        (SelectEqSingle "master_table" "*" "case_id"
           (get_opt (VObj [("caseId", VStr "C1")]) "caseId"))
        (inr {| data := VNull; error := Some Store.no_single_row |})]).
Proof.
  apply (draft_needs_master_record (Store.backend functions_ok no_model)
           Store.empty Store.empty (VObj [("caseId", VStr "C1")]) "anna"
           {| data := VNull; error := Some Store.no_single_row |}); reflexivity.
Defined.

Lemma tools_need_a_case_witness :
  forallb is_save
    (snd (run (Store.backend functions_ok no_model)
            (Agent.streamStart Json.parse [] false (VStr "conv-1") VUndefined "Hello" "anna"
               {| chunks := [unlines [delta_line "Witaj"]]; failure := None |}
               new_controller)
            Store.empty))
  = true
  /\ forallb is_save
       (snd (run (Store.backend functions_ok no_model)
               (Agent.respond Json.parse [] (VStr "conv-1") VUndefined "translator" "Hello"
                  "anna" tool_only_completion)
               Store.empty))
     = true
  /\ forall response conversationId toolResults,
       outcome (Store.backend functions_ok no_model)
         (Agent.respond Json.parse [] (VStr "conv-1") VUndefined "translator" "Hello"
            "anna" tool_only_completion)
         Store.empty
       = inr (JsonReply response conversationId toolResults) ->
       toolResults = [].
Proof.
  apply (tools_need_a_case Json.parse (Store.backend functions_ok no_model)
           Store.empty Store.empty [] false (VStr "conv-1") VUndefined "translator"
           "Hello" "anna" {| chunks := [unlines [delta_line "Witaj"]]; failure := None |}
           tool_only_completion).
  reflexivity.
Defined.

Lemma reply_without_text_fails_witness :
  (exists e,
      outcome (Store.backend functions_ok no_model)
        (Agent.respond Json.parse [] (VStr "conv-1") (VStr "C1") "task_suggest" "Hello"
           "anna" tool_only_completion)
        Store.empty
      = inl e)
  /\ request_logs
       (snd (run (Store.backend functions_ok no_model)
               (Agent.respond Json.parse [] (VStr "conv-1") (VStr "C1") "task_suggest"
                  "Hello" "anna" tool_only_completion)
               Store.empty))
     = [].
Proof.
  apply (reply_without_text_fails Json.parse (Store.backend functions_ok no_model)
           Store.empty [] (VStr "conv-1") (VStr "C1") "task_suggest" "Hello" "anna"
           tool_only_completion
           (VObj [("role", VStr "assistant");
                  ("content", VNull);
                  ("tool_calls",
                   VArr [tool_call "call_1" "create_task"
                           (Json.js "{'caseId':'C1','title':'Collect passport','priority':'high'}")])]));
    reflexivity.
Defined.

(** The reply of tool calls alone, on the whole handler: the task is
    created, the caller gets an error. *)
Example tool_only_reply_is_an_error :
  outcome (Store.backend functions_ok (completed tool_only_completion))
    (Agent.handle Json.parse Json.stringify_pretty [] (case_request false) "anna")
    case_store
  = inr (ErrorReply "Cannot read properties of null (reading 'substring')" 500)
  /\ List.length
       (Store.rows "tasks"
          (final (Store.backend functions_ok (completed tool_only_completion))
             (Agent.handle Json.parse Json.stringify_pretty [] (case_request false) "anna")
             case_store))
     = 1%nat.
Proof. split; vm_compute; reflexivity. Qed.

Lemma plain_reply_is_logged_witness :
  let t := snd (run (Store.backend functions_ok no_model)
                  (Agent.respond Json.parse [] (VStr "conv-1") (VStr "C1")
                     "eligibility_analysis" "Hello" "anna" (completion_of "Witaj"))
                  Store.empty) in
  let r := outcome (Store.backend functions_ok no_model)
             (Agent.respond Json.parse [] (VStr "conv-1") (VStr "C1")
                "eligibility_analysis" "Hello" "anna" (completion_of "Witaj"))
             Store.empty in
  (forall reply,
      r = inr reply ->
      (exists toolResults, reply = JsonReply (VStr "Witaj") (VStr "conv-1") toolResults)
      /\ request_logs t
         = [request_log (VStr "C1") "eligibility_analysis" "Hello" "anna"
              (take 500 "Witaj") (VStr "conv-1")
              (or_else
                 (get_opt
                    (get_opt (VObj [("role", VStr "assistant"); ("content", VStr "Witaj")])
                       "tool_calls")
                    "length")
                 (VNum 0))])
  /\ units (take 500 "Witaj") <= 500
  /\ (units "Witaj" <= 500 -> take 500 "Witaj" = "Witaj")
  /\ (truthy (get_opt (VObj [("role", VStr "assistant"); ("content", VStr "Witaj")])
                "tool_calls") = false ->
      existsb rejected t = false ->
      r = inr (JsonReply (VStr "Witaj") (VStr "conv-1") [])).
Proof.
  apply (plain_reply_is_logged Json.parse (Store.backend functions_ok no_model)
           Store.empty [] (VStr "conv-1") (VStr "C1") "eligibility_analysis" "Hello" "anna"
           (completion_of "Witaj")
           (VObj [("role", VStr "assistant"); ("content", VStr "Witaj")]) "Witaj");
    reflexivity.
Defined.

(** The preview counts code units, not bytes nor characters: the check mark
    (three bytes) is one unit, the page emoji (four bytes) is two, and a
    preview cut inside the emoji ends with the first half of its pair. *)
Example preview_counts_code_units :
  units ("a" ++ check_mark ++ "📄b") = 5
  /\ String.length ("a" ++ check_mark ++ "📄b") = 9
  /\ take 4 ("a" ++ check_mark ++ "📄b") = "a" ++ check_mark ++ "📄"
  /\ take 3 ("a" ++ check_mark ++ "📄b")
     = "a" ++ check_mark
       ++ String (ascii_of_nat 237) (String (ascii_of_nat 160) (String (ascii_of_nat 189) "")).
Proof. repeat split. Qed.

Lemma gateway_refusal_is_reported_witness :
  outcome (Store.backend functions_ok (inr too_many_requests))
    (Agent.handle Json.parse Json.stringify_pretty [] plain_request "anna") Store.empty
  = inr (ErrorReply ("AI Gateway error: " ++ Z_to_string (Async.status too_many_requests))
           500)
  /\ (exists pre,
         snd (run (Store.backend functions_ok (inr too_many_requests))
                (Agent.handle Json.parse Json.stringify_pretty [] plain_request "anna")
                Store.empty)
         = (pre ++ [ObsFetch gateway
                      (aiRequestBody "translator"
                         [system_turn "translator";
                          user_turn Json.stringify_pretty (VObj []) "Translate this"]
                         false)
                      (inr too_many_requests)])%list
         /\ forallb is_preparation pre = true)
  /\ saved_messages
       (snd (run (Store.backend functions_ok (inr too_many_requests))
               (Agent.handle Json.parse Json.stringify_pretty [] plain_request "anna")
               Store.empty))
     = []
  /\ inserts_into "hac_logs"
       (snd (run (Store.backend functions_ok (inr too_many_requests))
               (Agent.handle Json.parse Json.stringify_pretty [] plain_request "anna")
               Store.empty))
     = [].
Proof.
  apply (gateway_refusal_is_reported Json.parse Json.stringify_pretty
           (Store.backend functions_ok (inr too_many_requests)) Store.empty []
           plain_request "anna" gateway
           (aiRequestBody "translator"
              [system_turn "translator";
               user_turn Json.stringify_pretty (VObj []) "Translate this"]
              false)
           too_many_requests).
  - left. reflexivity.
  - reflexivity.
Defined.

Lemma request_without_case_is_stateless_witness :
  forallb is_model_call
    (snd (run (Store.backend functions_ok (completed (completion_of "Przetlumaczone")))
            (Agent.handle Json.parse Json.stringify_pretty [] plain_request "anna")
            case_store))
  = true.
Proof.
  apply (request_without_case_is_stateless Json.parse Json.stringify_pretty
           (Store.backend functions_ok (completed (completion_of "Przetlumaczone")))
           case_store [] plain_request "anna"); reflexivity.
Defined.

Lemma audit_reads_no_case_witness :
  forallb (fun o => negb (reads_case o))
    (snd (run (Store.backend functions_ok (completed (completion_of "No risks found.")))
            (Agent.handle Json.parse Json.stringify_pretty [] case_audit_request "anna")
            case_store))
  = true.
Proof.
  apply (audit_reads_no_case Json.parse Json.stringify_pretty
           (Store.backend functions_ok (completed (completion_of "No risks found.")))
           case_store [] case_audit_request "anna").
  reflexivity.
Defined.

Lemma case_error_is_reported_witness :
  outcome (Store.backend functions_ok (completed (completion_of "Yes")))
    (Agent.handle Json.parse Json.stringify_pretty [] lost_case_request "anna") case_store
  = inr (ErrorReply ("Failed to fetch case: " ++ JS.message Store.no_single_row) 500)
  /\ filter is_fetch
       (snd (run (Store.backend functions_ok (completed (completion_of "Yes")))
               (Agent.handle Json.parse Json.stringify_pretty [] lost_case_request "anna")
               case_store))
     = []
  /\ saved_messages
       (snd (run (Store.backend functions_ok (completed (completion_of "Yes")))
               (Agent.handle Json.parse Json.stringify_pretty [] lost_case_request "anna")
               case_store))
     = []
  /\ inserts_into "hac_logs"
       (snd (run (Store.backend functions_ok (completed (completion_of "Yes")))
               (Agent.handle Json.parse Json.stringify_pretty [] lost_case_request "anna")
               case_store))
     = [].
Proof.
  apply (case_error_is_reported Json.parse Json.stringify_pretty
           (Store.backend functions_ok (completed (completion_of "Yes")))
           case_store [] lost_case_request "anna" cases_select "id" (VStr "C404")
           {| data := VNull; error := Some Store.no_single_row |} Store.no_single_row).
  - right. right. left. reflexivity.
  - reflexivity.
Defined.

(** A conversation created for a request that then fails stays behind. *)
Example conversation_of_failed_request_stays :
  List.length
    (Store.rows "ai_conversations"
       (final (Store.backend functions_ok (completed (completion_of "Yes")))
          (Agent.handle Json.parse Json.stringify_pretty [] lost_case_request "anna")
          case_store))
  = 1%nat.
Proof. vm_compute. reflexivity. Qed.

Lemma content_delta_is_forwarded_witness :
  Agent.processLine Json.parse (delta_line "Witaj") (relay_start new_controller)
  = forward (VStr "Witaj") "Witaj" (relay_start new_controller).
Proof.
  apply (content_delta_is_forwarded Json.parse (delta_line "Witaj")
           (VObj [("choices", VArr [VObj [("delta", VObj [("content", VStr "Witaj")])]])])
           "Witaj" (relay_start new_controller));
    try reflexivity.
  discriminate.
Defined.

Lemma history_is_oldest_twenty_witness :
  let stored := filter (Store.matches "conversation_id" (VStr "conv-1"))
                  (Store.rows "ai_conversation_messages" conversation_store) in
  let t := trace (Store.backend functions_ok (completed (completion_of "Dalej")))
             (Agent.handle Json.parse Json.stringify_pretty [] follow_up_request "anna")
             conversation_store in
  (exists rest,
      t = ObsSupabase
            (SelectEqOrderLimit "ai_conversation_messages" "role, content, tool_calls"
               "conversation_id" (VStr "conv-1") "created_at" 20)
            (inr {| data := VArr (firstn 20 stored); error := None |})
          :: rest)
  /\ forall url init x,
       In (ObsFetch url init x) t ->
       exists context,
         url = gateway
         /\ init = aiRequestBody (Request.action follow_up_request)
                     (system_turn (Request.action follow_up_request)
                      :: map replayed (firstn 20 stored)
                      ++ [user_turn Json.stringify_pretty context
                            (Request.prompt follow_up_request)])
                     (Request.stream follow_up_request).
Proof.
  apply (history_is_oldest_twenty Json.parse Json.stringify_pretty functions_ok
           (completed (completion_of "Dalej")) conversation_store [] follow_up_request
           "anna" "conv-1").
  - reflexivity.
  - discriminate.
  - repeat constructor.
Defined.

(** Of a conversation of 22 messages the model is sent the first 20: the
    last exchange saved is not replayed. *)
Example last_exchange_is_not_replayed :
  List.length long_conversation = 22
  /\ filter is_fetch
       (trace (Store.backend functions_ok (completed (completion_of "Dalej")))
          (Agent.handle Json.parse Json.stringify_pretty [] follow_up_request "anna")
          conversation_store)
     = [ObsFetch gateway
          (aiRequestBody "translator"
             (system_turn "translator"
              :: map replayed (firstn 20 long_conversation)
              ++ [user_turn Json.stringify_pretty (VObj []) "And then?"])
             false)
          (completed (completion_of "Dalej"))].
Proof. split; vm_compute; reflexivity. Qed.

Lemma refused_task_is_reported_created_witness :
  run refusing_backend (create_task task_args) tt
  = (inr (succeeded (check_mark ++ " Task created: " ++ "Collect passport")), tt,
     [ObsSupabase (Insert "tasks" (task_row task_args)) (inr refused_insert)]).
Proof.
  apply (refused_task_is_reported_created refusing_backend tt tt task_args
           "Collect passport" refused_insert); reflexivity.
Defined.

End MoreExamples.
